(** * SmartDB: SQL synthesis and SQL execution, embedded in Rocq

    A shallow embedding of the implemented core of the SmartDB backend:

    - [backend/utils/helpers.py]: [sanitize_table_name], [sanitize_column_name];
    - [backend/models/nlp/nl_to_sql.py]: [NLToSQLConverter];
    - [backend/models/image_processing/er_to_sql.py]: [ERToSQLConverter];
    - [backend/models/sql/sql_executor.py]: [SQLExecutor];
    - [backend/app.py]: the [execute_sql] route.

    Conventions.  A Python [str] is a Rocq [string]; its characters are the
    code points 0..255, and the character classes below ([isspace],
    [isdigit], [is_word], [lower_char], [upper_char]) follow CPython's
    Unicode tables on that range.  Code points above 255 appear in the
    module [Wide] only, which runs the sanitizers on lists of code
    points.  A dictionary with a fixed set of keys is a record; a key that
    the code reads through [.get(key, default)] is an [option] field.
    The SQLite engine, the file system and the standard output are the
    world the executor acts on: the engine is a parameter ([Engine]), and
    every call the executor makes to it is recorded in a trace. *)

From Stdlib Require Import String Ascii List Bool Arith NArith Lia DecimalString.
Import ListNotations.
Open Scope string_scope.
Open Scope list_scope.

(** String concatenation, Python's [+] on [str]. *)
Infix "^^" := String.append (at level 60, right associativity).

(** ** Python strings *)

Module PyStr.

Definition ord (c : ascii) : N := N_of_ascii c.

(** [str.isspace] on one character (in the ASCII range this is also the
    table of [str.strip]): TAB, LF, VT, FF, CR, the separators FS, GS,
    RS, US, the space, NEL and the no-break space. *)
Definition isspace (c : ascii) : bool :=
  let n := ord c in
  ((9 <=? n) && (n <=? 13) || (28 <=? n) && (n <=? 32)
   || (n =? 133) || (n =? 160))%N.

(** [str.isdigit] on one character: the decimal digits and the
    superscripts one, two and three. *)
Definition isdigit (c : ascii) : bool :=
  let n := ord c in
  ((48 <=? n) && (n <=? 57) || (n =? 178) || (n =? 179) || (n =? 185))%N.

(** [str.isalnum] on one character, below code point 256. *)
Definition isalnum (c : ascii) : bool :=
  let n := ord c in
  ((48 <=? n) && (n <=? 57) || (65 <=? n) && (n <=? 90)
   || (97 <=? n) && (n <=? 122)
   || (n =? 170) || (n =? 178) || (n =? 179) || (n =? 181)
   || (n =? 185) || (n =? 186) || (188 <=? n) && (n <=? 190)
   || (192 <=? n) && (n <=? 214) || (216 <=? n) && (n <=? 246)
   || (248 <=? n) && (n <=? 255))%N.

(** The class [\w] of the [re] module on a [str] pattern. *)
Definition is_word (c : ascii) : bool :=
  isalnum c || (ord c =? 95)%N.

(** [str.isupper] on one character, below code point 256. *)
Definition isupper (c : ascii) : bool :=
  let n := ord c in
  ((65 <=? n) && (n <=? 90) || (192 <=? n) && (n <=? 214)
   || (216 <=? n) && (n <=? 222))%N.

(** [str.lower] on one character; below 256 the result is one character
    of the same range. *)
Definition lower_char (c : ascii) : ascii :=
  if isupper c then ascii_of_N (ord c + 32) else c.

Fixpoint lower (s : string) : string :=
  match s with
  | EmptyString => EmptyString
  | String c s' => String (lower_char c) (lower s')
  end.

(** [str.upper] on one character, as a sequence of code points: the
    sharp s becomes two letters, the micro sign and the y with diaeresis
    leave the range. *)
Definition upper_char (c : ascii) : list N :=
  let n := ord c in
  if ((97 <=? n) && (n <=? 122) || (224 <=? n) && (n <=? 246)
      || (248 <=? n) && (n <=? 254))%N then [(n - 32)%N]
  else if (n =? 223)%N then [83%N; 83%N]
  else if (n =? 181)%N then [924%N]
  else if (n =? 255)%N then [376%N]
  else [n].

Fixpoint upper (s : string) : list N :=
  match s with
  | EmptyString => []
  | String c s' => upper_char c ++ upper s'
  end.

Fixpoint code_points (s : string) : list N :=
  match s with
  | EmptyString => []
  | String c s' => ord c :: code_points s'
  end.

(** [prefix.startswith] on sequences of code points. *)
Fixpoint starts_with (p l : list N) : bool :=
  match p, l with
  | [], _ => true
  | _ :: _, [] => false
  | a :: p', b :: l' => (a =? b)%N && starts_with p' l'
  end.

Definition is_empty (s : string) : bool :=
  match s with EmptyString => true | String _ _ => false end.

(** [s.startswith(p)]. *)
Definition startswith (p s : string) : bool := prefix p s.

(** [s.endswith(suf)]: [s] is [suf], or the tail of [s] ends with it. *)
Fixpoint endswith (suf s : string) : bool :=
  (s =? suf) ||
  match s with
  | EmptyString => false
  | String _ s' => endswith suf s'
  end.

(** [s.lstrip()], [s.rstrip()] and [s.strip()]. *)
Fixpoint lstrip (s : string) : string :=
  match s with
  | EmptyString => EmptyString
  | String c s' => if isspace c then lstrip s' else s
  end.

Fixpoint rstrip (s : string) : string :=
  match s with
  | EmptyString => EmptyString
  | String c s' =>
      match rstrip s' with
      | EmptyString => if isspace c then EmptyString else String c EmptyString
      | r => String c r
      end
  end.

Definition strip (s : string) : string := lstrip (rstrip s).

(** [s.split(sep)] for a separator of one character: never empty. *)
Fixpoint split (sep : ascii) (s : string) : list string :=
  match s with
  | EmptyString => [EmptyString]
  | String c s' =>
      if Ascii.eqb c sep then EmptyString :: split sep s'
      else match split sep s' with
           | [] => [String c EmptyString]
           | piece :: pieces => String c piece :: pieces
           end
  end.

(** [sep.join(l)]. *)
Definition join (sep : string) (l : list string) : string := String.concat sep l.

(** [s[:n]]. *)
Definition slice_to (n : nat) (s : string) : string := substring 0 n s.

(** [str(n)] for a natural number. *)
Definition str_of_nat (n : nat) : string :=
  NilZero.string_of_uint (Nat.to_uint n).

Definition newline : ascii := "010"%char.

(** The character [c] occurs in [s]. *)
Fixpoint occurs (c : ascii) (s : string) : Prop :=
  match s with
  | EmptyString => False
  | String a s' => a = c \/ occurs c s'
  end.

End PyStr.
Import PyStr.

(** ** [SQLExecutor._split_sql_statements] *)

(** One iteration of the loop over the lines: the state is
    [(statements, current_statement)]. *)
Definition split_loop_body (st : list string * string) (line : string)
  : list string * string :=
  let '(statements, current_statement) := st in
  let line := strip line in
  if startswith "--" line || startswith "#" line || is_empty line then
    (statements, current_statement)
  else
    let current_statement := current_statement ^^ " " ^^ line in
    if endswith ";" line then
      (statements ++ [strip current_statement], "")
    else (statements, current_statement).

Definition _split_sql_statements (sql_code : string) : list string :=
  let '(statements, current_statement) :=
    fold_left split_loop_body (split newline sql_code) ([], "") in
  if is_empty (strip current_statement) then statements
  else statements ++ [strip current_statement].

(** The splitter as the specification words it: comment and blank lines
    are skipped, the kept (stripped) lines are collected in a buffer, a
    line ending in a semicolon flushes the buffer joined by single spaces,
    and a non-empty buffer is flushed after the last line. *)
Module SplitterSpec.

Definition skipped (line : string) : bool :=
  is_empty line || startswith "--" line || startswith "#" line.

Fixpoint split_lines (buffer : list string) (lines : list string)
  : list string :=
  match lines with
  | [] => match buffer with [] => [] | _ => [join " " buffer] end
  | raw :: rest =>
      let line := strip raw in
      if skipped line then split_lines buffer rest
      else if endswith ";" line then
        join " " (buffer ++ [line]) :: split_lines [] rest
      else split_lines (buffer ++ [line]) rest
  end.

Definition split_statements (script : string) : list string :=
  split_lines [] (split newline script).

End SplitterSpec.

(** ** Exceptions and results *)

(** A Python exception: its class and the message that [str(e)] gives. *)
Record exception := mk_exception { exn_class : string; exn_message : string }.

Definition IndexError (msg : string) : exception :=
  mk_exception "IndexError" msg.
Definition NotImplementedError (msg : string) : exception :=
  mk_exception "NotImplementedError" msg.
Definition TypeError (msg : string) : exception :=
  mk_exception "TypeError" msg.
Definition AttributeError (msg : string) : exception :=
  mk_exception "AttributeError" msg.

(** [str(e)]. *)
Definition str (e : exception) : string := exn_message e.

(** The outcome of a call that may raise. *)
Inductive result (A : Type) : Type :=
| Ok (a : A)
| Raise (e : exception).
Arguments Ok {A} a.
Arguments Raise {A} e.

(** [d.get(key, default)] on an optional key. *)
Definition dict_get {A : Type} (field : option A) (default : A) : A :=
  match field with Some v => v | None => default end.

(** The line feed as a string. *)
Definition LF : string := String newline EmptyString.

(** ** [backend/utils/helpers.py] *)

(** [re.sub(r'[^\w]', '_', name)]: every character outside [\w] becomes
    an underscore. *)
Fixpoint re_sub_non_word (name : string) : string :=
  match name with
  | EmptyString => EmptyString
  | String c s => String (if is_word c then c else "_"%char) (re_sub_non_word s)
  end.

Definition sanitize_table_name (name : string) : result string :=
  let name := lower (re_sub_non_word name) in
  match name with
  | EmptyString => Raise (IndexError "string index out of range")
  | String c _ => if isdigit c then Ok ("t_" ^^ name) else Ok name
  end.

Definition sanitize_column_name (name : string) : result string :=
  let name := lower (re_sub_non_word name) in
  match name with
  | EmptyString => Raise (IndexError "string index out of range")
  | String c _ => if isdigit c then Ok ("c_" ^^ name) else Ok name
  end.

(** *** The sanitizers beyond code point 255

    A name may hold any code point.  Here a [str] is a list of code
    points, and the tables are CPython's where this development
    tabulates them: the code points 0..255, LATIN CAPITAL LETTER I WITH
    DOT ABOVE (U+0130, a letter whose lowercase is [i] followed by
    U+0307) and COMBINING DOT ABOVE (U+0307, a mark, not a word
    character).  A function returns [None] on a code point that is not
    tabulated. *)
Module Wide.

Definition is_word (n : N) : option bool :=
  if (n <? 256)%N then Some (PyStr.is_word (ascii_of_N n))
  else if (n =? 304)%N then Some true
  else if (n =? 775)%N then Some false
  else None.

Definition isdigit (n : N) : option bool :=
  if (n <? 256)%N then Some (PyStr.isdigit (ascii_of_N n))
  else if (n =? 304)%N then Some false
  else if (n =? 775)%N then Some false
  else None.

Definition lower_char (n : N) : option (list N) :=
  if (n <? 256)%N then Some [ord (PyStr.lower_char (ascii_of_N n))]
  else if (n =? 304)%N then Some [105%N; 775%N]
  else if (n =? 775)%N then Some [775%N]
  else None.

Definition underscore : N := 95.

Fixpoint re_sub_non_word (name : list N) : option (list N) :=
  match name with
  | [] => Some []
  | c :: s =>
      match is_word c, re_sub_non_word s with
      | Some w, Some r => Some ((if w then c else underscore) :: r)
      | _, _ => None
      end
  end.

Fixpoint lower (s : list N) : option (list N) :=
  match s with
  | [] => Some []
  | c :: s' =>
      match lower_char c, lower s' with
      | Some l, Some r => Some (l ++ r)
      | _, _ => None
      end
  end.

Definition sanitize_table_name (name : list N) : option (result (list N)) :=
  match re_sub_non_word name with
  | None => None
  | Some substituted =>
      match lower substituted with
      | None => None
      | Some [] => Some (Raise (IndexError "string index out of range"))
      | Some (c :: s) =>
          match isdigit c with
          | None => None
          | Some true => Some (Ok (code_points "t_" ++ c :: s))
          | Some false => Some (Ok (c :: s))
          end
      end
  end.

Definition sanitize_column_name (name : list N) : option (result (list N)) :=
  match re_sub_non_word name with
  | None => None
  | Some substituted =>
      match lower substituted with
      | None => None
      | Some [] => Some (Raise (IndexError "string index out of range"))
      | Some (c :: s) =>
          match isdigit c with
          | None => None
          | Some true => Some (Ok (code_points "c_" ++ c :: s))
          | Some false => Some (Ok (c :: s))
          end
      end
  end.

End Wide.

(** The code points of a returned name. *)
Definition result_code_points (r : result string) : result (list N) :=
  match r with
  | Ok name => Ok (code_points name)
  | Raise e => Raise e
  end.

(** ** The schema description *)

Record Attribute := {
  attr_name : string;
  attr_type : string;
  is_primary_key : option bool;
  is_nullable : option bool
}.

Record Entity := {
  entity_name : string;
  attributes : list Attribute
}.

Record Relationship := {
  rel_type : option string;
  entity1 : option string;
  entity2 : option string;
  rel_attributes : option (list Attribute)
}.

Record SchemaDescription := {
  entities : option (list Entity);
  relationships : option (list Relationship)
}.

(** ** [NLToSQLConverter] *)

Module NLToSQLConverter.

Record t := { db_engine : option string }.

(** The body of the loop over the attributes: the state is
    [(columns, primary_keys)]. *)
Definition attribute_loop_body (acc : list string * list string)
  (attr : Attribute) : list string * list string :=
  let '(columns, primary_keys) := acc in
  let column_def := "    " ^^ attr_name attr ^^ " " ^^ attr_type attr in
  let column_def :=
    if negb (dict_get (is_nullable attr) true)
    then column_def ^^ " NOT NULL" else column_def in
  let primary_keys :=
    if dict_get (is_primary_key attr) false
    then primary_keys ++ [attr_name attr] else primary_keys in
  (columns ++ [column_def], primary_keys).

(** The list [columns] when the statement is assembled. *)
Definition create_table_columns (self : t) (entity : Entity) : list string :=
  let '(columns, primary_keys) :=
    fold_left attribute_loop_body (attributes entity) ([], []) in
  match primary_keys with
  | [] => columns
  | _ :: _ =>
      let pk_constraint :=
        "    PRIMARY KEY (" ^^ join ", " primary_keys ^^ ")" in
      columns ++ [pk_constraint]
  end.

Definition _generate_create_table (self : t) (entity : Entity) : string :=
  let table_name := entity_name entity in
  let create_statement := "CREATE TABLE " ^^ table_name ^^ " (" ^^ LF in
  let columns := create_table_columns self entity in
  let create_statement := create_statement ^^ join ("," ^^ LF) columns in
  let create_statement := create_statement ^^ LF ^^ ");" ^^ LF ^^ LF in
  create_statement.

Definition _generate_relationship (self : t) (relationship : Relationship)
  : string :=
  let rel_type := dict_get (rel_type relationship) "" in
  let entity1 := dict_get (entity1 relationship) "" in
  let entity2 := dict_get (entity2 relationship) "" in
  if rel_type =? "many_to_many" then
    let table_name := entity1 ^^ "_" ^^ entity2 in
    let sql := "CREATE TABLE " ^^ table_name ^^ " (" ^^ LF in
    let sql := sql ^^ "    " ^^ entity1 ^^ "_id INTEGER NOT NULL," ^^ LF in
    let sql := sql ^^ "    " ^^ entity2 ^^ "_id INTEGER NOT NULL," ^^ LF in
    let sql := sql ^^ "    PRIMARY KEY (" ^^ entity1 ^^ "_id, "
                   ^^ entity2 ^^ "_id)," ^^ LF in
    let sql := sql ^^ "    FOREIGN KEY (" ^^ entity1 ^^ "_id) REFERENCES "
                   ^^ entity1 ^^ " (id)," ^^ LF in
    let sql := sql ^^ "    FOREIGN KEY (" ^^ entity2 ^^ "_id) REFERENCES "
                   ^^ entity2 ^^ " (id)" ^^ LF in
    let sql := sql ^^ ");" ^^ LF ^^ LF in
    sql
  else if existsb (String.eqb rel_type) ["one_to_many"; "one_to_one"] then
    ""
  else "".

Definition generate_sql (self : t) (entities_data : SchemaDescription)
  : string :=
  let sql_code := "" in
  let sql_code :=
    fold_left (fun sql_code entity =>
                 sql_code ^^ _generate_create_table self entity)
      (dict_get (entities entities_data) []) sql_code in
  let sql_code :=
    fold_left (fun sql_code relationship =>
                 sql_code ^^ _generate_relationship self relationship)
      (dict_get (relationships entities_data) []) sql_code in
  sql_code.

End NLToSQLConverter.

(** ** [ERToSQLConverter] *)

Module ERToSQLConverter.

Record t := { db_engine : option string }.

Definition attribute_loop_body (acc : list string * list string)
  (attr : Attribute) : list string * list string :=
  let '(columns, primary_keys) := acc in
  let column_def := "    " ^^ attr_name attr ^^ " " ^^ attr_type attr in
  let column_def :=
    if negb (dict_get (is_nullable attr) true)
    then column_def ^^ " NOT NULL" else column_def in
  let primary_keys :=
    if dict_get (is_primary_key attr) false
    then primary_keys ++ [attr_name attr] else primary_keys in
  (columns ++ [column_def], primary_keys).

Definition create_table_columns (self : t) (entity : Entity) : list string :=
  let '(columns, primary_keys) :=
    fold_left attribute_loop_body (attributes entity) ([], []) in
  match primary_keys with
  | [] => columns
  | _ :: _ =>
      let pk_constraint :=
        "    PRIMARY KEY (" ^^ join ", " primary_keys ^^ ")" in
      columns ++ [pk_constraint]
  end.

Definition _generate_create_table (self : t) (entity : Entity) : string :=
  let table_name := entity_name entity in
  let create_statement := "CREATE TABLE " ^^ table_name ^^ " (" ^^ LF in
  let columns := create_table_columns self entity in
  let create_statement := create_statement ^^ join ("," ^^ LF) columns in
  let create_statement := create_statement ^^ LF ^^ ");" ^^ LF ^^ LF in
  create_statement.

Definition _generate_relationship (self : t) (relationship : Relationship)
  : string :=
  let rel_type := dict_get (rel_type relationship) "" in
  let entity1 := dict_get (entity1 relationship) "" in
  let entity2 := dict_get (entity2 relationship) "" in
  if rel_type =? "many_to_many" then
    let table_name := entity1 ^^ "_" ^^ entity2 in
    let sql := "CREATE TABLE " ^^ table_name ^^ " (" ^^ LF in
    let sql := sql ^^ "    " ^^ entity1 ^^ "_id INTEGER NOT NULL," ^^ LF in
    let sql := sql ^^ "    " ^^ entity2 ^^ "_id INTEGER NOT NULL," ^^ LF in
    let sql := sql ^^ "    PRIMARY KEY (" ^^ entity1 ^^ "_id, "
                   ^^ entity2 ^^ "_id)," ^^ LF in
    let sql := sql ^^ "    FOREIGN KEY (" ^^ entity1 ^^ "_id) REFERENCES "
                   ^^ entity1 ^^ " (id)," ^^ LF in
    let sql := sql ^^ "    FOREIGN KEY (" ^^ entity2 ^^ "_id) REFERENCES "
                   ^^ entity2 ^^ " (id)" ^^ LF in
    let sql := sql ^^ ");" ^^ LF ^^ LF in
    sql
  else if rel_type =? "many_to_one" then
    let sql := "-- Add foreign key to implement " ^^ entity1 ^^ " to "
               ^^ entity2 ^^ " relationship" ^^ LF in
    let sql := sql ^^ "ALTER TABLE " ^^ entity1 ^^ " ADD COLUMN "
                   ^^ entity2 ^^ "_id INTEGER;" ^^ LF in
    let sql := sql ^^ "ALTER TABLE " ^^ entity1 ^^ " ADD FOREIGN KEY ("
                   ^^ entity2 ^^ "_id) REFERENCES " ^^ entity2 ^^ " (id);"
                   ^^ LF ^^ LF in
    sql
  else if rel_type =? "one_to_one" then
    let sql :=
      "-- Add foreign key with unique constraint for one-to-one relationship"
      ^^ LF in
    let sql := sql ^^ "ALTER TABLE " ^^ entity1 ^^ " ADD COLUMN "
                   ^^ entity2 ^^ "_id INTEGER UNIQUE;" ^^ LF in
    let sql := sql ^^ "ALTER TABLE " ^^ entity1 ^^ " ADD FOREIGN KEY ("
                   ^^ entity2 ^^ "_id) REFERENCES " ^^ entity2 ^^ " (id);"
                   ^^ LF ^^ LF in
    sql
  else "".

Definition _generate_sql (self : t) (schema_data : SchemaDescription)
  : string :=
  let sql_code := "-- SQL Generated from ER Diagram" ^^ LF ^^ LF in
  let sql_code :=
    fold_left (fun sql_code entity =>
                 sql_code ^^ _generate_create_table self entity)
      (dict_get (entities schema_data) []) sql_code in
  let sql_code :=
    fold_left (fun sql_code relationship =>
                 sql_code ^^ _generate_relationship self relationship)
      (dict_get (relationships schema_data) []) sql_code in
  sql_code.

End ERToSQLConverter.

(** ** The SQLite engine and the world of the executor *)

(** What [sqlite3], [tempfile] and the file system do is not in the
    repository: they are the operations of an [Engine], each a function of
    the world that returns the new world and either a value or the
    exception raised. *)
Class Engine := {
  World : Type;
  Connection : Type;
  Cursor : Type;
  TempFile : Type;
  Row : Type;
  (** [tempfile.NamedTemporaryFile(delete=False, suffix='.db')] *)
  NamedTemporaryFile : World -> World * result TempFile;
  (** [temp_db_file.name] *)
  temp_file_name : TempFile -> string;
  (** [sqlite3.connect(database)] *)
  sqlite3_connect : string -> World -> World * result Connection;
  (** [connection.execute(sql)] *)
  connection_execute : Connection -> string -> World -> World * result unit;
  (** [connection.cursor()]; it raises on a connection that cannot be
      used, such as a closed one *)
  connection_cursor : Connection -> World -> World * result Cursor;
  (** [cursor.execute(stmt)] *)
  cursor_execute : Cursor -> string -> World -> World * result unit;
  (** the column names of [cursor.description], [None] when there is no
      result set *)
  cursor_description : Cursor -> World -> option (list string);
  (** [cursor.fetchall()] *)
  cursor_fetchall : Cursor -> World -> World * result (list Row);
  (** [connection.commit()] *)
  connection_commit : Connection -> World -> World * result unit
}.

(** The calls the executor makes to the engine, in the order made. *)
Inductive event : Type :=
| EvNamedTemporaryFile
| EvConnect (database : string)
| EvConnectionExecute (sql : string)
| EvExecute (stmt : string)
| EvFetchall
| EvCommit.

(** The statements given to [cursor.execute] in a trace, in order. *)
Fixpoint executed_statements (tr : list event) : list string :=
  match tr with
  | [] => []
  | EvExecute stmt :: tr' => stmt :: executed_statements tr'
  | _ :: tr' => executed_statements tr'
  end.

(** The number of calls of [connection.commit] in a trace. *)
Fixpoint commit_count (tr : list event) : nat :=
  match tr with
  | [] => 0
  | EvCommit :: tr' => S (commit_count tr')
  | _ :: tr' => commit_count tr'
  end.

Section Executor.

Context {engine : Engine}.

(** The instance: [self.db_engine], [self.db_connection],
    [self.temp_db_file]. *)
Record SQLExecutor := {
  db_engine : option string;
  db_connection : option Connection;
  temp_db_file : option TempFile
}.

(** [SQLExecutor(db_engine)]. *)
Definition __init__ (db_engine : option string) : SQLExecutor :=
  {| db_engine := db_engine; db_connection := None; temp_db_file := None |}.

(** The instance, the world, the calls made so far and what was
    printed. *)
Record Store := {
  self : SQLExecutor;
  world : World;
  trace : list event;
  stdout : list string
}.

(** A method: it reads and updates the store and returns or raises. *)
Definition M (A : Type) : Type := Store -> Store * result A.

Definition ret {A : Type} (a : A) : M A := fun s => (s, Ok a).

Definition raise {A : Type} (e : exception) : M A := fun s => (s, Raise e).

Definition bind {A B : Type} (m : M A) (k : A -> M B) : M B :=
  fun s =>
    match m s with
    | (s', Ok a) => k a s'
    | (s', Raise e) => (s', Raise e)
    end.

(** [try: m  except Exception as e: handler e]. *)
Definition try_except {A : Type} (m : M A) (handler : exception -> M A)
  : M A :=
  fun s =>
    match m s with
    | (s', Ok a) => (s', Ok a)
    | (s', Raise e) => handler e s'
    end.

Definition get_self : M SQLExecutor := fun s => (s, Ok (self s)).

Definition set_db_connection (c : option Connection) : M unit :=
  fun s =>
    ({| self := {| db_engine := db_engine (self s);
                   db_connection := c;
                   temp_db_file := temp_db_file (self s) |};
        world := world s; trace := trace s; stdout := stdout s |}, Ok tt).

Definition set_temp_db_file (f : option TempFile) : M unit :=
  fun s =>
    ({| self := {| db_engine := db_engine (self s);
                   db_connection := db_connection (self s);
                   temp_db_file := f |};
        world := world s; trace := trace s; stdout := stdout s |}, Ok tt).

(** [print(line)]. *)
Definition print (line : string) : M unit :=
  fun s =>
    ({| self := self s; world := world s; trace := trace s;
        stdout := stdout s ++ [line] |}, Ok tt).

(** A call to the engine, recorded in the trace. *)
Definition call {A : Type} (ev : event) (op : World -> World * result A)
  : M A :=
  fun s =>
    let '(w, r) := op (world s) in
    ({| self := self s; world := w; trace := trace s ++ [ev];
        stdout := stdout s |}, r).

(** A call that changes the world and is no [event] of the trace (the
    trace holds the calls on the connection and its cursor that open,
    run and commit). *)
Definition effect {A : Type} (op : World -> World * result A) : M A :=
  fun s =>
    let '(w, r) := op (world s) in
    ({| self := self s; world := w; trace := trace s;
        stdout := stdout s |}, r).

End Executor.

Declare Scope py_scope.
Delimit Scope py_scope with py.
Notation "x <- m ;; k" := (bind m (fun x => k))
  (at level 100, m at next level, right associativity) : py_scope.
Notation "m ;; k" := (bind m (fun _ => k))
  (at level 100, right associativity) : py_scope.
Open Scope py_scope.

(** ** [SQLExecutor] *)

(** One entry of [results]. *)
Record ResultSet {engine : Engine} := {
  columns : list string;
  rows : list Row
}.

(** The dictionary [execute] returns; the key [results] is present on
    success only. *)
Record ExecutionResult {engine : Engine} := {
  success : bool;
  message : string;
  log : string;
  results : option (list ResultSet)
}.

Section SQLExecutorMethods.

Context {engine : Engine}.

(** [db_name] as a condition: [None] and the empty string are false. *)
Definition truthy (db_name : option string) : bool :=
  match db_name with
  | None => false
  | Some s => negb (is_empty s)
  end.

(** [f"{db_engine}"]. *)
Definition format_engine (db_engine : option string) : string :=
  match db_engine with None => "None" | Some s => s end.

Definition is_sqlite (db_engine : option string) : bool :=
  match db_engine with None => false | Some s => s =? "sqlite" end.

Definition connect (db_name : option string) : M bool :=
  try_except
    (self <- get_self ;;
     if is_sqlite (db_engine self) then
       conn <- (if truthy db_name then
                  call (EvConnect (dict_get db_name ""))
                    (sqlite3_connect (dict_get db_name ""))
                else
                  f <- call EvNamedTemporaryFile NamedTemporaryFile ;;
                  set_temp_db_file (Some f) ;;
                  call (EvConnect (temp_file_name f))
                    (sqlite3_connect (temp_file_name f))) ;;
       set_db_connection (Some conn) ;;
       call (EvConnectionExecute "PRAGMA foreign_keys = ON")
         (connection_execute conn "PRAGMA foreign_keys = ON") ;;
       ret true
     else
       raise (NotImplementedError
                ("Database engine " ^^ format_engine (db_engine self)
                 ^^ " not implemented yet")))
    (fun e =>
       print ("Error connecting to database: " ^^ str e) ;;
       ret false).

(** [stmt.strip().upper().startswith("SELECT")]. *)
Definition is_select (stmt : string) : bool :=
  starts_with (code_points "SELECT") (upper (strip stmt)).

(** [f"{stmt[:50]}{'...' if len(stmt) > 50 else ''}"]. *)
Definition shorten (stmt : string) : string :=
  slice_to 50 stmt ^^ (if (50 <? String.length stmt)%nat then "..." else "").

(** What the loop over the statements hands back: the dictionary of an
    early [return], or [results] and [log] after the last statement. *)
Inductive loop_exit : Type :=
| Returned (r : ExecutionResult)
| Completed (results : list ResultSet) (log : list string).

(** The body of the inner [try] for one statement. *)
Definition try_statement (cursor : Cursor) (stmt : string)
  (results : list ResultSet) (log : list string) : M loop_exit :=
  call (EvExecute stmt) (cursor_execute cursor stmt) ;;
  if is_select stmt then
    columns <- (fun s =>
                  match cursor_description cursor (world s) with
                  | Some names => (s, Ok names)
                  | None =>
                      (s, Raise (TypeError
                                   "'NoneType' object is not iterable"))
                  end) ;;
    rows <- call EvFetchall (cursor_fetchall cursor) ;;
    let results := results ++ [{| columns := columns; rows := rows |}] in
    let log := log ++ ["Successfully executed: " ^^ shorten stmt] in
    let log := log ++ ["Retrieved " ^^ str_of_nat (List.length rows)
                       ^^ " rows"] in
    ret (Completed results log)
  else
    let log := log ++ ["Successfully executed: " ^^ shorten stmt] in
    ret (Completed results log).

(** The handler of the inner [try]. *)
Definition except_statement (stmt : string) (log : list string)
  (e : exception) : M loop_exit :=
  let log := log ++ ["Error executing statement: " ^^ shorten stmt] in
  let log := log ++ ["Error message: " ^^ str e] in
  ret (Returned {| success := false; message := str e;
                   log := join LF log; results := None |}).

(** [for stmt in statements: ...]. *)
Fixpoint execute_loop (cursor : Cursor) (statements : list string)
  (results : list ResultSet) (log : list string) : M loop_exit :=
  match statements with
  | [] => ret (Completed results log)
  | stmt :: statements' =>
      if is_empty (strip stmt) then
        execute_loop cursor statements' results log
      else
        r <- try_except (try_statement cursor stmt results log)
               (except_statement stmt log) ;;
        match r with
        | Returned d => ret (Returned d)
        | Completed results log =>
            execute_loop cursor statements' results log
        end
  end.

(** [execute].  The cursor is made before the outer [try]: what
    [db_connection.cursor()] raises leaves the method.  In the outer [try]
    neither the splitter nor the loop raises: its handler is reached from
    [commit] only, with the log as the loop left it. *)
Definition execute (sql_code : string) : M ExecutionResult :=
  self <- get_self ;;
  connected <- match db_connection self with
               | None => connect None
               | Some _ => ret true
               end ;;
  if negb connected then
    ret {| success := false; message := "Failed to connect to database";
           log := ""; results := None |}
  else
    self <- get_self ;;
    match db_connection self with
    | None =>
        raise (AttributeError
                 "'NoneType' object has no attribute 'cursor'")
    | Some connection =>
        cursor <- effect (connection_cursor connection) ;;
        let statements := _split_sql_statements sql_code in
        r <- execute_loop cursor statements [] [] ;;
        match r with
        | Returned d => ret d
        | Completed results log =>
            try_except
              (call EvCommit (connection_commit connection) ;;
               ret {| success := true;
                      message := "SQL execution completed successfully";
                      log := join LF log;
                      results := Some results |})
              (fun e =>
                 ret {| success := false; message := str e;
                        log := join LF log; results := None |})
        end
    end.

End SQLExecutorMethods.

(** ** [backend/app.py]: the route [/api/execute-sql] *)

Record SQLRequest := {
  sql_code : string;
  request_db_engine : option string
}.

Record SQLResponse {engine : Engine} := {
  response_sql_code : string;
  execution_log : option string;
  error : option string;
  response_results : option (list ResultSet)
}.

(** What the route gives the framework: a response, or the
    [HTTPException] it raises. *)
Inductive reply {engine : Engine} : Type :=
| Response (r : SQLResponse)
| HTTPException (status_code : nat) (detail : string).

Section App.

Context {engine : Engine}.

(** The store of a fresh request: a new executor, nothing called and
    nothing printed yet. *)
Definition fresh_store (db_engine : option string) (w : World) : Store :=
  {| self := __init__ db_engine; world := w; trace := []; stdout := [] |}.

Definition execute_sql (request : SQLRequest) (w : World) : Store * reply :=
  match execute (sql_code request)
          (fresh_store (request_db_engine request) w) with
  | (s, Ok result) =>
      if success result then
        (s, Response {| response_sql_code := sql_code request;
                        execution_log := Some (log result);
                        error := None;
                        response_results :=
                          Some (dict_get (results result) []) |})
      else
        (s, Response {| response_sql_code := sql_code request;
                        execution_log := Some (log result);
                        error := Some (message result);
                        response_results := None |})
  | (s, Raise e) => (s, HTTPException 500 (str e))
  end.

End App.


(** ** Predicates of the specification *)

Definition first_char (s : string) : option ascii :=
  match s with
  | EmptyString => None
  | String c _ => Some c
  end.

Fixpoint last_char (s : string) : option ascii :=
  match s with
  | EmptyString => None
  | String c s' =>
      match last_char s' with
      | None => Some c
      | Some d => Some d
      end
  end.

(** No leading and no trailing whitespace. *)
Definition trimmed (s : string) : Prop :=
  (forall c, first_char s = Some c -> isspace c = false) /\
  (forall c, last_char s = Some c -> isspace c = false).

(** Every character of [s] satisfies [p]. *)
Fixpoint all_chars (p : ascii -> bool) (s : string) : bool :=
  match s with
  | EmptyString => true
  | String c s' => p c && all_chars p s'
  end.

(** What the specification says of a statement the splitter returns. *)
Definition clean_statement (s : string) : Prop :=
  s <> "" /\ trimmed s /\ ~ occurs newline s.

(** The guard [if not stmt.strip(): continue] of [execute] skips [stmt]. *)
Definition guard_skips (stmt : string) : bool := is_empty (strip stmt).

(** The value of [current_statement] when the kept lines since the last
    flush are [buffer]: each line preceded by one space. *)
Fixpoint prefix_join (buffer : list string) : string :=
  match buffer with
  | [] => ""
  | line :: buffer' => " " ^^ line ^^ prefix_join buffer'
  end.

(** The end of [_split_sql_statements], after the loop. *)
Definition flush_remainder (st : list string * string) : list string :=
  let '(statements, current_statement) := st in
  if is_empty (strip current_statement) then statements
  else statements ++ [strip current_statement].

(** What [sanitize_table_name] and [sanitize_column_name] promise of the
    name they return. *)
Definition lowercase (s : string) : Prop :=
  lower s = s /\ all_chars (fun c => negb (isupper c)) s = true.

Definition sanitized (s : string) : Prop :=
  s <> "" /\ lowercase s /\ all_chars is_word s = true /\
  (forall c, first_char s = Some c -> isdigit c = false).

(** A script of three lines and one of two, the second statement of which
    spans two lines. *)
Definition three_line_script : string :=
  "SELECT 1;" ^^ LF ^^ "-- comment" ^^ LF ^^ "SELECT 2;".

Definition two_statement_script : string :=
  "  SELECT 1;  " ^^ LF ^^ "SELECT" ^^ LF ^^ "   2".

(** ** The DDL the specification describes *)

(** [attr] is marked primary key; [attr] is declared not nullable. *)
Definition marked_primary_key (attr : Attribute) : bool :=
  dict_get (is_primary_key attr) false.

Definition not_nullable (attr : Attribute) : bool :=
  match is_nullable attr with
  | Some false => true
  | _ => false
  end.

(** The column clause of an attribute: name, type, and [NOT NULL] exactly
    when [is_nullable] is false. *)
Definition column_clause (attr : Attribute) : string :=
  "    " ^^ attr_name attr ^^ " " ^^ attr_type attr
  ^^ (if not_nullable attr then " NOT NULL" else "").

(** The names of the primary-key attributes, in attribute order. *)
Definition primary_key_names (attrs : list Attribute) : list string :=
  map attr_name (filter marked_primary_key attrs).

Definition primary_key_clause (names : list string) : string :=
  "    PRIMARY KEY (" ^^ join ", " names ^^ ")".

(** A [CREATE TABLE] statement with the given clauses, one per line,
    separated by commas. *)
Definition create_table_statement (table_name : string)
  (clauses : list string) : string :=
  "CREATE TABLE " ^^ table_name ^^ " (" ^^ LF
  ^^ join ("," ^^ LF) clauses ^^ LF ^^ ");" ^^ LF ^^ LF.

(** The clauses of the statement: one per attribute, then the primary-key
    clause when some attribute is marked. *)
Definition expected_clauses (attrs : list Attribute) : list string :=
  map column_clause attrs ++
  (if existsb marked_primary_key attrs
   then [primary_key_clause (primary_key_names attrs)] else []).

(** The clauses of the junction table of a many-to-many relationship. *)
Definition junction_column (entity : string) : string :=
  "    " ^^ entity ^^ "_id INTEGER NOT NULL".

Definition junction_primary_key (entity1 entity2 : string) : string :=
  "    PRIMARY KEY (" ^^ entity1 ^^ "_id, " ^^ entity2 ^^ "_id)".

Definition junction_foreign_key (entity : string) : string :=
  "    FOREIGN KEY (" ^^ entity ^^ "_id) REFERENCES " ^^ entity ^^ " (id)".

Definition junction_table (entity1 entity2 : string) : string :=
  create_table_statement (entity1 ^^ "_" ^^ entity2)
    [junction_column entity1; junction_column entity2;
     junction_primary_key entity1 entity2;
     junction_foreign_key entity1; junction_foreign_key entity2].

(** The two statements of a one-to-one relationship. *)
Definition add_unique_column (entity1 entity2 : string) : string :=
  "ALTER TABLE " ^^ entity1 ^^ " ADD COLUMN " ^^ entity2
  ^^ "_id INTEGER UNIQUE;" ^^ LF.

Definition add_foreign_key (entity1 entity2 : string) : string :=
  "ALTER TABLE " ^^ entity1 ^^ " ADD FOREIGN KEY (" ^^ entity2
  ^^ "_id) REFERENCES " ^^ entity2 ^^ " (id);" ^^ LF.

Definition one_to_one_comment : string :=
  "-- Add foreign key with unique constraint for one-to-one relationship"
  ^^ LF.

(** Sample data. *)
Definition users_entity : Entity :=
  {| entity_name := "users";
     attributes :=
       [ {| attr_name := "id"; attr_type := "INTEGER";
            is_primary_key := Some true; is_nullable := Some false |};
         {| attr_name := "username"; attr_type := "TEXT";
            is_primary_key := Some false; is_nullable := Some false |};
         {| attr_name := "bio"; attr_type := "TEXT";
            is_primary_key := None; is_nullable := None |} ] |}.

Definition sample_relationship (type : string) : Relationship :=
  {| rel_type := Some type; entity1 := Some "user";
     entity2 := Some "profile"; rel_attributes := Some [] |}.

Definition sample_schema : SchemaDescription :=
  {| entities := Some [users_entity];
     relationships := Some [sample_relationship "many_to_many"] |}.

Definition nl_converter : NLToSQLConverter.t :=
  {| NLToSQLConverter.db_engine := Some "sqlite" |}.

Definition er_converter : ERToSQLConverter.t :=
  {| ERToSQLConverter.db_engine := Some "mysql" |}.

(** ** What the specification says of [execute] *)

Section ExecutionSpec.

Context {engine : Engine}.

(** The store after the engine calls [evs] have led to the world [w]. *)
Definition advance (s : Store) (w : World) (evs : list event) : Store :=
  {| self := self s; world := w; trace := trace s ++ evs;
     stdout := stdout s |}.

(** The store after a call that is no event has led to the world [w]. *)
Definition with_world (s : Store) (w : World) : Store :=
  {| self := self s; world := w; trace := trace s; stdout := stdout s |}.

(** The first step of [execute]: connect unless a connection exists. *)
Definition connection_step : M bool :=
  self <- get_self ;;
  match db_connection self with
  | None => connect None
  | Some _ => ret true
  end.

Definition success_line (stmt : string) : string :=
  "Successfully executed: " ^^ shorten stmt.

Definition retrieved_line (rows : list Row) : string :=
  "Retrieved " ^^ str_of_nat (List.length rows) ^^ " rows".

Definition error_lines (stmt : string) (e : exception) : list string :=
  ["Error executing statement: " ^^ shorten stmt;
   "Error message: " ^^ str e].

(** [stmt] succeeds on the cursor in the world [w]: the world it leaves,
    the result sets and the log lines it adds, the engine calls made. *)
Inductive statement_succeeds (cursor : Cursor) (stmt : string)
  (w : World) : World -> list ResultSet -> list string -> list event -> Prop :=
| succeeds_plain (w1 : World) :
    cursor_execute cursor stmt w = (w1, Ok tt) ->
    is_select stmt = false ->
    statement_succeeds cursor stmt w w1 [] [success_line stmt]
      [EvExecute stmt]
| succeeds_select (w1 w2 : World) (names : list string) (fetched : list Row) :
    cursor_execute cursor stmt w = (w1, Ok tt) ->
    is_select stmt = true ->
    cursor_description cursor w1 = Some names ->
    cursor_fetchall cursor w1 = (w2, Ok fetched) ->
    statement_succeeds cursor stmt w w2
      [{| columns := names; rows := fetched |}]
      [success_line stmt; retrieved_line fetched]
      [EvExecute stmt; EvFetchall].

(** [stmt] raises [e] on the cursor in the world [w]: in
    [cursor.execute], while reading the description, or in
    [cursor.fetchall]. *)
Inductive statement_raises (cursor : Cursor) (stmt : string)
  (w : World) : World -> exception -> list event -> Prop :=
| raises_execute (w1 : World) (e : exception) :
    cursor_execute cursor stmt w = (w1, Raise e) ->
    statement_raises cursor stmt w w1 e [EvExecute stmt]
| raises_description (w1 : World) :
    cursor_execute cursor stmt w = (w1, Ok tt) ->
    is_select stmt = true ->
    cursor_description cursor w1 = None ->
    statement_raises cursor stmt w w1
      (TypeError "'NoneType' object is not iterable") [EvExecute stmt]
| raises_fetchall (w1 w2 : World) (names : list string) (e : exception) :
    cursor_execute cursor stmt w = (w1, Ok tt) ->
    is_select stmt = true ->
    cursor_description cursor w1 = Some names ->
    cursor_fetchall cursor w1 = (w2, Raise e) ->
    statement_raises cursor stmt w w2 e [EvExecute stmt; EvFetchall].

(** The statements succeed one after the other, in order. *)
Inductive all_succeed (cursor : Cursor)
  : list string -> World -> World -> list ResultSet -> list string
    -> list event -> Prop :=
| all_succeed_nil (w : World) : all_succeed cursor [] w w [] [] []
| all_succeed_cons (stmt : string) (rest : list string) (w w1 w2 : World)
    (rs RS : list ResultSet) (lg LG : list string) (evs EVS : list event) :
    statement_succeeds cursor stmt w w1 rs lg evs ->
    all_succeed cursor rest w1 w2 RS LG EVS ->
    all_succeed cursor (stmt :: rest) w w2 (rs ++ RS) (lg ++ LG)
      (evs ++ EVS).

End ExecutionSpec.

(** ** A small engine *)

(** An engine with one deferred foreign key and one [NOT NULL] column: an
    insertion into [child] succeeds and leaves a violation pending until
    [commit], which raises while one is pending; an insertion of [NULL]
    into [users] raises at once; every other statement succeeds, and a
    [SELECT] returns one row of one column. *)
Record DemoWorld := {
  pending_violations : nat;
  last_was_select : bool
}.

Definition IntegrityError (msg : string) : exception :=
  mk_exception "IntegrityError" msg.

Definition demo_execute (stmt : string) (w : DemoWorld)
  : DemoWorld * result unit :=
  if startswith "INSERT INTO child" stmt then
    ({| pending_violations := S (pending_violations w);
        last_was_select := false |}, Ok tt)
  else if startswith "INSERT INTO users VALUES (NULL" stmt then
    (w, Raise (IntegrityError "NOT NULL constraint failed: users.name"))
  else
    ({| pending_violations := pending_violations w;
        last_was_select := is_select stmt |}, Ok tt).

Definition demo_commit (w : DemoWorld) : DemoWorld * result unit :=
  match pending_violations w with
  | O => (w, Ok tt)
  | S _ =>
      ({| pending_violations := 0; last_was_select := last_was_select w |},
       Raise (IntegrityError "FOREIGN KEY constraint failed"))
  end.

Definition demo_engine : Engine :=
  {| World := DemoWorld;
     Connection := unit;
     Cursor := unit;
     TempFile := string;
     Row := list string;
     NamedTemporaryFile := fun w => (w, Ok "/tmp/tmpq1w2e3.db");
     temp_file_name := fun f => f;
     sqlite3_connect := fun _ w => (w, Ok tt);
     connection_execute := fun _ _ w => (w, Ok tt);
     connection_cursor := fun _ w => (w, Ok tt);
     cursor_execute := fun _ stmt w => demo_execute stmt w;
     cursor_description :=
       fun _ w => if last_was_select w then Some ["1"] else None;
     cursor_fetchall := fun _ w => (w, Ok [["1"]]);
     connection_commit := fun _ w => demo_commit w |}.

Definition demo_world : DemoWorld :=
  {| pending_violations := 0; last_was_select := false |}.

(** Three statements that succeed, the last of which violates a deferred
    foreign key. *)
Definition deferred_fk_script : string :=
  "CREATE TABLE parent (id INTEGER PRIMARY KEY);" ^^ LF
  ^^ "CREATE TABLE child (pid INTEGER REFERENCES parent (id)" ^^ LF
  ^^ "  DEFERRABLE INITIALLY DEFERRED);" ^^ LF
  ^^ "INSERT INTO child VALUES (1);".

(** A statement that raises between two that would succeed. *)
Definition not_null_script : string :=
  "CREATE TABLE users (name TEXT NOT NULL);" ^^ LF
  ^^ "INSERT INTO users VALUES (NULL);" ^^ LF
  ^^ "SELECT 1;".

Section ConnectionSpec.

Context {engine : Engine}.

(** The store after [line] was printed. *)
Definition printed (s : Store) (line : string) : Store :=
  {| self := self s; world := world s; trace := trace s;
     stdout := stdout s ++ [line] |}.

(** The message of the [NotImplementedError] of [connect]. *)
Definition not_implemented_message (db_engine : option string) : string :=
  "Database engine " ^^ format_engine db_engine ^^ " not implemented yet".

(** The dictionary [execute] returns when it could not connect. *)
Definition failed_to_connect : ExecutionResult :=
  {| success := false; message := "Failed to connect to database";
     log := ""; results := None |}.

End ConnectionSpec.

(** A fresh executor on the small engine, and its store once [execute]
    has connected it to a temporary database. *)
Definition demo_store : @Store demo_engine :=
  @fresh_store demo_engine (Some "sqlite") demo_world.

Definition demo_connected : @Store demo_engine :=
  @Build_Store demo_engine
    (@Build_SQLExecutor demo_engine
       (Some "sqlite") (Some tt) (Some "/tmp/tmpq1w2e3.db"))
    demo_world
    [EvNamedTemporaryFile; EvConnect "/tmp/tmpq1w2e3.db";
     EvConnectionExecute "PRAGMA foreign_keys = ON"]
    [].

Definition mysql_request : SQLRequest :=
  {| sql_code := "SELECT 1;"; request_db_engine := Some "mysql" |}.

Definition sqlite_request : SQLRequest :=
  {| sql_code := "SELECT 1;"; request_db_engine := Some "sqlite" |}.

(** A connection just opened gives a cursor: [cursor()] returns on a
    connection that [sqlite3.connect] has returned and on which the
    [PRAGMA] of [connect] has run. *)
Definition fresh_connection_usable {engine : Engine} : Prop :=
  forall (name : string) (w0 w1 : World) (c : Connection) (w2 : World)
         (u : unit),
    sqlite3_connect name w0 = (w1, Ok c) ->
    connection_execute c "PRAGMA foreign_keys = ON" w1 = (w2, Ok u) ->
    exists w3 cursor, connection_cursor c w2 = (w3, Ok cursor).

(** ** Further predicates on the splitter *)

(** [line] is a comment line: it begins with two dashes or a hash. *)
Definition comment_like (line : string) : bool :=
  startswith "--" line || startswith "#" line.

(** The shape of a list of statements: each is clean and no comment, and
    each but the last ends in a semicolon. *)
Fixpoint well_split (statements : list string) : Prop :=
  match statements with
  | [] => True
  | stmt :: rest =>
      clean_statement stmt /\ comment_like stmt = false /\
      (rest = [] \/ endswith ";" stmt = true) /\ well_split rest
  end.

(** What the loop keeps of its buffer. *)
Definition buffer_ok (buffer : list string) : Prop :=
  Forall clean_statement buffer /\
  match buffer with
  | [] => True
  | first :: _ => comment_like first = false
  end.

(** Every line of the script is blank or a comment. *)
Definition only_comments (script : string) : Prop :=
  Forall (fun line => SplitterSpec.skipped (strip line) = true)
    (split newline script).

(** ** [SQLExecutor.disconnect] *)

(** What [disconnect] needs besides the engine: [connection.close()],
    [os.path.exists(path)] and [os.unlink(path)]. *)
Class Cleanup (engine : Engine) := {
  connection_close : Connection -> World -> World * result unit;
  os_path_exists : string -> World -> bool;
  os_unlink : string -> World -> World * result unit
}.

Section Disconnect.

Context {engine : Engine} {cleanup : Cleanup engine}.

Definition disconnect : M unit :=
  self <- get_self ;;
  match db_connection self with
  | Some connection =>
      effect (connection_close connection) ;;
      set_db_connection None
  | None => ret tt
  end ;;
  self <- get_self ;;
  match temp_db_file self with
  | Some f =>
      fun s =>
        if os_path_exists (temp_file_name f) (world s) then
          (effect (os_unlink (temp_file_name f)) ;;
           set_temp_db_file None) s
        else ret tt s
  | None => ret tt
  end.

End Disconnect.

(** The small engine with a [PRAGMA] that raises. *)
Definition OperationalError (msg : string) : exception :=
  mk_exception "OperationalError" msg.

Definition pragma_failing_engine : Engine :=
  {| World := DemoWorld;
     Connection := unit;
     Cursor := unit;
     TempFile := string;
     Row := list string;
     NamedTemporaryFile := fun w => (w, Ok "/tmp/tmpq1w2e3.db");
     temp_file_name := fun f => f;
     sqlite3_connect := fun _ w => (w, Ok tt);
     connection_execute :=
       fun _ _ w => (w, Raise (OperationalError "database is locked"));
     connection_cursor := fun _ w => (w, Ok tt);
     cursor_execute := fun _ stmt w => demo_execute stmt w;
     cursor_description :=
       fun _ w => if last_was_select w then Some ["1"] else None;
     cursor_fetchall := fun _ w => (w, Ok [["1"]]);
     connection_commit := fun _ w => demo_commit w |}.

(** A fresh executor on it, and its store after [connect()] on a
    temporary database. *)
Definition pragma_failing_store : @Store pragma_failing_engine :=
  @fresh_store pragma_failing_engine (Some "sqlite") demo_world.

Definition pragma_failing_connected : @Store pragma_failing_engine :=
  @Build_Store pragma_failing_engine
    (@Build_SQLExecutor pragma_failing_engine
       (Some "sqlite") (Some tt) (Some "/tmp/tmpq1w2e3.db"))
    demo_world
    [EvNamedTemporaryFile; EvConnect "/tmp/tmpq1w2e3.db";
     EvConnectionExecute "PRAGMA foreign_keys = ON"]
    ["Error connecting to database: database is locked"].

(** The small engine over a connection that has been closed: [cursor()]
    raises. *)
Definition ProgrammingError (msg : string) : exception :=
  mk_exception "ProgrammingError" msg.

Definition closed_engine : Engine :=
  {| World := DemoWorld;
     Connection := unit;
     Cursor := unit;
     TempFile := string;
     Row := list string;
     NamedTemporaryFile := fun w => (w, Ok "/tmp/tmpq1w2e3.db");
     temp_file_name := fun f => f;
     sqlite3_connect := fun _ w => (w, Ok tt);
     connection_execute := fun _ _ w => (w, Ok tt);
     connection_cursor :=
       fun _ w =>
         (w, Raise (ProgrammingError "Cannot operate on a closed database."));
     cursor_execute := fun _ stmt w => demo_execute stmt w;
     cursor_description :=
       fun _ w => if last_was_select w then Some ["1"] else None;
     cursor_fetchall := fun _ w => (w, Ok [["1"]]);
     connection_commit := fun _ w => demo_commit w |}.

(** An executor that still holds the closed connection. *)
Definition closed_store : @Store closed_engine :=
  @Build_Store closed_engine
    (@Build_SQLExecutor closed_engine (Some "sqlite") (Some tt) None)
    demo_world
    [EvConnect "app.db"; EvConnectionExecute "PRAGMA foreign_keys = ON"]
    [].

(** The small engine over a world with a file system: a temporary file
    is on disk from its creation until it is unlinked. *)
Record FsWorld := {
  database : DemoWorld;
  files : list string
}.

Definition on_database {A : Type} (op : DemoWorld -> DemoWorld * result A)
  (w : FsWorld) : FsWorld * result A :=
  let '(d, r) := op (database w) in
  ({| database := d; files := files w |}, r).

Definition fs_engine : Engine :=
  {| World := FsWorld;
     Connection := unit;
     Cursor := unit;
     TempFile := string;
     Row := list string;
     NamedTemporaryFile :=
       fun w => ({| database := database w;
                    files := "/tmp/tmpq1w2e3.db" :: files w |},
                 Ok "/tmp/tmpq1w2e3.db");
     temp_file_name := fun f => f;
     sqlite3_connect := fun _ w => (w, Ok tt);
     connection_execute := fun _ _ w => (w, Ok tt);
     connection_cursor := fun _ w => (w, Ok tt);
     cursor_execute := fun _ stmt => on_database (demo_execute stmt);
     cursor_description :=
       fun _ w => if last_was_select (database w) then Some ["1"] else None;
     cursor_fetchall := fun _ w => (w, Ok [["1"]]);
     connection_commit := fun _ => on_database demo_commit |}.

Definition fs_cleanup : Cleanup fs_engine :=
  {| connection_close := fun (_ : @Connection fs_engine) (w : FsWorld) =>
                           (w, Ok tt);
     os_path_exists := fun path (w : FsWorld) =>
                         existsb (String.eqb path) (files w);
     os_unlink := fun path (w : FsWorld) =>
                    if existsb (String.eqb path) (files w) then
                      ({| database := database w;
                          files := filter (fun p => negb (p =? path))
                                     (files w) |}, Ok tt)
                    else (w, Raise (mk_exception "FileNotFoundError" path)) |}.

Definition fs_world : FsWorld := {| database := demo_world; files := [] |}.

Definition fs_store : @Store fs_engine :=
  @fresh_store fs_engine (Some "sqlite") fs_world.

(** What [execute] returns for the two [SELECT] statements of
    [three_line_script] on the small engine. *)
Definition two_selects_result : @ExecutionResult demo_engine :=
  @Build_ExecutionResult demo_engine true
    "SQL execution completed successfully"
    (join LF ["Successfully executed: SELECT 1;"; "Retrieved 1 rows";
              "Successfully executed: SELECT 2;"; "Retrieved 1 rows"])
    (Some [@Build_ResultSet demo_engine ["1"] [["1"]];
           @Build_ResultSet demo_engine ["1"] [["1"]]]).

(** The executor on the file-system engine once connected to a temporary
    database, and once disconnected again. *)
Definition fs_connected : @Store fs_engine :=
  @Build_Store fs_engine
    (@Build_SQLExecutor fs_engine
       (Some "sqlite") (Some tt) (Some "/tmp/tmpq1w2e3.db"))
    {| database := demo_world; files := ["/tmp/tmpq1w2e3.db"] |}
    [EvNamedTemporaryFile; EvConnect "/tmp/tmpq1w2e3.db";
     EvConnectionExecute "PRAGMA foreign_keys = ON"]
    [].

Definition fs_disconnected : @Store fs_engine :=
  @Build_Store fs_engine
    (@Build_SQLExecutor fs_engine (Some "sqlite") None None)
    fs_world
    [EvNamedTemporaryFile; EvConnect "/tmp/tmpq1w2e3.db";
     EvConnectionExecute "PRAGMA foreign_keys = ON"]
    [].

(** A [close] that raises. *)
Definition close_failing_cleanup : Cleanup fs_engine :=
  {| connection_close :=
       fun (_ : @Connection fs_engine) (w : FsWorld) =>
         (w, Raise (OperationalError "unable to close"));
     os_path_exists := fun path (w : FsWorld) =>
                         existsb (String.eqb path) (files w);
     os_unlink := fun path (w : FsWorld) => (w, Ok tt) |}.

(** ** Further DDL of the specification *)

(** The statements of a many-to-one relationship in the ER-diagram
    converter. *)
Definition many_to_one_comment (entity1 entity2 : string) : string :=
  "-- Add foreign key to implement " ^^ entity1 ^^ " to " ^^ entity2
  ^^ " relationship" ^^ LF.

Definition add_column (entity1 entity2 : string) : string :=
  "ALTER TABLE " ^^ entity1 ^^ " ADD COLUMN " ^^ entity2
  ^^ "_id INTEGER;" ^^ LF.

(** The header of the ER-diagram converter. *)
Definition er_header : string :=
  "-- SQL Generated from ER Diagram" ^^ LF ^^ LF.

(** The type of a relationship, as the converters read it. *)
Definition type_of (r : Relationship) : string := dict_get (rel_type r) "".

(** ** [backend/utils/helpers.py], continued *)

(** A Python value, as far as [infer_sql_type] tells values apart: an
    [int], a [bool] (a subclass of [int]), a [float] (its 64 bits), a
    [str], [None], or any other object. *)
Inductive py_value : Type :=
| PyInt (negative : bool) (magnitude : N)
| PyBool (b : bool)
| PyFloat (bits : N)
| PyStr (s : string)
| PyNone
| PyObject.

(** [isinstance(value, int)] and the like. *)
Definition isinstance_int (value : py_value) : bool :=
  match value with PyInt _ _ | PyBool _ => true | _ => false end.

Definition isinstance_float (value : py_value) : bool :=
  match value with PyFloat _ => true | _ => false end.

Definition isinstance_bool (value : py_value) : bool :=
  match value with PyBool _ => true | _ => false end.

(** The patterns of [infer_sql_type]: a sequence of atoms, each [\d] or a
    literal character.  [\d] on a [str] is a decimal digit; below code
    point 256 these are [0] to [9]. *)
Inductive atom : Type :=
| Digit
| Literal (c : ascii).

Definition atom_matches (a : atom) (c : ascii) : bool :=
  match a with
  | Digit => ((48 <=? ord c) && (ord c <=? 57))%N
  | Literal l => Ascii.eqb l c
  end.

(** [re.match(pattern, s)] is not [None]: the pattern matches a prefix
    of [s]. *)
Fixpoint re_match (pattern : list atom) (s : string) : bool :=
  match pattern with
  | [] => true
  | a :: pattern' =>
      match s with
      | EmptyString => false
      | String c s' => atom_matches a c && re_match pattern' s'
      end
  end.

Definition digits (n : nat) : list atom := repeat Digit n.

(** [\d{4}-\d{2}-\d{2}] and [\d{4}-\d{2}-\d{2} \d{2}:\d{2}:\d{2}]. *)
Definition date_pattern : list atom :=
  digits 4 ++ [Literal "-"] ++ digits 2 ++ [Literal "-"] ++ digits 2.

Definition timestamp_pattern : list atom :=
  digits 4 ++ [Literal "-"] ++ digits 2 ++ [Literal "-"] ++ digits 2
  ++ [Literal " "] ++ digits 2 ++ [Literal ":"] ++ digits 2
  ++ [Literal ":"] ++ digits 2.

Definition infer_sql_type (sample_value : py_value) : string :=
  if isinstance_int sample_value then "INTEGER"
  else if isinstance_float sample_value then "REAL"
  else if isinstance_bool sample_value then "BOOLEAN"
  else
    match sample_value with
    | PyStr s =>
        if re_match date_pattern s then "DATE"
        else if re_match timestamp_pattern s then "TIMESTAMP"
        else "TEXT"
    | _ => "TEXT"
    end.

(** [pattern in s]. *)
Fixpoint contains (pattern s : string) : bool :=
  prefix pattern s ||
  match s with
  | EmptyString => false
  | String _ s' => contains pattern s'
  end.

(** An entry of [known_errors], and the dictionary [parse_sql_error]
    returns. *)
Record ErrorInfo := {
  error_type : string;
  constraint : option string;
  fix_suggestion : string
}.

Record ParsedError := {
  parsed_message : string;
  parsed : ErrorInfo
}.

(** [known_errors], in insertion order. *)
Definition known_errors : list (string * ErrorInfo) :=
  [ ("UNIQUE constraint failed",
     {| error_type := "constraint_violation"; constraint := Some "unique";
        fix_suggestion :=
          "Ensure values in the specified column are unique" |});
    ("FOREIGN KEY constraint failed",
     {| error_type := "constraint_violation";
        constraint := Some "foreign_key";
        fix_suggestion :=
          "Ensure referenced values exist in the parent table" |});
    ("NOT NULL constraint failed",
     {| error_type := "constraint_violation"; constraint := Some "not_null";
        fix_suggestion :=
          "Provide a non-NULL value for the specified column" |});
    ("syntax error",
     {| error_type := "syntax_error"; constraint := None;
        fix_suggestion := "Check SQL syntax for errors" |}) ].

(** [for pattern, info in known_errors.items(): if pattern in
    error_message: return ...]. *)
Fixpoint first_known (errors : list (string * ErrorInfo))
  (error_message : string) : option ErrorInfo :=
  match errors with
  | [] => None
  | (pattern, info) :: errors' =>
      if contains pattern error_message then Some info
      else first_known errors' error_message
  end.

Definition parse_sql_error (error_message : string) : ParsedError :=
  match first_known known_errors error_message with
  | Some info => {| parsed_message := error_message; parsed := info |}
  | None =>
      {| parsed_message := error_message;
         parsed := {| error_type := "unknown_error"; constraint := None;
                      fix_suggestion :=
                        "Review the SQL and database schema" |} |}
  end.

(** The schema [sql_to_visualization_data] reads: a table has a name,
    columns and, optionally, foreign keys; the keys [is_primary_key] and
    [not_null] of a column and every key of a foreign key are optional. *)
Record SchemaColumn := {
  column_name : string;
  column_type : string;
  column_is_primary_key : option bool;
  column_not_null : option bool
}.

Record ForeignKey := {
  referenced_table : option string;
  from_column : option string;
  to_column : option string
}.

Record Table := {
  table_name : string;
  table_columns : list SchemaColumn;
  table_foreign_keys : option (list ForeignKey)
}.

Record NodeColumn := {
  node_column_name : string;
  node_column_type : string;
  primary : bool;
  nullable : bool
}.

Record Node := {
  node_id : string;
  node_label : string;
  node_type : string;
  node_columns : list NodeColumn
}.

(** The label of an edge holds code points above 255: it is a list of
    code points. *)
Record Edge := {
  edge_id : string;
  source : string;
  target : string;
  edge_label : list N;
  edge_type : string
}.

Record VisualizationData := {
  nodes : list Node;
  edges : list Edge
}.

(** [f"{value}"] for an optional string: [None] is printed. *)
Definition format_optional (value : option string) : string :=
  match value with None => "None" | Some v => v end.

(** The separator of the label as the source file has it: a space, the
    code points U+00E2, U+2020, U+2019, a space. *)
Definition label_separator : list N := [32; 226; 8224; 8217; 32]%N.

Definition node_column (col : SchemaColumn) : NodeColumn :=
  {| node_column_name := column_name col;
     node_column_type := column_type col;
     primary := match column_is_primary_key col with
                | Some b => b
                | None => false
                end;
     nullable := match column_not_null col with
                 | Some b => negb b
                 | None => true
                 end |}.

(** The loop over the foreign keys of one table. *)
Definition foreign_key_loop_body (table_name : string) (edges : list Edge)
  (fk : ForeignKey) : list Edge :=
  let ref_table := referenced_table fk in
  if truthy ref_table then
    edges ++ [{| edge_id := table_name ^^ "_to_" ^^ dict_get ref_table "";
                 source := table_name;
                 target := dict_get ref_table "";
                 edge_label :=
                   code_points (format_optional (from_column fk))
                   ++ label_separator
                   ++ code_points (format_optional (to_column fk));
                 edge_type := "foreign_key" |}]
  else edges.

(** The loop over the tables: the state is [(nodes, edges)]. *)
Definition table_loop_body (acc : list Node * list Edge) (table : Table)
  : list Node * list Edge :=
  let '(nodes, edges) := acc in
  let table_name := table_name table in
  let columns := table_columns table in
  let foreign_keys := dict_get (table_foreign_keys table) [] in
  let nodes :=
    nodes ++ [{| node_id := table_name; node_label := table_name;
                 node_type := "table";
                 node_columns := map node_column columns |}] in
  let edges :=
    fold_left (foreign_key_loop_body table_name) foreign_keys edges in
  (nodes, edges).

Definition sql_to_visualization_data (tables : list Table)
  : VisualizationData :=
  let '(nodes, edges) := fold_left table_loop_body tables ([], []) in
  {| nodes := nodes; edges := edges |}.

(** The edges and the node of one table. *)
Definition edges_of (table : Table) : list Edge :=
  fold_left (foreign_key_loop_body (table_name table))
    (dict_get (table_foreign_keys table) []) [].

Definition node_of (table : Table) : Node :=
  {| node_id := table_name table; node_label := table_name table;
     node_type := "table";
     node_columns := map node_column (table_columns table) |}.

(** The pairs (table, referenced table) of the foreign keys that name a
    referenced table, in order. *)
Definition references_of (table : Table) : list (string * string) :=
  flat_map
    (fun fk =>
       if truthy (referenced_table fk)
       then [(table_name table, dict_get (referenced_table fk) "")]
       else [])
    (dict_get (table_foreign_keys table) []).

(** A date, a timestamp, and a table with two foreign keys to the same
    table and one without a referenced table. *)
Definition sample_timestamp : string := "2024-02-29 23:59:59".

Definition orders_table : Table :=
  {| table_name := "orders";
     table_columns :=
       [ {| column_name := "id"; column_type := "INTEGER";
            column_is_primary_key := Some true;
            column_not_null := Some false |};
         {| column_name := "note"; column_type := "TEXT";
            column_is_primary_key := None; column_not_null := None |} ];
     table_foreign_keys :=
       Some [ {| referenced_table := Some "users";
                 from_column := Some "buyer"; to_column := Some "id" |};
              {| referenced_table := None;
                 from_column := Some "x"; to_column := None |};
              {| referenced_table := Some "users";
                 from_column := Some "seller"; to_column := Some "id" |} ] |}.

(** ** [SQLExecutor.get_schema] *)

(** A value in a row that SQLite returns: [None], an [int], a [float]
    (its 64 bits), a [str] or [bytes]. *)
Inductive cell : Type :=
| CNull
| CInt (negative : bool) (magnitude : N)
| CReal (bits : N)
| CText (s : string)
| CBlob (b : string).

(** [bool(value)]: zero, the two float zeros, the empty string, the
    empty bytes and [None] are false. *)
Definition cell_bool (value : cell) : bool :=
  match value with
  | CNull => false
  | CInt _ magnitude => negb (magnitude =? 0)%N
  | CReal bits => negb ((bits =? 0) || (bits =? 9223372036854775808))%N
  | CText s => negb (is_empty s)
  | CBlob b => negb (is_empty b)
  end.

(** What [get_schema] needs besides the engine: the tuple of a row, and
    [str(value)] as an f-string prints it. *)
Class RowAccess (engine : Engine) := {
  row_cells : Row -> list cell;
  format_cell : cell -> string
}.

Record ColumnInfo := {
  info_name : cell;
  info_type : cell;
  info_not_null : bool;
  info_default_value : cell;
  info_is_primary_key : bool
}.

Record ForeignKeyInfo := {
  fk_id : cell;
  fk_seq : cell;
  fk_referenced_table : cell;
  fk_from_column : cell;
  fk_to_column : cell;
  fk_on_update : cell;
  fk_on_delete : cell;
  fk_match : cell
}.

Record TableInfo := {
  info_table_name : cell;
  info_columns : list ColumnInfo;
  info_foreign_keys : list ForeignKeyInfo
}.

(** The dictionary [get_schema] returns: [tables] on success, [message]
    otherwise. *)
Record SchemaResult := {
  schema_success : bool;
  schema_message : option string;
  schema_tables : option (list TableInfo)
}.

(** [row[i]] on a tuple. *)
Definition item (row : list cell) (i : nat) : result cell :=
  match nth_error row i with
  | Some value => Ok value
  | None => Raise (IndexError "tuple index out of range")
  end.

(** Results in sequence. *)
Definition result_bind {A B : Type} (r : result A) (k : A -> result B)
  : result B :=
  match r with
  | Ok a => k a
  | Raise e => Raise e
  end.

Notation "x <~ r ;; k" := (result_bind r (fun x => k))
  (at level 100, r at next level, right associativity) : py_scope.

(** [[f(x) for x in l]], stopping at the first exception. *)
Fixpoint comprehension {A B : Type} (f : A -> result B) (l : list A)
  : result (list B) :=
  match l with
  | [] => Ok []
  | x :: l' =>
      y <~ f x ;;
      ys <~ comprehension f l' ;;
      Ok (y :: ys)
  end.

(** The dictionary built from a row of [PRAGMA table_info]. *)
Definition column_of_row (col : list cell) : result ColumnInfo :=
  name <~ item col 1 ;;
  type <~ item col 2 ;;
  not_null <~ item col 3 ;;
  default_value <~ item col 4 ;;
  is_primary_key <~ item col 5 ;;
  Ok {| info_name := name; info_type := type;
        info_not_null := cell_bool not_null;
        info_default_value := default_value;
        info_is_primary_key := cell_bool is_primary_key |}.

(** The dictionary built from a row of [PRAGMA foreign_key_list]. *)
Definition foreign_key_of_row (fk : list cell) : result ForeignKeyInfo :=
  id <~ item fk 0 ;;
  seq <~ item fk 1 ;;
  referenced <~ item fk 2 ;;
  from <~ item fk 3 ;;
  to <~ item fk 4 ;;
  on_update <~ item fk 5 ;;
  on_delete <~ item fk 6 ;;
  matching <~ item fk 7 ;;
  Ok {| fk_id := id; fk_seq := seq; fk_referenced_table := referenced;
        fk_from_column := from; fk_to_column := to;
        fk_on_update := on_update; fk_on_delete := on_delete;
        fk_match := matching |}.

Definition list_tables_query : string :=
  "SELECT name FROM sqlite_master WHERE type='table' AND name NOT LIKE 'sqlite_%'".

Section GetSchema.

Context {engine : Engine} {access : RowAccess engine}.

Definition table_info_query (table_name : cell) : string :=
  "PRAGMA table_info(" ^^ format_cell table_name ^^ ")".

Definition foreign_key_list_query (table_name : cell) : string :=
  "PRAGMA foreign_key_list(" ^^ format_cell table_name ^^ ")".

(** A pure computation that may raise, as a method. *)
Definition lift {A : Type} (r : result A) : M A := fun s => (s, r).

(** The body of the loop over the table names. *)
Definition describe_table (cursor : Cursor) (table_name : cell)
  : M TableInfo :=
  call (EvExecute (table_info_query table_name))
    (cursor_execute cursor (table_info_query table_name)) ;;
  fetched <- call EvFetchall (cursor_fetchall cursor) ;;
  columns <- lift (comprehension column_of_row (map row_cells fetched)) ;;
  call (EvExecute (foreign_key_list_query table_name))
    (cursor_execute cursor (foreign_key_list_query table_name)) ;;
  fetched <- call EvFetchall (cursor_fetchall cursor) ;;
  foreign_keys <-
    lift (comprehension foreign_key_of_row (map row_cells fetched)) ;;
  ret {| info_table_name := table_name; info_columns := columns;
         info_foreign_keys := foreign_keys |}.

(** [for table_name in table_names: ...; tables.append(...)]. *)
Fixpoint describe_tables (cursor : Cursor) (table_names : list cell)
  (tables : list TableInfo) : M (list TableInfo) :=
  match table_names with
  | [] => ret tables
  | table_name :: table_names' =>
      table <- describe_table cursor table_name ;;
      describe_tables cursor table_names' (tables ++ [table])
  end.

(** The body of the [try] block of [get_schema]. *)
Definition read_schema (cursor : Cursor) : M SchemaResult :=
  call (EvExecute list_tables_query)
    (cursor_execute cursor list_tables_query) ;;
  fetched <- call EvFetchall (cursor_fetchall cursor) ;;
  table_names <-
    lift (comprehension (fun row => item row 0) (map row_cells fetched)) ;;
  tables <- describe_tables cursor table_names [] ;;
  ret {| schema_success := true; schema_message := None;
         schema_tables := Some tables |}.

(** [get_schema].  As in [execute], the cursor is made before the [try]:
    what [db_connection.cursor()] raises leaves the method. *)
Definition get_schema : M SchemaResult :=
  self <- get_self ;;
  match db_connection self with
  | None =>
      ret {| schema_success := false;
             schema_message := Some "Not connected to a database";
             schema_tables := None |}
  | Some connection =>
      cursor <- effect (connection_cursor connection) ;;
      try_except (read_schema cursor)
        (fun e =>
           ret {| schema_success := false; schema_message := Some (str e);
                  schema_tables := None |})
  end.

(** The statements [get_schema] runs for the given table names. *)
Definition schema_statements (table_names : list cell) : list string :=
  list_tables_query
  :: flat_map (fun name => [table_info_query name;
                            foreign_key_list_query name]) table_names.

End GetSchema.

(** An engine that holds the table [users (id INTEGER PRIMARY KEY, name
    TEXT NOT NULL)]: its world is the statement the cursor ran last, and
    [fetchall] answers the three introspection statements. *)
Definition users_rows (last_statement : string) : list (list cell) :=
  if last_statement =? list_tables_query then [[CText "users"]]
  else if last_statement =? "PRAGMA table_info(users)" then
    [ [CInt false 0; CText "id"; CText "INTEGER"; CInt false 0; CNull;
       CInt false 1];
      [CInt false 1; CText "name"; CText "TEXT"; CInt false 1; CNull;
       CInt false 0] ]
  else [].

Definition users_engine : Engine :=
  {| World := string;
     Connection := unit;
     Cursor := unit;
     TempFile := string;
     Row := list cell;
     NamedTemporaryFile := fun w => (w, Ok "/tmp/tmpq1w2e3.db");
     temp_file_name := fun f => f;
     sqlite3_connect := fun _ w => (w, Ok tt);
     connection_execute := fun _ _ w => (w, Ok tt);
     connection_cursor := fun _ w => (w, Ok tt);
     cursor_execute := fun _ stmt _ => (stmt, Ok tt);
     cursor_description := fun _ _ => Some ["name"];
     cursor_fetchall := fun _ w => (w, Ok (users_rows w));
     connection_commit := fun _ w => (w, Ok tt) |}.

Definition users_access : RowAccess users_engine :=
  {| row_cells := fun (row : @Row users_engine) => row;
     format_cell := fun value =>
                      match value with CText s => s | _ => "None" end |}.

(** How the rows of the engine over a closed connection are read. *)
Definition closed_access : RowAccess closed_engine :=
  {| row_cells := fun (row : @Row closed_engine) => map CText row;
     format_cell := fun value =>
                      match value with CText s => s | _ => "None" end |}.

Definition users_store : @Store users_engine :=
  @Build_Store users_engine
    (@Build_SQLExecutor users_engine (Some "sqlite") (Some tt) None)
    "" [] [].

Definition users_table_info : TableInfo :=
  {| info_table_name := CText "users";
     info_columns :=
       [ {| info_name := CText "id"; info_type := CText "INTEGER";
            info_not_null := false; info_default_value := CNull;
            info_is_primary_key := true |};
         {| info_name := CText "name"; info_type := CText "TEXT";
            info_not_null := true; info_default_value := CNull;
            info_is_primary_key := false |} ];
     info_foreign_keys := [] |}.

(** ** From the synthesizer to the executor *)

(** Lines, each followed by a line feed. *)
Definition unlines (lines : list string) : string :=
  join "" (map (fun line => line ^^ LF) lines).

(** The lines of clauses joined by a comma and a line feed: every clause
    but the last is followed by a comma; no clause gives one empty
    line. *)
Fixpoint comma_lines (clauses : list string) : list string :=
  match clauses with
  | [] => [""]
  | [clause] => [clause]
  | clause :: clauses' => (clause ^^ ",") :: comma_lines clauses'
  end.

(** The lines of a [CREATE TABLE] statement up to its closing line. *)
Definition create_table_lines (table_name : string) (clauses : list string)
  : list string :=
  ("CREATE TABLE " ^^ table_name ^^ " (") :: comma_lines clauses.

(** A name or type that holds neither a newline nor a semicolon. *)
Definition plain (s : string) : Prop :=
  ~ occurs newline s /\ ~ occurs ";" s.

Definition plain_entity (entity : Entity) : Prop :=
  plain (entity_name entity) /\
  Forall (fun attr => plain (attr_name attr) /\ plain (attr_type attr))
    (attributes entity).

Definition plain_relationship (r : Relationship) : Prop :=
  plain (dict_get (entity1 r) "") /\ plain (dict_get (entity2 r) "").

(** The lines the splitter keeps of [lines], stripped. *)
Definition kept_lines (lines : list string) : list string :=
  filter (fun line => negb (SplitterSpec.skipped line)) (map strip lines).

(** The statement the splitter makes of the lines of a [CREATE TABLE]. *)
Definition split_create_table (table_name : string) (clauses : list string)
  : string :=
  join " " (kept_lines (create_table_lines table_name clauses) ++ [");"]).

(** The relationships that are many-to-many. *)
Definition many_to_many_of (rels : list Relationship) : list Relationship :=
  filter (fun r => type_of r =? "many_to_many") rels.

Definition junction_clauses (entity1 entity2 : string) : list string :=
  [junction_column entity1; junction_column entity2;
   junction_primary_key entity1 entity2;
   junction_foreign_key entity1; junction_foreign_key entity2].

(** The tables of a script of the natural-language converter, each with
    its clauses: those of the entities, then the junction tables. *)
Definition entity_block (entity : Entity) : string * list string :=
  (entity_name entity, expected_clauses (attributes entity)).

Definition junction_block (r : Relationship) : string * list string :=
  (dict_get (entity1 r) "" ^^ "_" ^^ dict_get (entity2 r) "",
   junction_clauses (dict_get (entity1 r) "") (dict_get (entity2 r) "")).

Definition script_blocks (schema : SchemaDescription)
  : list (string * list string) :=
  map entity_block (dict_get (entities schema) [])
  ++ map junction_block
       (many_to_many_of (dict_get (relationships schema) [])).

(** The lines of a block hold neither a newline nor a semicolon. *)
Definition plain_block (block : string * list string) : Prop :=
  Forall (fun l => ~ occurs newline l /\ ~ occurs ";" l)
    (create_table_lines (fst block) (snd block)).

Definition plain_schema (schema : SchemaDescription) : Prop :=
  Forall plain_entity (dict_get (entities schema) []) /\
  Forall plain_relationship
    (many_to_many_of (dict_get (relationships schema) [])).

(** A schema with two plain entities and a many-to-many relationship
    between them, beside a one-to-many one. *)
Definition profiles_entity : Entity :=
  {| entity_name := "profiles";
     attributes :=
       [ {| attr_name := "id"; attr_type := "INTEGER";
            is_primary_key := Some true; is_nullable := Some false |} ] |}.

Definition two_table_schema : SchemaDescription :=
  {| entities := Some [users_entity; profiles_entity];
     relationships :=
       Some [ {| rel_type := Some "one_to_many"; entity1 := Some "users";
                 entity2 := Some "profiles"; rel_attributes := None |};
              {| rel_type := Some "many_to_many"; entity1 := Some "users";
                 entity2 := Some "profiles"; rel_attributes := None |} ] |}.

(** * Properties *)

(** ** Strings *)

Section StringFacts.

Lemma append_empty_r (s : string) : s ^^ "" = s.
Proof. induction s as [|c s IH]; simpl; [reflexivity | now rewrite IH]. Qed.

Lemma append_assoc (a b c : string) : (a ^^ b) ^^ c = a ^^ b ^^ c.
Proof. induction a as [|x a IH]; simpl; [reflexivity | now rewrite IH]. Qed.

Lemma is_empty_true (s : string) : is_empty s = true <-> s = "".
Proof. destruct s; simpl; split; intro H; try reflexivity; discriminate. Qed.

Lemma is_empty_false (s : string) : is_empty s = false <-> s <> "".
Proof.
  destruct s; simpl; split; intro H; try reflexivity; try discriminate.
  now elim H.
Qed.

Lemma last_char_none (s : string) : last_char s = None -> s = "".
Proof.
  destruct s as [|c s]; simpl; [reflexivity|].
  destruct (last_char s); discriminate.
Qed.

Lemma last_char_cons (c : ascii) (s : string) :
  s <> "" -> last_char (String c s) = last_char s.
Proof.
  intro Hs. simpl. destruct (last_char s) eqn:E; [reflexivity|].
  apply last_char_none in E. contradiction.
Qed.

Lemma last_char_append (a b : string) :
  b <> "" -> last_char (a ^^ b) = last_char b.
Proof.
  intro Hb. induction a as [|x a IH]; simpl; [reflexivity|].
  rewrite IH. destruct (last_char b) eqn:E; [reflexivity|].
  apply last_char_none in E. contradiction.
Qed.

Lemma first_char_append (a b : string) :
  a <> "" -> first_char (a ^^ b) = first_char a.
Proof. destruct a; simpl; [intro H; now elim H | reflexivity]. Qed.

Lemma append_nonempty_l (a b : string) : a <> "" -> a ^^ b <> "".
Proof. destruct a; simpl; [intro H; now elim H | discriminate]. Qed.

Lemma occurs_append (c : ascii) (a b : string) :
  occurs c (a ^^ b) <-> occurs c a \/ occurs c b.
Proof.
  induction a as [|x a IH]; simpl; [tauto|].
  rewrite IH. tauto.
Qed.

Lemma last_char_occurs (s : string) (c : ascii) :
  last_char s = Some c -> occurs c s.
Proof.
  induction s as [|x s IH]; simpl; [discriminate|].
  destruct (last_char s) as [d|].
  - intro H. right. apply IH. exact H.
  - intro H. left. congruence.
Qed.

(** *** [lstrip], [rstrip], [strip] *)

Lemma lstrip_first (s : string) (c : ascii) :
  first_char (lstrip s) = Some c -> isspace c = false.
Proof.
  induction s as [|x s IH]; simpl; [discriminate|].
  destruct (isspace x) eqn:E; [exact IH|].
  simpl. intro H. congruence.
Qed.

Lemma lstrip_last (s : string) (c : ascii) :
  last_char (lstrip s) = Some c -> last_char s = Some c.
Proof.
  induction s as [|x s IH]; simpl; [discriminate|].
  destruct (isspace x); [|exact (fun H => H)].
  intro H. rewrite (IH H). reflexivity.
Qed.

Lemma rstrip_last (s : string) (c : ascii) :
  last_char (rstrip s) = Some c -> isspace c = false.
Proof.
  revert c. induction s as [|x s IH]; intro c; simpl; [discriminate|].
  destruct (rstrip s) as [|y r] eqn:E.
  - destruct (isspace x) eqn:Ex; simpl; [discriminate|]. congruence.
  - rewrite last_char_cons by discriminate. apply IH.
Qed.

Lemma strip_trimmed (s : string) : trimmed (strip s).
Proof.
  unfold trimmed, strip. split; intros c H.
  - exact (lstrip_first _ _ H).
  - apply lstrip_last in H. exact (rstrip_last _ _ H).
Qed.

Lemma occurs_lstrip (c : ascii) (s : string) :
  occurs c (lstrip s) -> occurs c s.
Proof.
  induction s as [|x s IH]; simpl; [tauto|].
  destruct (isspace x); simpl; tauto.
Qed.

Lemma occurs_rstrip (c : ascii) (s : string) :
  occurs c (rstrip s) -> occurs c s.
Proof.
  induction s as [|x s IH]; simpl; [tauto|].
  destruct (rstrip s) as [|y r].
  - destruct (isspace x); simpl; tauto.
  - intros [H|H]; [left; exact H | right; apply IH; exact H].
Qed.

Lemma occurs_strip (c : ascii) (s : string) :
  occurs c (strip s) -> occurs c s.
Proof. intro H. apply occurs_rstrip, occurs_lstrip, H. Qed.

Lemma rstrip_fixed (s : string) :
  (forall c, last_char s = Some c -> isspace c = false) -> rstrip s = s.
Proof.
  induction s as [|x s IH]; simpl; [reflexivity|].
  intro H. destruct (last_char s) as [d|] eqn:E.
  - rewrite IH by exact H.
    destruct s; [discriminate | reflexivity].
  - apply last_char_none in E. subst s. simpl.
    rewrite (H x eq_refl). reflexivity.
Qed.

Lemma lstrip_fixed (s : string) :
  (forall c, first_char s = Some c -> isspace c = false) -> lstrip s = s.
Proof.
  destruct s as [|x s]; simpl; [reflexivity|].
  intro H. rewrite (H x eq_refl). reflexivity.
Qed.

Lemma strip_fixed (s : string) : trimmed s -> strip s = s.
Proof.
  intros [Hf Hl]. unfold strip.
  rewrite (rstrip_fixed s Hl). apply lstrip_fixed, Hf.
Qed.

Lemma strip_space_cons (s : string) :
  s <> "" -> trimmed s -> strip (String " " s) = s.
Proof.
  intros Hs [Hf Hl]. unfold strip.
  assert (R : rstrip (String " " s) = String " " s).
  { apply rstrip_fixed. rewrite last_char_cons by exact Hs. exact Hl. }
  rewrite R. simpl. apply lstrip_fixed, Hf.
Qed.

(** *** [endswith], [split], [join] *)

Lemma endswith_last (c : ascii) (s : string) :
  endswith (String c "") s = true -> last_char s = Some c.
Proof.
  induction s as [|x s IH].
  - simpl. discriminate.
  - intro H. cbn [endswith] in H.
    apply orb_true_iff in H. destruct H as [H|H].
    + apply String.eqb_eq in H. injection H as -> ->. reflexivity.
    + cbn [last_char]. rewrite (IH H). reflexivity.
Qed.

Lemma split_no_sep (sep : ascii) (s : string) :
  Forall (fun piece => ~ occurs sep piece) (split sep s).
Proof.
  induction s as [|x s IH]; simpl.
  - constructor; [simpl; tauto | constructor].
  - destruct (Ascii.eqb x sep) eqn:E.
    + constructor; [simpl; tauto | exact IH].
    + apply Ascii.eqb_neq in E.
      destruct (split sep s) as [|piece pieces].
      * constructor; [simpl; tauto | constructor].
      * inversion IH as [|? ? Hp Hps]; subst.
        constructor; [simpl; tauto | exact Hps].
Qed.

Lemma join_cons2 (sep x y : string) (l : list string) :
  join sep (x :: y :: l) = x ^^ sep ^^ join sep (y :: l).
Proof. reflexivity. Qed.

Lemma join_snoc (sep : string) (l : list string) (x y : string) :
  join sep ((x :: l) ++ [y]) = join sep (x :: l) ^^ sep ^^ y.
Proof.
  revert x. induction l as [|z l IH]; intro x.
  - reflexivity.
  - change ((x :: z :: l) ++ [y]) with (x :: ((z :: l) ++ [y])).
    simpl app. rewrite !join_cons2.
    change (z :: l ++ [y]) with ((z :: l) ++ [y]).
    rewrite IH, !append_assoc. reflexivity.
Qed.

End StringFacts.

(** ** The statement splitter *)

Section Splitter.

Lemma space_is_not_newline : ~ occurs newline " ".
Proof. simpl. intros [H|[]]. discriminate H. Qed.

Lemma join_clean (x : string) (l : list string) :
  Forall clean_statement (x :: l) -> clean_statement (join " " (x :: l)).
Proof.
  revert x. induction l as [|y l IH]; intros x H.
  - inversion H; subst. assumption.
  - inversion H as [|? ? Hx Hrest]; subst.
    destruct Hx as (Hne & [Hf Hl] & Hnl).
    destruct (IH y Hrest) as (Jne & [Jf Jl] & Jnl).
    rewrite join_cons2. repeat split.
    + apply append_nonempty_l, Hne.
    + intros c Hc. rewrite first_char_append in Hc by exact Hne. auto.
    + intros c Hc.
      rewrite last_char_append in Hc by (simpl; discriminate).
      change (" " ^^ join " " (y :: l)) with (String " " (join " " (y :: l))) in Hc.
      rewrite last_char_cons in Hc by exact Jne. auto.
    + intro Hc. apply occurs_append in Hc. destruct Hc as [Hc|Hc]; [tauto|].
      apply occurs_append in Hc. destruct Hc as [Hc|Hc]; [|tauto].
      exact (space_is_not_newline Hc).
Qed.

Lemma prefix_join_cons (x : string) (l : list string) :
  prefix_join (x :: l) = String " " (join " " (x :: l)).
Proof.
  revert x. induction l as [|y l IH]; intro x.
  - simpl. rewrite append_empty_r. reflexivity.
  - change (prefix_join (x :: y :: l))
      with (String " " (x ^^ prefix_join (y :: l))).
    rewrite IH, join_cons2. reflexivity.
Qed.

Lemma prefix_join_snoc (buffer : list string) (line : string) :
  prefix_join (buffer ++ [line]) = prefix_join buffer ^^ " " ^^ line.
Proof.
  induction buffer as [|x l IH]; simpl.
  - rewrite append_empty_r. reflexivity.
  - rewrite IH, append_assoc. reflexivity.
Qed.

Lemma strip_prefix_join (x : string) (l : list string) :
  Forall clean_statement (x :: l) ->
  strip (prefix_join (x :: l)) = join " " (x :: l).
Proof.
  intro H. rewrite prefix_join_cons.
  destruct (join_clean x l H) as (Hne & Ht & _).
  apply strip_space_cons; assumption.
Qed.

Lemma split_sql_statements_unfold (sql_code : string) :
  _split_sql_statements sql_code =
  flush_remainder (fold_left split_loop_body (split newline sql_code) ([], "")).
Proof. reflexivity. Qed.

Lemma skipped_agrees (line : string) :
  startswith "--" line || startswith "#" line || is_empty line
  = SplitterSpec.skipped line.
Proof.
  unfold SplitterSpec.skipped.
  destruct (startswith "--" line), (startswith "#" line), (is_empty line);
    reflexivity.
Qed.

(** The loop of the code, started with the buffer of the specification as
    its [current_statement], yields the statements of the specification. *)
Lemma loop_refines (lines : list string) :
  forall (buffer statements : list string),
    Forall (fun l => ~ occurs newline l) lines ->
    Forall clean_statement buffer ->
    flush_remainder
      (fold_left split_loop_body lines (statements, prefix_join buffer))
    = statements ++ SplitterSpec.split_lines buffer lines.
Proof.
  induction lines as [|raw rest IH]; intros buffer statements Hlines Hbuf.
  - simpl. destruct buffer as [|x l].
    + simpl. rewrite app_nil_r. reflexivity.
    + rewrite strip_prefix_join by exact Hbuf.
      destruct (join_clean x l Hbuf) as (Hne & _).
      apply is_empty_false in Hne. rewrite Hne. reflexivity.
  - inversion Hlines as [|? ? Hraw Hrest]; subst.
    cbn [fold_left SplitterSpec.split_lines].
    unfold split_loop_body at 2. cbv zeta.
    rewrite skipped_agrees.
    destruct (SplitterSpec.skipped (strip raw)) eqn:Hskip.
    + apply IH; assumption.
    + assert (Hline : clean_statement (strip raw)).
      { unfold SplitterSpec.skipped in Hskip.
        apply orb_false_iff in Hskip. destruct Hskip as [Hskip _].
        apply orb_false_iff in Hskip. destruct Hskip as [Hskip _].
        repeat split.
        - apply is_empty_false, Hskip.
        - apply strip_trimmed.
        - apply strip_trimmed.
        - intro Hc. apply Hraw. apply occurs_strip, Hc. }
      assert (Hbuf' : Forall clean_statement (buffer ++ [strip raw])).
      { apply Forall_app. split; [exact Hbuf | constructor; [exact Hline | constructor]]. }
      rewrite <- prefix_join_snoc.
      destruct (endswith ";" (strip raw)).
      * destruct (buffer ++ [strip raw]) as [|x l] eqn:E.
        { destruct buffer; discriminate E. }
        rewrite strip_prefix_join by exact Hbuf'.
        change "" with (prefix_join []).
        rewrite IH by (try assumption; constructor).
        rewrite <- app_assoc. reflexivity.
      * apply IH; assumption.
Qed.

Lemma splitter_refines (script : string) :
  _split_sql_statements script = SplitterSpec.split_statements script.
Proof.
  rewrite split_sql_statements_unfold.
  change "" with (prefix_join []).
  rewrite loop_refines.
  - reflexivity.
  - apply split_no_sep.
  - constructor.
Qed.

Lemma spec_lines_clean (lines : list string) :
  forall buffer,
    Forall (fun l => ~ occurs newline l) lines ->
    Forall clean_statement buffer ->
    Forall clean_statement (SplitterSpec.split_lines buffer lines).
Proof.
  induction lines as [|raw rest IH]; intros buffer Hlines Hbuf.
  - simpl. destruct buffer as [|x l]; constructor.
    + apply join_clean, Hbuf.
    + constructor.
  - inversion Hlines as [|? ? Hraw Hrest]; subst.
    cbn [SplitterSpec.split_lines].
    destruct (SplitterSpec.skipped (strip raw)) eqn:Hskip.
    + apply IH; assumption.
    + assert (Hline : clean_statement (strip raw)).
      { unfold SplitterSpec.skipped in Hskip.
        apply orb_false_iff in Hskip. destruct Hskip as [Hskip _].
        apply orb_false_iff in Hskip. destruct Hskip as [Hskip _].
        repeat split.
        - apply is_empty_false, Hskip.
        - apply strip_trimmed.
        - apply strip_trimmed.
        - intro Hc. apply Hraw. apply occurs_strip, Hc. }
      assert (Hbuf' : Forall clean_statement (buffer ++ [strip raw])).
      { apply Forall_app. split; [exact Hbuf | constructor; [exact Hline | constructor]]. }
      destruct (endswith ";" (strip raw)).
      * constructor.
        -- destruct (buffer ++ [strip raw]) as [|x l] eqn:E.
           { destruct buffer; discriminate E. }
           apply join_clean, Hbuf'.
        -- apply IH; [assumption | constructor].
      * apply IH; assumption.
Qed.

Lemma statements_clean (script : string) :
  Forall clean_statement (_split_sql_statements script).
Proof.
  rewrite splitter_refines. apply spec_lines_clean.
  - apply split_no_sep.
  - constructor.
Qed.

Lemma clean_not_skipped (stmt : string) :
  clean_statement stmt -> guard_skips stmt = false.
Proof.
  intros (Hne & Ht & _). unfold guard_skips.
  rewrite strip_fixed by exact Ht. apply is_empty_false, Hne.
Qed.

End Splitter.

(** C6: the splitter of the code is the line-by-line algorithm of the
    specification (blank lines and lines whose stripped text begins with
    two dashes or a hash are skipped, the other stripped lines are
    buffered and joined by single spaces, a line ending in a semicolon
    flushes the buffer, a non-empty remainder is flushed after the last
    line), and the script of the three lines [SELECT 1;], [-- comment],
    [SELECT 2;] yields exactly the statements [SELECT 1;] and
    [SELECT 2;]. *)
Theorem C6_splitter_algorithm :
  (forall script : string,
      _split_sql_statements script = SplitterSpec.split_statements script) /\
  _split_sql_statements three_line_script = ["SELECT 1;"; "SELECT 2;"].
Proof.
  split.
  - exact splitter_refines.
  - vm_compute. reflexivity.
Qed.

(** C10: every statement the splitter returns is non-empty, has no
    leading and no trailing whitespace and contains no newline; hence the
    guard [if not stmt.strip(): continue] of [execute] never skips it. *)
Theorem C10_split_statements_clean (script stmt : string) :
  In stmt (_split_sql_statements script) ->
  stmt <> "" /\ trimmed stmt /\ ~ occurs newline stmt /\
  guard_skips stmt = false.
Proof.
  intro Hin.
  pose proof (statements_clean script) as Hall.
  rewrite Forall_forall in Hall.
  pose proof (Hall stmt Hin) as Hclean.
  destruct Hclean as (Hne & Ht & Hnl).
  repeat split; try assumption; try apply Ht.
  apply clean_not_skipped. repeat split; try assumption; apply Ht.
Qed.

Lemma C10_split_statements_clean_witness :
  In "SELECT 2" (_split_sql_statements two_statement_script) /\
  ("SELECT 2" <> "" /\ trimmed "SELECT 2" /\ ~ occurs newline "SELECT 2" /\
   guard_skips "SELECT 2" = false).
Proof.
  assert (Hin : In "SELECT 2" (_split_sql_statements two_statement_script)).
  { vm_compute. right. left. reflexivity. }
  split; [exact Hin|].
  exact (C10_split_statements_clean two_statement_script "SELECT 2" Hin).
Defined.

(** ** The name sanitizers *)

Section Sanitizers.

Lemma lower_char_word (c : ascii) :
  is_word c = true -> is_word (lower_char c) = true.
Proof. destruct c as [[] [] [] [] [] [] [] []]; vm_compute; trivial. Qed.

Lemma lower_char_not_upper (c : ascii) : isupper (lower_char c) = false.
Proof. destruct c as [[] [] [] [] [] [] [] []]; vm_compute; reflexivity. Qed.

Lemma lower_char_fixed (c : ascii) : isupper c = false -> lower_char c = c.
Proof. unfold lower_char. intros ->. reflexivity. Qed.

Lemma word_or_underscore (c : ascii) :
  is_word (if is_word c then c else "_"%char) = true.
Proof. destruct (is_word c) eqn:E; [exact E | reflexivity]. Qed.

Lemma lower_sub_word (name : string) :
  all_chars is_word (lower (re_sub_non_word name)) = true.
Proof.
  induction name as [|c s IH]; [reflexivity|].
  cbn [re_sub_non_word lower all_chars].
  rewrite IH, andb_true_r. apply lower_char_word, word_or_underscore.
Qed.

Lemma lower_not_upper (s : string) :
  all_chars (fun c => negb (isupper c)) (lower s) = true.
Proof.
  induction s as [|c s IH]; [reflexivity|].
  cbn [lower all_chars].
  rewrite IH, lower_char_not_upper. reflexivity.
Qed.

Lemma lower_idempotent (s : string) : lower (lower s) = lower s.
Proof.
  induction s as [|c s IH]; [reflexivity|].
  cbn [lower].
  rewrite IH, (lower_char_fixed _ (lower_char_not_upper c)). reflexivity.
Qed.

Lemma sub_nonempty (c : ascii) (s : string) :
  exists d r, lower (re_sub_non_word (String c s)) = String d r.
Proof. cbn [re_sub_non_word lower]. eauto. Qed.

(** The common shape of the two sanitizers: the lowered, substituted name,
    with a two-letter prefix when it starts with a digit. *)
Lemma prefixed_sanitized (p : ascii) (name : string) :
  name <> "" ->
  isdigit p = false -> is_word p = true -> isupper p = false ->
  let lowered := lower (re_sub_non_word name) in
  forall r,
    match lowered with
    | EmptyString => Raise (IndexError "string index out of range")
    | String c _ =>
        if isdigit c then Ok (String p (String "_" lowered)) else Ok lowered
    end = Ok r ->
    sanitized r.
Proof.
  intros Hne Hd Hw Hu lowered r.
  pose proof (lower_sub_word name) as Hword.
  pose proof (lower_not_upper (re_sub_non_word name)) as Hlow.
  pose proof (lower_idempotent (re_sub_non_word name)) as Hidem.
  fold lowered in Hword, Hlow, Hidem.
  destruct name as [|c0 s0]; [now elim Hne|].
  destruct (sub_nonempty c0 s0) as (d & t & E). fold lowered in E.
  rewrite E in *. destruct (isdigit d) eqn:Ed; intro H; injection H as <-.
  - repeat split.
    + discriminate.
    + change (lower (String p (String "_" (String d t))))
        with (String (lower_char p)
                (String (lower_char "_") (lower (String d t)))).
      rewrite Hidem, (lower_char_fixed p Hu). reflexivity.
    + change (all_chars (fun c => negb (isupper c))
                (String p (String "_" (String d t))))
        with (negb (isupper p) &&
              (negb (isupper "_") &&
               all_chars (fun c => negb (isupper c)) (String d t))).
      rewrite Hlow, Hu. reflexivity.
    + change (all_chars is_word (String p (String "_" (String d t))))
        with (is_word p && (is_word "_" && all_chars is_word (String d t))).
      rewrite Hword, Hw. reflexivity.
    + cbn [first_char]. intros c Hc. injection Hc as <-. exact Hd.
  - repeat split.
    + discriminate.
    + exact Hidem.
    + exact Hlow.
    + exact Hword.
    + cbn [first_char]. intros c Hc. injection Hc as <-. exact Ed.
Qed.

(** The model on code points agrees with the model on strings. *)

Lemma ord_below_256 (c : ascii) : (ord c <? 256)%N = true.
Proof. apply N.ltb_lt. unfold ord. apply N_ascii_bounded. Qed.

Lemma wide_is_word (c : ascii) : Wide.is_word (ord c) = Some (is_word c).
Proof.
  unfold Wide.is_word. rewrite ord_below_256. unfold ord at 1.
  rewrite ascii_N_embedding. reflexivity.
Qed.

Lemma wide_isdigit (c : ascii) : Wide.isdigit (ord c) = Some (isdigit c).
Proof.
  unfold Wide.isdigit. rewrite ord_below_256. unfold ord at 1.
  rewrite ascii_N_embedding. reflexivity.
Qed.

Lemma wide_lower_char (c : ascii) :
  Wide.lower_char (ord c) = Some [ord (lower_char c)].
Proof.
  unfold Wide.lower_char. rewrite ord_below_256. unfold ord at 1.
  rewrite ascii_N_embedding. reflexivity.
Qed.

Lemma wide_re_sub (name : string) :
  Wide.re_sub_non_word (code_points name)
  = Some (code_points (re_sub_non_word name)).
Proof.
  induction name as [|c s IH]; [reflexivity|].
  cbn [code_points Wide.re_sub_non_word re_sub_non_word].
  rewrite wide_is_word, IH. destruct (is_word c); reflexivity.
Qed.

Lemma wide_lower (s : string) :
  Wide.lower (code_points s) = Some (code_points (lower s)).
Proof.
  induction s as [|c s IH]; [reflexivity|].
  cbn [code_points Wide.lower lower].
  rewrite wide_lower_char, IH. reflexivity.
Qed.

Lemma wide_table_name (name : string) :
  Wide.sanitize_table_name (code_points name)
  = Some (result_code_points (sanitize_table_name name)).
Proof.
  unfold Wide.sanitize_table_name, sanitize_table_name.
  rewrite wide_re_sub, wide_lower.
  destruct (lower (re_sub_non_word name)) as [|c s]; [reflexivity|].
  cbn [code_points]. rewrite wide_isdigit.
  destruct (isdigit c); reflexivity.
Qed.

Lemma wide_column_name (name : string) :
  Wide.sanitize_column_name (code_points name)
  = Some (result_code_points (sanitize_column_name name)).
Proof.
  unfold Wide.sanitize_column_name, sanitize_column_name.
  rewrite wide_re_sub, wide_lower.
  destruct (lower (re_sub_non_word name)) as [|c s]; [reflexivity|].
  cbn [code_points]. rewrite wide_isdigit.
  destruct (isdigit c); reflexivity.
Qed.

End Sanitizers.

(** C9 on the one-letter name U+0130: the letter is a word character, so
    the substitution keeps it; [lower], which runs after the
    substitution, turns it into [i] followed by the combining mark
    U+0307, which is not a word character; both sanitizers return these
    two code points. *)
Theorem C9_lower_after_substitution :
  Wide.is_word 304 = Some true /\
  Wide.re_sub_non_word [304%N] = Some [304%N] /\
  Wide.lower [304%N] = Some [105%N; 775%N] /\
  Wide.sanitize_table_name [304%N] = Some (Ok [105%N; 775%N]) /\
  Wide.sanitize_column_name [304%N] = Some (Ok [105%N; 775%N]) /\
  Wide.is_word 775 = Some false.
Proof. repeat split; vm_compute; reflexivity. Qed.

(** ** The SQL synthesizers *)

Section CreateTable.

(** The loop over the attributes, for any body that computes what the
    bodies of the two converters compute. *)
Variable body : list string * list string -> Attribute
                -> list string * list string.

Hypothesis body_def :
  forall columns primary_keys attr,
    body (columns, primary_keys) attr =
    (columns ++ [column_clause attr],
     if marked_primary_key attr then primary_keys ++ [attr_name attr]
     else primary_keys).

Lemma attribute_loop (attrs : list Attribute) :
  forall columns primary_keys,
    fold_left body attrs (columns, primary_keys) =
    (columns ++ map column_clause attrs,
     primary_keys ++ primary_key_names attrs).
Proof.
  induction attrs as [|a attrs IH]; intros columns primary_keys.
  - simpl. rewrite !app_nil_r. reflexivity.
  - cbn [fold_left]. rewrite body_def, IH.
    unfold primary_key_names. cbn [filter map].
    rewrite <- app_assoc.
    destruct (marked_primary_key a); cbn [map];
      rewrite <- ?app_assoc; reflexivity.
Qed.

End CreateTable.

Lemma column_def_is_clause (attr : Attribute) :
  (if negb (dict_get (is_nullable attr) true)
   then ("    " ^^ attr_name attr ^^ " " ^^ attr_type attr) ^^ " NOT NULL"
   else "    " ^^ attr_name attr ^^ " " ^^ attr_type attr)
  = column_clause attr.
Proof.
  unfold column_clause, not_nullable.
  destruct (is_nullable attr) as [[|]|]; cbn [dict_get negb].
  - rewrite !append_empty_r. reflexivity.
  - rewrite !append_assoc. reflexivity.
  - rewrite !append_empty_r. reflexivity.
Qed.

Lemma nl_body_def columns primary_keys attr :
  NLToSQLConverter.attribute_loop_body (columns, primary_keys) attr =
  (columns ++ [column_clause attr],
   if marked_primary_key attr then primary_keys ++ [attr_name attr]
   else primary_keys).
Proof.
  unfold NLToSQLConverter.attribute_loop_body.
  rewrite column_def_is_clause. reflexivity.
Qed.

Lemma er_body_def columns primary_keys attr :
  ERToSQLConverter.attribute_loop_body (columns, primary_keys) attr =
  (columns ++ [column_clause attr],
   if marked_primary_key attr then primary_keys ++ [attr_name attr]
   else primary_keys).
Proof.
  unfold ERToSQLConverter.attribute_loop_body.
  rewrite column_def_is_clause. reflexivity.
Qed.

Lemma primary_key_names_nil (attrs : list Attribute) :
  existsb marked_primary_key attrs = false -> primary_key_names attrs = [].
Proof.
  unfold primary_key_names.
  induction attrs as [|a attrs IH]; cbn [existsb filter map]; [reflexivity|].
  intro H. apply orb_false_iff in H. destruct H as [Ha H].
  rewrite Ha. exact (IH H).
Qed.

Lemma primary_key_names_cons (attrs : list Attribute) :
  existsb marked_primary_key attrs = true ->
  exists n ns, primary_key_names attrs = n :: ns.
Proof.
  unfold primary_key_names.
  induction attrs as [|a attrs IH]; cbn [existsb filter map]; [discriminate|].
  destruct (marked_primary_key a); cbn [map orb]; eauto.
Qed.

Lemma clauses_of_loop (attrs : list Attribute) :
  match primary_key_names attrs with
  | [] => map column_clause attrs
  | _ :: _ =>
      map column_clause attrs
      ++ ["    PRIMARY KEY (" ^^ join ", " (primary_key_names attrs) ^^ ")"]
  end = expected_clauses attrs.
Proof.
  unfold expected_clauses.
  destruct (existsb marked_primary_key attrs) eqn:E.
  - destruct (primary_key_names_cons attrs E) as (n & ns & ->). reflexivity.
  - rewrite (primary_key_names_nil attrs E), app_nil_r. reflexivity.
Qed.

Lemma nl_columns (self : NLToSQLConverter.t) (entity : Entity) :
  NLToSQLConverter.create_table_columns self entity
  = expected_clauses (attributes entity).
Proof.
  unfold NLToSQLConverter.create_table_columns.
  rewrite (attribute_loop _ nl_body_def). cbn [app].
  apply clauses_of_loop.
Qed.

Lemma er_columns (self : ERToSQLConverter.t) (entity : Entity) :
  ERToSQLConverter.create_table_columns self entity
  = expected_clauses (attributes entity).
Proof.
  unfold ERToSQLConverter.create_table_columns.
  rewrite (attribute_loop _ er_body_def). cbn [app].
  apply clauses_of_loop.
Qed.

Lemma create_table_assoc (table_name : string) (clauses : list string) :
  (("CREATE TABLE " ^^ table_name ^^ " (" ^^ LF)
   ^^ join ("," ^^ LF) clauses) ^^ LF ^^ ");" ^^ LF ^^ LF
  = create_table_statement table_name clauses.
Proof.
  unfold create_table_statement.
  rewrite ?append_assoc. cbn [append]. rewrite ?append_assoc. reflexivity.
Qed.

(** C2: for an entity with N attributes, both converters build a
    [CREATE TABLE] statement with exactly N column clauses, the clause of
    an attribute being its name and type followed by [NOT NULL] exactly
    when [is_nullable] is false, plus one [PRIMARY KEY] clause listing the
    primary-key attribute names in attribute order if and only if some
    attribute is marked primary key. *)
Theorem C2_create_table_clauses
  (nl : NLToSQLConverter.t) (er : ERToSQLConverter.t) (entity : Entity) :
  let attrs := attributes entity in
  let column_clauses := map column_clause attrs in
  let pk_clauses :=
    if existsb marked_primary_key attrs
    then [primary_key_clause (map attr_name (filter marked_primary_key attrs))]
    else [] in
  List.length column_clauses = List.length attrs /\
  (forall attr,
      column_clause attr =
      "    " ^^ attr_name attr ^^ " " ^^ attr_type attr
      ^^ match is_nullable attr with
         | Some false => " NOT NULL"
         | _ => ""
         end) /\
  NLToSQLConverter.create_table_columns nl entity
  = column_clauses ++ pk_clauses /\
  ERToSQLConverter.create_table_columns er entity
  = column_clauses ++ pk_clauses /\
  NLToSQLConverter._generate_create_table nl entity
  = create_table_statement (entity_name entity)
      (column_clauses ++ pk_clauses) /\
  ERToSQLConverter._generate_create_table er entity
  = create_table_statement (entity_name entity)
      (column_clauses ++ pk_clauses).
Proof.
  cbv zeta. split; [apply length_map|].
  split.
  { intro attr. unfold column_clause, not_nullable.
    destruct (is_nullable attr) as [[|]|]; reflexivity. }
  split; [apply nl_columns|]. split; [apply er_columns|]. split.
  - unfold NLToSQLConverter._generate_create_table.
    rewrite create_table_assoc, nl_columns. reflexivity.
  - unfold ERToSQLConverter._generate_create_table.
    rewrite create_table_assoc, er_columns. reflexivity.
Qed.

(** Both sides of an equation between concatenations, flattened. *)
Ltac flatten_append :=
  repeat (progress (rewrite ?append_assoc; cbn [append]));
  rewrite ?append_empty_r.

Lemma nl_many_to_many (self : NLToSQLConverter.t) (r : Relationship)
  (e1 e2 : string) :
  rel_type r = Some "many_to_many" ->
  entity1 r = Some e1 -> entity2 r = Some e2 ->
  NLToSQLConverter._generate_relationship self r = junction_table e1 e2.
Proof.
  intros Ht H1 H2. unfold NLToSQLConverter._generate_relationship.
  rewrite Ht, H1, H2. cbn [dict_get]. rewrite String.eqb_refl. cbv zeta.
  unfold junction_table, create_table_statement, junction_column,
    junction_primary_key, junction_foreign_key, join.
  cbn [String.concat]. flatten_append. reflexivity.
Qed.

Lemma er_many_to_many (self : ERToSQLConverter.t) (r : Relationship)
  (e1 e2 : string) :
  rel_type r = Some "many_to_many" ->
  entity1 r = Some e1 -> entity2 r = Some e2 ->
  ERToSQLConverter._generate_relationship self r = junction_table e1 e2.
Proof.
  intros Ht H1 H2. unfold ERToSQLConverter._generate_relationship.
  rewrite Ht, H1, H2. cbn [dict_get]. rewrite String.eqb_refl. cbv zeta.
  unfold junction_table, create_table_statement, junction_column,
    junction_primary_key, junction_foreign_key, join.
  cbn [String.concat]. flatten_append. reflexivity.
Qed.

(** C3: for a many-to-many relationship between [e1] and [e2], both
    converters emit exactly one junction table named [e1_e2] with the two
    columns [e1_id] and [e2_id], both [INTEGER NOT NULL], a composite
    primary key over both, and two foreign keys, one to the [id] column of
    each parent table. *)
Theorem C3_junction_table
  (nl : NLToSQLConverter.t) (er : ERToSQLConverter.t) (r : Relationship)
  (e1 e2 : string) :
  rel_type r = Some "many_to_many" ->
  entity1 r = Some e1 -> entity2 r = Some e2 ->
  NLToSQLConverter._generate_relationship nl r = junction_table e1 e2 /\
  ERToSQLConverter._generate_relationship er r = junction_table e1 e2 /\
  junction_table e1 e2 =
  create_table_statement (e1 ^^ "_" ^^ e2)
    [ "    " ^^ e1 ^^ "_id INTEGER NOT NULL";
      "    " ^^ e2 ^^ "_id INTEGER NOT NULL";
      "    PRIMARY KEY (" ^^ e1 ^^ "_id, " ^^ e2 ^^ "_id)";
      "    FOREIGN KEY (" ^^ e1 ^^ "_id) REFERENCES " ^^ e1 ^^ " (id)";
      "    FOREIGN KEY (" ^^ e2 ^^ "_id) REFERENCES " ^^ e2 ^^ " (id)" ].
Proof.
  intros Ht H1 H2. split; [|split].
  - apply nl_many_to_many; assumption.
  - apply er_many_to_many; assumption.
  - reflexivity.
Qed.

Lemma C3_junction_table_witness :
  NLToSQLConverter._generate_relationship nl_converter
    (sample_relationship "many_to_many") = junction_table "user" "profile" /\
  ERToSQLConverter._generate_relationship er_converter
    (sample_relationship "many_to_many") = junction_table "user" "profile".
Proof.
  pose proof (C3_junction_table nl_converter er_converter
                (sample_relationship "many_to_many") "user" "profile"
                eq_refl eq_refl eq_refl) as H.
  split; [exact (proj1 H) | exact (proj1 (proj2 H))].
Defined.

Lemma nl_no_alter (self : NLToSQLConverter.t) (r : Relationship) (type : string) :
  rel_type r = Some type -> (type =? "many_to_many") = false ->
  NLToSQLConverter._generate_relationship self r = "".
Proof.
  intros Ht Hne. unfold NLToSQLConverter._generate_relationship.
  rewrite Ht. cbn [dict_get]. rewrite Hne.
  destruct (existsb _ _); reflexivity.
Qed.

(** A one-to-one relationship in each converter: the ER-diagram converter
    emits a comment line, then [ALTER TABLE e1 ADD COLUMN e2_id INTEGER
    UNIQUE;], then [ALTER TABLE e1 ADD FOREIGN KEY (e2_id) REFERENCES e2
    (id);]; the natural-language converter returns the empty string. *)
Lemma one_to_one_by_converter
  (nl : NLToSQLConverter.t) (er : ERToSQLConverter.t) (r : Relationship)
  (e1 e2 : string) :
  rel_type r = Some "one_to_one" ->
  entity1 r = Some e1 -> entity2 r = Some e2 ->
  ERToSQLConverter._generate_relationship er r
  = one_to_one_comment ^^ add_unique_column e1 e2
    ^^ add_foreign_key e1 e2 ^^ LF /\
  NLToSQLConverter._generate_relationship nl r = "".
Proof.
  intros Ht H1 H2. split.
  - unfold ERToSQLConverter._generate_relationship.
    rewrite Ht, H1, H2. cbn [dict_get].
    rewrite (eq_refl : ("one_to_one" =? "many_to_many") = false).
    rewrite (eq_refl : ("one_to_one" =? "many_to_one") = false).
    rewrite String.eqb_refl. cbv zeta.
    unfold one_to_one_comment, add_unique_column, add_foreign_key.
    flatten_append. reflexivity.
  - apply (nl_no_alter nl r "one_to_one" Ht). reflexivity.
Qed.

(** C4 at the one-to-one relationship between [user] and [profile]: the
    ER-diagram converter emits the [ALTER TABLE user ADD COLUMN profile_id
    INTEGER UNIQUE;] statement followed by the [ADD FOREIGN KEY]
    statement, as specified; the natural-language converter returns
    the empty string, which holds no [ALTER TABLE] statement. *)
Theorem C4_nl_one_to_one_emits_nothing :
  ERToSQLConverter._generate_relationship er_converter
    (sample_relationship "one_to_one")
  = one_to_one_comment ^^ add_unique_column "user" "profile"
    ^^ add_foreign_key "user" "profile" ^^ LF /\
  NLToSQLConverter._generate_relationship nl_converter
    (sample_relationship "one_to_one") = "" /\
  ~ (exists before after,
        NLToSQLConverter._generate_relationship nl_converter
          (sample_relationship "one_to_one")
        = before ^^ add_unique_column "user" "profile" ^^ after).
Proof.
  split; [|split].
  - exact (proj1 (one_to_one_by_converter nl_converter er_converter
                    (sample_relationship "one_to_one") "user" "profile"
                    eq_refl eq_refl eq_refl)).
  - reflexivity.
  - intros (before & after & H).
    change (NLToSQLConverter._generate_relationship nl_converter
              (sample_relationship "one_to_one")) with "" in H.
    destruct before; discriminate H.
Qed.

Section Accumulate.

(** [for x in l: sql_code += f(x)]. *)
Variables (A : Type) (f : A -> string).

Lemma accumulate_app (before after : list A) (sql_code : string) :
  fold_left (fun acc x => acc ^^ f x) (before ++ after) sql_code
  = fold_left (fun acc x => acc ^^ f x) after
      (fold_left (fun acc x => acc ^^ f x) before sql_code).
Proof. apply fold_left_app. Qed.

Lemma accumulate_skip (before after : list A) (x : A) (sql_code : string) :
  f x = "" ->
  fold_left (fun acc x => acc ^^ f x) (before ++ x :: after) sql_code
  = fold_left (fun acc x => acc ^^ f x) (before ++ after) sql_code.
Proof.
  intro Hx. rewrite !accumulate_app. cbn [fold_left].
  rewrite Hx, append_empty_r. reflexivity.
Qed.

End Accumulate.

Lemma er_one_to_many (self : ERToSQLConverter.t) (r : Relationship) :
  rel_type r = Some "one_to_many" ->
  ERToSQLConverter._generate_relationship self r = "".
Proof.
  intro Ht. unfold ERToSQLConverter._generate_relationship.
  rewrite Ht. reflexivity.
Qed.

(** C5: for a one-to-many relationship both converters return the empty
    string, and the synthesized script is the one obtained without that
    relationship. *)
Theorem C5_one_to_many_emits_nothing
  (nl : NLToSQLConverter.t) (er : ERToSQLConverter.t) (r : Relationship) :
  rel_type r = Some "one_to_many" ->
  NLToSQLConverter._generate_relationship nl r = "" /\
  ERToSQLConverter._generate_relationship er r = "" /\
  (forall ents before after,
      NLToSQLConverter.generate_sql nl
        {| entities := ents; relationships := Some (before ++ r :: after) |}
      = NLToSQLConverter.generate_sql nl
          {| entities := ents; relationships := Some (before ++ after) |}) /\
  (forall ents before after,
      ERToSQLConverter._generate_sql er
        {| entities := ents; relationships := Some (before ++ r :: after) |}
      = ERToSQLConverter._generate_sql er
          {| entities := ents; relationships := Some (before ++ after) |}).
Proof.
  intro Ht.
  assert (Hnl : NLToSQLConverter._generate_relationship nl r = "").
  { apply (nl_no_alter nl r "one_to_many" Ht). reflexivity. }
  assert (Her : ERToSQLConverter._generate_relationship er r = "").
  { apply er_one_to_many, Ht. }
  repeat split; try assumption.
  - intros ents before after.
    unfold NLToSQLConverter.generate_sql.
    cbn [relationships entities dict_get].
    apply accumulate_skip, Hnl.
  - intros ents before after.
    unfold ERToSQLConverter._generate_sql.
    cbn [relationships entities dict_get].
    apply accumulate_skip, Her.
Qed.

Lemma C5_one_to_many_emits_nothing_witness :
  NLToSQLConverter._generate_relationship nl_converter
    (sample_relationship "one_to_many") = "" /\
  ERToSQLConverter._generate_relationship er_converter
    (sample_relationship "one_to_many") = "".
Proof.
  pose proof (C5_one_to_many_emits_nothing nl_converter er_converter
                (sample_relationship "one_to_many") eq_refl) as H.
  split; [exact (proj1 H) | exact (proj1 (proj2 H))].
Defined.

(** ** The executor *)

Section ExecuteFacts.

Context {engine : Engine}.

Lemma executed_statements_app (a b : list event) :
  executed_statements (a ++ b)
  = executed_statements a ++ executed_statements b.
Proof.
  induction a as [|ev a IH]; [reflexivity|].
  destruct ev; cbn [app executed_statements]; rewrite IH; reflexivity.
Qed.

Lemma commit_count_app (a b : list event) :
  commit_count (a ++ b) = commit_count a + commit_count b.
Proof.
  induction a as [|ev a IH]; [reflexivity|].
  destruct ev; cbn [app commit_count]; rewrite IH; reflexivity.
Qed.

Lemma advance_nil (s : Store) : advance s (world s) [] = s.
Proof. destruct s. unfold advance. cbn. rewrite app_nil_r. reflexivity. Qed.

Lemma advance_advance (s : Store) (w1 w2 : World) (e1 e2 : list event) :
  advance (advance s w1 e1) w2 e2 = advance s w2 (e1 ++ e2).
Proof. unfold advance. cbn. rewrite app_assoc. reflexivity. Qed.

Lemma call_advance {A : Type} (ev : event)
  (op : World -> World * result A) (s : Store) (w : World) (r : result A) :
  op (world s) = (w, r) -> call ev op s = (advance s w [ev], r).
Proof. intro H. unfold call. rewrite H. reflexivity. Qed.

(** One statement that succeeds. *)
Lemma step_succeeds (cursor : Cursor) (stmt : string) (s : Store)
  (w1 : World) (rs : list ResultSet) (lg : list string) (evs : list event)
  (results : list ResultSet) (log : list string) :
  statement_succeeds cursor stmt (world s) w1 rs lg evs ->
  try_except (try_statement cursor stmt results log)
    (except_statement stmt log) s
  = (advance s w1 evs, Ok (Completed (results ++ rs) (log ++ lg))).
Proof.
  intro H. unfold try_except, try_statement, bind.
  inversion H as [w1' Hex Hsel | w1' w2 names fetched Hex Hsel Hdesc Hfetch];
    subst.
  - rewrite (call_advance _ _ _ _ _ Hex), Hsel.
    unfold ret. rewrite app_nil_r. reflexivity.
  - rewrite (call_advance _ _ _ _ _ Hex), Hsel.
    cbn [world advance]. rewrite Hdesc.
    assert (Hf : cursor_fetchall cursor
                   (world (advance s w1' [EvExecute stmt]))
                 = (w1, Ok fetched)) by exact Hfetch.
    rewrite (call_advance _ _ _ _ _ Hf), advance_advance.
    unfold ret. rewrite <- app_assoc. reflexivity.
Qed.

(** One statement that raises. *)
Lemma step_raises (cursor : Cursor) (stmt : string) (s : Store)
  (w2 : World) (e : exception) (evs : list event)
  (results : list ResultSet) (log : list string) :
  statement_raises cursor stmt (world s) w2 e evs ->
  try_except (try_statement cursor stmt results log)
    (except_statement stmt log) s
  = (advance s w2 evs,
     Ok (Returned {| success := false; message := str e;
                     log := join LF (log ++ error_lines stmt e);
                     results := None |})).
Proof.
  intro H. unfold try_except, try_statement, bind, except_statement, ret.
  inversion H as [w1 e' Hex | w1 Hex Hsel Hdesc
                 | w1 w2' names e' Hex Hsel Hdesc Hfetch]; subst.
  - rewrite (call_advance _ _ _ _ _ Hex).
    unfold error_lines. rewrite <- app_assoc. reflexivity.
  - rewrite (call_advance _ _ _ _ _ Hex), Hsel.
    cbn [world advance]. rewrite Hdesc.
    unfold error_lines. rewrite <- app_assoc. reflexivity.
  - rewrite (call_advance _ _ _ _ _ Hex), Hsel.
    cbn [world advance]. rewrite Hdesc.
    assert (Hf : cursor_fetchall cursor
                   (world (advance s w1 [EvExecute stmt]))
                 = (w2, Raise e)) by exact Hfetch.
    rewrite (call_advance _ _ _ _ _ Hf), advance_advance.
    unfold error_lines. rewrite <- app_assoc. reflexivity.
Qed.

(** The loop over statements that all succeed. *)
Lemma loop_all_succeed (cursor : Cursor) (statements : list string)
  (w w1 : World) (RS : list ResultSet) (LG : list string)
  (EVS : list event) :
  all_succeed cursor statements w w1 RS LG EVS ->
  Forall (fun stmt => guard_skips stmt = false) statements ->
  forall (s : Store) (results : list ResultSet) (log : list string),
    world s = w ->
    execute_loop cursor statements results log s
    = (advance s w1 EVS, Ok (Completed (results ++ RS) (log ++ LG))).
Proof.
  induction 1 as [w | stmt rest w w1 w2 rs RS lg LG evs EVS Hstep Hrest IH];
    intros Hguard s results log Hw.
  - cbn [execute_loop]. unfold ret. subst w.
    rewrite advance_nil, !app_nil_r. reflexivity.
  - inversion Hguard as [|? ? Hg Hgs]; subst.
    cbn [execute_loop]. unfold guard_skips in Hg. rewrite Hg.
    unfold bind at 1. rewrite (step_succeeds _ _ _ _ _ _ _ _ _ Hstep).
    cbv beta iota.
    rewrite (IH Hgs (advance s w1 evs) _ _ eq_refl), advance_advance.
    rewrite !app_assoc. reflexivity.
Qed.

(** The loop when a statement raises after statements that succeed. *)
Lemma loop_raises (cursor : Cursor) (before after : list string)
  (stmt : string) (w w1 w2 : World) (RS : list ResultSet)
  (LG : list string) (EVS evs : list event) (e : exception) :
  all_succeed cursor before w w1 RS LG EVS ->
  statement_raises cursor stmt w1 w2 e evs ->
  Forall (fun stmt => guard_skips stmt = false) (before ++ [stmt]) ->
  forall (s : Store) (results : list ResultSet) (log : list string),
    world s = w ->
    execute_loop cursor (before ++ stmt :: after) results log s
    = (advance s w2 (EVS ++ evs),
       Ok (Returned {| success := false; message := str e;
                       log := join LF (log ++ LG ++ error_lines stmt e);
                       results := None |})).
Proof.
  intros Hall. revert w2 e evs.
  induction Hall as [w | st rest w w1 w' rs RS lg LG evs0 EVS Hstep Hrest IH];
    intros w2 e evs Hraise Hguard s results log Hw.
  - inversion Hguard as [|? ? Hg _]; subst.
    cbn [app execute_loop]. unfold guard_skips in Hg. rewrite Hg.
    unfold bind at 1. rewrite (step_raises _ _ _ _ _ _ results log Hraise).
    reflexivity.
  - inversion Hguard as [|? ? Hg Hgs]; subst.
    cbn [app execute_loop]. unfold guard_skips in Hg. rewrite Hg.
    unfold bind at 1. rewrite (step_succeeds _ _ _ _ _ _ _ _ _ Hstep).
    cbv beta iota.
    rewrite (IH _ _ _ Hraise Hgs (advance s w1 evs0) _ _ eq_refl).
    rewrite advance_advance, <- !app_assoc. reflexivity.
Qed.

Lemma succeeds_trace (cursor : Cursor) (stmt : string) (w w1 : World)
  (rs : list ResultSet) (lg : list string) (evs : list event) :
  statement_succeeds cursor stmt w w1 rs lg evs ->
  executed_statements evs = [stmt] /\ commit_count evs = 0.
Proof. intro H. inversion H; subst; split; reflexivity. Qed.

Lemma raises_trace (cursor : Cursor) (stmt : string) (w w1 : World)
  (e : exception) (evs : list event) :
  statement_raises cursor stmt w w1 e evs ->
  executed_statements evs = [stmt] /\ commit_count evs = 0.
Proof. intro H. inversion H; subst; split; reflexivity. Qed.

Lemma all_succeed_trace (cursor : Cursor) (statements : list string)
  (w w1 : World) (RS : list ResultSet) (LG : list string)
  (EVS : list event) :
  all_succeed cursor statements w w1 RS LG EVS ->
  executed_statements EVS = statements /\ commit_count EVS = 0.
Proof.
  induction 1 as [w | stmt rest w w1 w2 rs RS lg LG evs EVS Hstep Hrest IH].
  - split; reflexivity.
  - destruct (succeeds_trace _ _ _ _ _ _ _ Hstep) as [He Hc].
    destruct IH as [IHe IHc].
    rewrite executed_statements_app, commit_count_app, He, Hc, IHe, IHc.
    split; reflexivity.
Qed.

(** A statement either succeeds or raises. *)
Lemma statement_outcome (cursor : Cursor) (stmt : string) (w : World) :
  (exists w1 rs lg evs, statement_succeeds cursor stmt w w1 rs lg evs) \/
  (exists w1 e evs, statement_raises cursor stmt w w1 e evs).
Proof.
  destruct (cursor_execute cursor stmt w) as [w1 [[]|e]] eqn:Hex.
  - destruct (is_select stmt) eqn:Hsel.
    + destruct (cursor_description cursor w1) as [names|] eqn:Hdesc.
      * destruct (cursor_fetchall cursor w1) as [w2 [fetched|e]] eqn:Hf.
        -- left. do 4 eexists. eapply succeeds_select; eassumption.
        -- right. do 3 eexists. eapply raises_fetchall; eassumption.
      * right. do 3 eexists. eapply raises_description; eassumption.
    + left. do 4 eexists. eapply succeeds_plain; eassumption.
  - right. do 3 eexists. eapply raises_execute; eassumption.
Qed.

(** Either every statement succeeds, or some statement is the first to
    raise. *)
Lemma statements_outcome (cursor : Cursor) (statements : list string) :
  forall w : World,
    (exists w1 RS LG EVS, all_succeed cursor statements w w1 RS LG EVS) \/
    (exists before stmt after w1 RS LG EVS w2 e evs,
        statements = before ++ stmt :: after /\
        all_succeed cursor before w w1 RS LG EVS /\
        statement_raises cursor stmt w1 w2 e evs).
Proof.
  induction statements as [|stmt rest IH]; intro w.
  - left. do 4 eexists. constructor.
  - destruct (statement_outcome cursor stmt w)
      as [(w1 & rs & lg & evs & Hs) | (w1 & e & evs & Hr)].
    + destruct (IH w1)
        as [(w2 & RS & LG & EVS & Hall)
           | (before & st & after & w2 & RS & LG & EVS & w3 & e & evs'
              & Heq & Hall & Hr)].
      * left. do 4 eexists. econstructor; eassumption.
      * right. exists (stmt :: before), st, after. subst rest.
        do 7 eexists. split; [reflexivity|]. split; [|eassumption].
        econstructor; eassumption.
    + right. exists [], stmt, rest. do 7 eexists.
      split; [reflexivity|]. split; [constructor | eassumption].
Qed.

Lemma connect_unsupported (db_name : option string) (s : Store) :
  is_sqlite (db_engine (self s)) = false ->
  connect db_name s
  = (printed s ("Error connecting to database: "
                ^^ not_implemented_message (db_engine (self s))),
     Ok false).
Proof.
  intro H. unfold connect, try_except, bind, get_self, raise, print, ret.
  rewrite H. reflexivity.
Qed.

Lemma connect_gives_connection (s s0 : Store) :
  connect None s = (s0, Ok true) ->
  exists connection, db_connection (self s0) = Some connection.
Proof.
  unfold connect, try_except, bind, get_self, raise, print, ret, call,
    set_temp_db_file, set_db_connection.
  cbn [truthy].
  destruct (is_sqlite (db_engine (self s))); [|discriminate].
  destruct (NamedTemporaryFile (world s)) as [w1 [f|e]];
    cbn [self world trace stdout]; [|discriminate].
  destruct (sqlite3_connect (temp_file_name f) w1) as [w2 [c|e]];
    cbn [self world trace stdout]; [|discriminate].
  destruct (connection_execute c "PRAGMA foreign_keys = ON" w2)
    as [w3 [u|e]]; cbn [self world trace stdout]; [|discriminate].
  intro H. injection H as <-. exists c. reflexivity.
Qed.

Lemma connection_step_connection (s s0 : Store) :
  connection_step s = (s0, Ok true) ->
  exists connection, db_connection (self s0) = Some connection.
Proof.
  unfold connection_step, bind, get_self.
  destruct (db_connection (self s)) as [c|] eqn:E.
  - unfold ret. intro H. injection H as <-. exists c. exact E.
  - apply connect_gives_connection.
Qed.

Lemma effect_with_world {A : Type} (op : World -> World * result A)
  (s : Store) (w : World) (r : result A) :
  op (world s) = (w, r) -> effect op s = (with_world s w, r).
Proof. intro H. unfold effect. rewrite H. reflexivity. Qed.

(** [execute] up to the cursor: the connection step and [cursor()]. *)
Lemma execute_to_cursor (script : string) (s s0 : Store)
  (connection : Connection) :
  connection_step s = (s0, Ok true) ->
  db_connection (self s0) = Some connection ->
  execute script s
  = match connection_cursor connection (world s0) with
    | (w0, Ok cursor) =>
        (r <- execute_loop cursor (_split_sql_statements script) [] [] ;;
         match r with
         | Returned d => ret d
         | Completed results log =>
             try_except
               (call EvCommit (connection_commit connection) ;;
                ret {| success := true;
                       message := "SQL execution completed successfully";
                       log := join LF log;
                       results := Some results |})
               (fun e =>
                  ret {| success := false; message := str e;
                         log := join LF log; results := None |})
         end) (with_world s0 w0)
    | (w0, Raise e) => (with_world s0 w0, Raise e)
    end.
Proof.
  intros Hstep Hconnection. unfold execute.
  unfold connection_step in Hstep. unfold bind at 1. unfold bind at 1.
  unfold bind at 1 in Hstep. unfold get_self at 1. unfold get_self at 1 in Hstep.
  cbv beta iota in Hstep |- *. rewrite Hstep. cbn [negb].
  unfold bind at 1. unfold get_self at 1. cbv beta iota. rewrite Hconnection.
  unfold bind at 1.
  destruct (connection_cursor connection (world s0)) as [w0 [cursor|e]] eqn:Hc;
    rewrite (effect_with_world _ _ _ _ Hc); reflexivity.
Qed.

(** [cursor()] is outside the [try]: its exception leaves [execute], and
    nothing has been executed. *)
Lemma execute_cursor_raises (script : string) (s s0 : Store)
  (connection : Connection) (w0 : World) (e : exception) :
  connection_step s = (s0, Ok true) ->
  db_connection (self s0) = Some connection ->
  connection_cursor connection (world s0) = (w0, Raise e) ->
  execute script s = (with_world s0 w0, Raise e).
Proof.
  intros Hstep Hconnection Hcursor.
  rewrite (execute_to_cursor script s s0 connection Hstep Hconnection).
  rewrite Hcursor. reflexivity.
Qed.

(** [execute] once the connection has given a cursor. *)
Lemma execute_connected (script : string) (s s0 : Store)
  (connection : Connection) (w0 : World) (cursor : Cursor) :
  connection_step s = (s0, Ok true) ->
  db_connection (self s0) = Some connection ->
  connection_cursor connection (world s0) = (w0, Ok cursor) ->
  execute script s
  = match execute_loop cursor (_split_sql_statements script) [] []
            (with_world s0 w0) with
    | (s1, Ok (Returned d)) => (s1, Ok d)
    | (s1, Ok (Completed results log)) =>
        match connection_commit connection (world s1) with
        | (w2, Ok _) =>
            (advance s1 w2 [EvCommit],
             Ok {| success := true;
                   message := "SQL execution completed successfully";
                   log := join LF log; results := Some results |})
        | (w2, Raise e) =>
            (advance s1 w2 [EvCommit],
             Ok {| success := false; message := str e;
                   log := join LF log; results := None |})
        end
    | (s1, Raise e) => (s1, Raise e)
    end.
Proof.
  intros Hstep Hconnection Hcursor.
  rewrite (execute_to_cursor script s s0 connection Hstep Hconnection).
  rewrite Hcursor. unfold bind at 1.
  destruct (execute_loop cursor (_split_sql_statements script) [] []
              (with_world s0 w0))
    as [s1 [[d|results log]|e]]; try reflexivity.
  unfold try_except, bind, call, ret, advance.
  destruct (connection_commit connection (world s1)) as [w2 [u|e]];
    reflexivity.
Qed.

Lemma execute_not_connected (script : string) (s s0 : Store) :
  connection_step s = (s0, Ok false) ->
  execute script s = (s0, Ok failed_to_connect).
Proof.
  intro Hstep. unfold execute.
  unfold connection_step in Hstep. unfold bind at 1. unfold bind at 1.
  unfold bind at 1 in Hstep. unfold get_self at 1. unfold get_self at 1 in Hstep.
  cbv beta iota in Hstep |- *. rewrite Hstep. reflexivity.
Qed.

End ExecuteFacts.

Lemma not_sqlite (db_engine : option string) :
  db_engine <> Some "sqlite" -> is_sqlite db_engine = false.
Proof.
  destruct db_engine as [name|]; [|reflexivity].
  intro H. cbn [is_sqlite]. apply String.eqb_neq. congruence.
Qed.

(** C1, as the code has it.  Take an executor that holds a connection,
    or whose implicit [connect] returns [True], and whose connection
    gives a cursor.  The statements of the script are given to that
    cursor strictly in order.  If a statement raises, no later statement
    is executed, [commit] is not called, and the result has
    [success = false], the message of that exception and the log up to
    and including the failing statement.  If every statement succeeds,
    [commit] is called exactly once, after the last statement; the result
    has [success = true], the full log and the collected results when
    [commit] returns, and [success = false] with the message of the
    exception and the full log when [commit] raises.  One of the two
    cases always applies. *)
Theorem C1_execute_in_order {engine : Engine}
  (script : string) (s s0 : Store) :
  connection_step s = (s0, Ok true) ->
  let statements := _split_sql_statements script in
  exists connection : Connection,
    db_connection (self s0) = Some connection /\
    forall (w0 : World) (cursor : Cursor),
      connection_cursor connection (world s0) = (w0, Ok cursor) ->
      (forall before stmt after w1 RS LG EVS w2 e evs,
          statements = before ++ stmt :: after ->
          all_succeed cursor before w0 w1 RS LG EVS ->
          statement_raises cursor stmt w1 w2 e evs ->
          execute script s
          = (advance s0 w2 (EVS ++ evs),
             Ok {| success := false; message := str e;
                   log := join LF (LG ++ error_lines stmt e);
                   results := None |}) /\
          executed_statements (EVS ++ evs) = before ++ [stmt] /\
          commit_count (EVS ++ evs) = 0) /\
      (forall w1 RS LG EVS,
          all_succeed cursor statements w0 w1 RS LG EVS ->
          executed_statements (EVS ++ [EvCommit]) = statements /\
          commit_count (EVS ++ [EvCommit]) = 1 /\
          (forall w2,
              connection_commit connection w1 = (w2, Ok tt) ->
              execute script s
              = (advance s0 w2 (EVS ++ [EvCommit]),
                 Ok {| success := true;
                       message := "SQL execution completed successfully";
                       log := join LF LG; results := Some RS |})) /\
          (forall w2 e,
              connection_commit connection w1 = (w2, Raise e) ->
              execute script s
              = (advance s0 w2 (EVS ++ [EvCommit]),
                 Ok {| success := false; message := str e;
                       log := join LF LG; results := None |}))) /\
      ((exists w1 RS LG EVS,
           all_succeed cursor statements w0 w1 RS LG EVS) \/
       (exists before stmt after w1 RS LG EVS w2 e evs,
           statements = before ++ stmt :: after /\
           all_succeed cursor before w0 w1 RS LG EVS /\
           statement_raises cursor stmt w1 w2 e evs)).
Proof.
  intros Hstep statements.
  destruct (connection_step_connection s s0 Hstep)
    as (connection & Hconnection).
  exists connection. split; [exact Hconnection|].
  intros w0 cursor Hcursor.
  pose proof (execute_connected script s s0 connection w0 cursor
                Hstep Hconnection Hcursor) as Hexec.
  fold statements in Hexec.
  assert (Hguard : Forall (fun stmt => guard_skips stmt = false) statements).
  { eapply Forall_impl; [|apply statements_clean].
    intros stmt Hc. apply clean_not_skipped, Hc. }
  split; [|split].
  - intros before stmt after w1 RS LG EVS w2 e evs Heq Hall Hraise.
    split; [|split].
    + rewrite Hexec, Heq.
      assert (Hg : Forall (fun stmt => guard_skips stmt = false)
                     (before ++ [stmt])).
      { rewrite Heq in Hguard. apply Forall_app in Hguard.
        destruct Hguard as [Hb Hs]. apply Forall_app. split; [exact Hb|].
        inversion Hs; subst. constructor; [assumption | constructor]. }
      rewrite (loop_raises cursor before after stmt _ _ _ _ _ _ _ _
                 Hall Hraise Hg (with_world s0 w0) [] [] eq_refl).
      reflexivity.
    + destruct (all_succeed_trace _ _ _ _ _ _ _ Hall) as [He _].
      destruct (raises_trace _ _ _ _ _ _ Hraise) as [Hr _].
      rewrite executed_statements_app, He, Hr. reflexivity.
    + destruct (all_succeed_trace _ _ _ _ _ _ _ Hall) as [_ Hc].
      destruct (raises_trace _ _ _ _ _ _ Hraise) as [_ Hr].
      rewrite commit_count_app, Hc, Hr. reflexivity.
  - intros w1 RS LG EVS Hall.
    destruct (all_succeed_trace _ _ _ _ _ _ _ Hall) as [He Hc].
    assert (Hloop :
              execute_loop cursor statements [] [] (with_world s0 w0)
              = (advance s0 w1 EVS, Ok (Completed RS LG))).
    { exact (loop_all_succeed cursor statements _ _ _ _ _ Hall Hguard
               (with_world s0 w0) [] [] eq_refl). }
    split; [|split; [|split]].
    + rewrite executed_statements_app, He. cbn. apply app_nil_r.
    + rewrite commit_count_app, Hc. reflexivity.
    + intros w2 Hcommit.
      rewrite Hexec, Hloop. cbn [world advance].
      rewrite Hcommit, advance_advance. reflexivity.
    + intros w2 e Hcommit.
      rewrite Hexec, Hloop. cbn [world advance].
      rewrite Hcommit, advance_advance. reflexivity.
  - apply statements_outcome.
Qed.

Lemma C1_execute_in_order_witness :
  @connection_step demo_engine demo_store = (demo_connected, Ok true) /\
  @execute demo_engine not_null_script demo_store
  = (@advance demo_engine demo_connected demo_world
       [EvExecute "CREATE TABLE users (name TEXT NOT NULL);";
        EvExecute "INSERT INTO users VALUES (NULL);"],
     Ok {| success := false;
           message := "NOT NULL constraint failed: users.name";
           log :=
             join LF
               ["Successfully executed: CREATE TABLE users (name TEXT NOT NULL);";
                "Error executing statement: INSERT INTO users VALUES (NULL);";
                "Error message: NOT NULL constraint failed: users.name"];
           results := None |}).
Proof.
  assert (Hstep : @connection_step demo_engine demo_store
                  = (demo_connected, Ok true)) by reflexivity.
  split; [exact Hstep|].
  destruct (@C1_execute_in_order demo_engine not_null_script demo_store
              demo_connected Hstep) as (connection & _ & H).
  destruct connection.
  destruct (H demo_world tt eq_refl) as (Hraise & _).
  refine (proj1 (Hraise
                   ["CREATE TABLE users (name TEXT NOT NULL);"]
                   "INSERT INTO users VALUES (NULL);" ["SELECT 1;"]
                   demo_world []
                   [success_line "CREATE TABLE users (name TEXT NOT NULL);"]
                   [EvExecute "CREATE TABLE users (name TEXT NOT NULL);"]
                   demo_world
                   (IntegrityError "NOT NULL constraint failed: users.name")
                   [EvExecute "INSERT INTO users VALUES (NULL);"]
                   eq_refl _ _)).
  - refine (@all_succeed_cons demo_engine tt
              "CREATE TABLE users (name TEXT NOT NULL);" []
              demo_world demo_world demo_world [] []
              [success_line "CREATE TABLE users (name TEXT NOT NULL);"] []
              [EvExecute "CREATE TABLE users (name TEXT NOT NULL);"] []
              _ (@all_succeed_nil demo_engine tt demo_world)).
    apply (@succeeds_plain demo_engine tt); reflexivity.
  - apply (@raises_execute demo_engine tt); reflexivity.
Defined.

(** C1 as stated fails when [commit] raises: the three
    statements of the script all succeed, yet the result has
    [success = false]. *)
Lemma C1_commit_raises_counterexample :
  (exists w1 RS LG EVS,
      @all_succeed demo_engine tt (_split_sql_statements deferred_fk_script)
        demo_world w1 RS LG EVS) /\
  snd (@execute demo_engine deferred_fk_script demo_store)
  = Ok {| success := false;
          message := "FOREIGN KEY constraint failed";
          log :=
            join LF
              ["Successfully executed: CREATE TABLE parent (id INTEGER PRIMARY KEY);";
               "Successfully executed: CREATE TABLE child (pid INTEGER REFERENCES parent ...";
               "Successfully executed: INSERT INTO child VALUES (1);"];
          results := None |}.
Proof.
  split; [|reflexivity].
  change (_split_sql_statements deferred_fk_script)
    with ["CREATE TABLE parent (id INTEGER PRIMARY KEY);";
          "CREATE TABLE child (pid INTEGER REFERENCES parent (id) DEFERRABLE INITIALLY DEFERRED);";
          "INSERT INTO child VALUES (1);"].
  do 4 eexists.
  eapply all_succeed_cons; [apply succeeds_plain; reflexivity|].
  eapply all_succeed_cons; [apply succeeds_plain; reflexivity|].
  eapply all_succeed_cons; [apply succeeds_plain; reflexivity|].
  apply all_succeed_nil.
Qed.




(** * Further properties *)

(** ** The statement splitter, continued *)

Section SplitterShape.

Lemma last_endswith (c : ascii) (s : string) :
  last_char s = Some c -> endswith (String c "") s = true.
Proof.
  induction s as [|x s IH]; [discriminate|].
  cbn [last_char endswith]. destruct (last_char s) as [d|] eqn:E.
  - intro H. rewrite (IH H). apply orb_true_r.
  - intro H. injection H as ->. apply last_char_none in E. subst s.
    rewrite String.eqb_refl. reflexivity.
Qed.

Lemma endswith_iff_last (c : ascii) (s : string) :
  endswith (String c "") s = true <-> last_char s = Some c.
Proof. split; [apply endswith_last | apply last_endswith]. Qed.

Lemma endswith_same_last (c : ascii) (a b : string) :
  last_char a = last_char b ->
  endswith (String c "") a = endswith (String c "") b.
Proof.
  intro H.
  destruct (endswith (String c "") a) eqn:Ea,
           (endswith (String c "") b) eqn:Eb; try reflexivity.
  - apply endswith_last in Ea. rewrite H in Ea.
    apply last_endswith in Ea. congruence.
  - apply endswith_last in Eb. rewrite <- H in Eb.
    apply last_endswith in Eb. congruence.
Qed.

Lemma last_char_join_snoc (buffer : list string) (line : string) :
  line <> "" -> last_char (join " " (buffer ++ [line])) = last_char line.
Proof.
  intro Hne. destruct buffer as [|x l]; [reflexivity|].
  rewrite join_snoc.
  rewrite last_char_append by (simpl; discriminate).
  change (" " ^^ line) with (String " " line).
  apply last_char_cons, Hne.
Qed.

Lemma prefix_empty (s : string) : prefix "" s = true.
Proof. destruct s; reflexivity. Qed.

Lemma comment_like_join (x : string) (l : list string) :
  x <> "" -> comment_like (join " " (x :: l)) = comment_like x.
Proof.
  intro Hne. destruct l as [|y l]; [reflexivity|].
  rewrite join_cons2. unfold comment_like, startswith.
  destruct x as [|a [|b x]]; [now elim Hne| |].
  - cbn [append prefix].
    destruct (ascii_dec "-" a), (ascii_dec "#" a); try reflexivity.
    all: destruct (ascii_dec "-" _); try discriminate; reflexivity.
  - cbn [append prefix].
    destruct (ascii_dec "-" a), (ascii_dec "#" a), (ascii_dec "-" b);
      rewrite ?prefix_empty; reflexivity.
Qed.

Lemma kept_line (raw : string) :
  ~ occurs newline raw ->
  SplitterSpec.skipped (strip raw) = false ->
  clean_statement (strip raw) /\ comment_like (strip raw) = false.
Proof.
  intros Hraw Hskip. unfold SplitterSpec.skipped in Hskip.
  apply orb_false_iff in Hskip. destruct Hskip as [Hskip Hhash].
  apply orb_false_iff in Hskip. destruct Hskip as [Hempty Hdash].
  split.
  - split; [apply is_empty_false, Hempty|].
    split; [apply strip_trimmed|].
    intro Hc. apply Hraw, occurs_strip, Hc.
  - unfold comment_like. rewrite Hdash, Hhash. reflexivity.
Qed.

Lemma buffer_ok_snoc (buffer : list string) (line : string) :
  buffer_ok buffer -> clean_statement line -> comment_like line = false ->
  buffer_ok (buffer ++ [line]).
Proof.
  intros [Hall Hfirst] Hclean Hcomment. split.
  - apply Forall_app. split; [exact Hall | constructor; [exact Hclean | constructor]].
  - destruct buffer; [exact Hcomment | exact Hfirst].
Qed.

Lemma flushed_statement (buffer : list string) :
  buffer <> [] -> buffer_ok buffer ->
  clean_statement (join " " buffer) /\ comment_like (join " " buffer) = false.
Proof.
  intros Hne [Hall Hfirst]. destruct buffer as [|x l]; [now elim Hne|].
  split; [apply join_clean, Hall|].
  rewrite comment_like_join; [exact Hfirst|].
  inversion Hall as [|? ? Hx _]; subst. apply Hx.
Qed.

Lemma spec_lines_shape (lines : list string) :
  forall buffer,
    Forall (fun l => ~ occurs newline l) lines ->
    buffer_ok buffer ->
    well_split (SplitterSpec.split_lines buffer lines).
Proof.
  induction lines as [|raw rest IH]; intros buffer Hlines Hbuf.
  - cbn [SplitterSpec.split_lines]. destruct buffer as [|x l]; [exact I|].
    destruct (flushed_statement (x :: l)) as [Hc Hn];
      [discriminate | exact Hbuf |].
    cbn [well_split]. repeat split; try apply Hc; auto.
  - inversion Hlines as [|? ? Hraw Hrest]; subst.
    cbn [SplitterSpec.split_lines].
    destruct (SplitterSpec.skipped (strip raw)) eqn:Hskip.
    + apply IH; assumption.
    + destruct (kept_line raw Hraw Hskip) as [Hclean Hcomment].
      pose proof (buffer_ok_snoc buffer (strip raw) Hbuf Hclean Hcomment)
        as Hbuf'.
      destruct (endswith ";" (strip raw)) eqn:Hend.
      * destruct (flushed_statement (buffer ++ [strip raw])) as [Hc Hn];
          [destruct buffer; discriminate | exact Hbuf' |].
        cbn [well_split]. split; [exact Hc|]. split; [exact Hn|]. split.
        -- right.
           rewrite (endswith_same_last ";" _ (strip raw)); [exact Hend|].
           apply last_char_join_snoc, Hclean.
        -- apply IH; [assumption|]. split; [constructor | exact I].
      * apply IH; assumption.
Qed.

Lemma statements_shape (script : string) :
  well_split (_split_sql_statements script).
Proof.
  rewrite splitter_refines. apply spec_lines_shape.
  - apply split_no_sep.
  - split; [constructor | exact I].
Qed.

(** Statements of that shape, one per line, are split into themselves. *)
Lemma well_split_fixed (statements : list string) :
  well_split statements -> SplitterSpec.split_lines [] statements = statements.
Proof.
  induction statements as [|stmt rest IH]; [reflexivity|].
  cbn [well_split]. intros (Hclean & Hcomment & Hlast & Hrest).
  destruct Hclean as (Hne & Ht & Hnl).
  cbn [SplitterSpec.split_lines]. rewrite (strip_fixed stmt Ht).
  assert (Hskip : SplitterSpec.skipped stmt = false).
  { unfold SplitterSpec.skipped. unfold comment_like in Hcomment.
    apply orb_false_iff in Hcomment. destruct Hcomment as [-> ->].
    apply is_empty_false in Hne. rewrite Hne. reflexivity. }
  rewrite Hskip. destruct (endswith ";" stmt) eqn:Hend.
  - cbn [app]. rewrite (IH Hrest). reflexivity.
  - destruct Hlast as [-> | Habs]; [reflexivity | discriminate Habs].
Qed.

Lemma split_line_append (a b : string) :
  ~ occurs newline a ->
  split newline (a ^^ String newline b) = a :: split newline b.
Proof.
  induction a as [|x a IH]; intro Hno.
  - reflexivity.
  - cbn [append split]. cbn [occurs] in Hno.
    destruct (Ascii.eqb x newline) eqn:E.
    + apply Ascii.eqb_eq in E. tauto.
    + rewrite IH by tauto. reflexivity.
Qed.

Lemma split_one_line (a : string) :
  ~ occurs newline a -> split newline a = [a].
Proof.
  induction a as [|x a IH]; intro Hno; [reflexivity|].
  cbn [split]. cbn [occurs] in Hno.
  destruct (Ascii.eqb x newline) eqn:E.
  - apply Ascii.eqb_eq in E. tauto.
  - rewrite IH by tauto. reflexivity.
Qed.

Lemma split_join_lines (x : string) (l : list string) :
  Forall (fun s => ~ occurs newline s) (x :: l) ->
  split newline (join LF (x :: l)) = x :: l.
Proof.
  revert x. induction l as [|y l IH]; intros x H.
  - inversion H; subst. apply split_one_line. assumption.
  - inversion H as [|? ? Hx Hrest]; subst.
    rewrite join_cons2. change (LF ^^ join LF (y :: l))
      with (String newline (join LF (y :: l))).
    rewrite split_line_append by exact Hx.
    rewrite IH by exact Hrest. reflexivity.
Qed.

Lemma well_split_no_newline (statements : list string) :
  well_split statements ->
  Forall (fun s => ~ occurs newline s) statements.
Proof.
  induction statements as [|stmt rest IH]; [constructor|].
  cbn [well_split]. intros ((_ & _ & Hnl) & _ & _ & Hrest).
  constructor; [exact Hnl | exact (IH Hrest)].
Qed.

Lemma well_split_resplit (statements : list string) :
  well_split statements ->
  _split_sql_statements (join LF statements) = statements.
Proof.
  intro H. rewrite splitter_refines. unfold SplitterSpec.split_statements.
  destruct statements as [|x l]; [reflexivity|].
  rewrite split_join_lines by (apply well_split_no_newline, H).
  apply well_split_fixed, H.
Qed.

Lemma spec_lines_nil (lines : list string) :
  forall buffer,
    SplitterSpec.split_lines buffer lines = [] <->
    buffer = [] /\
    Forall (fun line => SplitterSpec.skipped (strip line) = true) lines.
Proof.
  induction lines as [|raw rest IH]; intro buffer.
  - cbn [SplitterSpec.split_lines]. destruct buffer; split.
    + intros _. split; [reflexivity | constructor].
    + reflexivity.
    + discriminate.
    + intros [H _]. discriminate H.
  - cbn [SplitterSpec.split_lines].
    destruct (SplitterSpec.skipped (strip raw)) eqn:Hskip.
    + rewrite IH. split; intros [Hb Hall]; (split; [exact Hb|]).
      * constructor; assumption.
      * inversion Hall; assumption.
    + destruct (endswith ";" (strip raw)).
      * split; [discriminate|]. intros [_ Hall].
        inversion Hall; congruence.
      * rewrite IH. split.
        -- intros [Hb _]. destruct buffer; discriminate Hb.
        -- intros [_ Hall]. inversion Hall; congruence.
Qed.

End SplitterShape.

(** X1: splitting is idempotent: the statements of a script, written one
    per line, are split into themselves. *)
Theorem X1_resplit_is_identity (script : string) :
  _split_sql_statements (join LF (_split_sql_statements script))
  = _split_sql_statements script.
Proof. apply well_split_resplit, statements_shape. Qed.

(** X2: every statement the splitter returns but the last ends in a
    semicolon, and no returned statement begins with two dashes or a
    hash. *)
Theorem X2_statements_terminated (script : string) (before after : list string)
  (stmt : string) :
  _split_sql_statements script = before ++ stmt :: after ->
  comment_like stmt = false /\
  (after <> [] -> endswith ";" stmt = true).
Proof.
  intro Heq. pose proof (statements_shape script) as H. rewrite Heq in H.
  clear Heq. induction before as [|b before IH].
  - cbn [app well_split] in H. destruct H as (_ & Hc & Hlast & _).
    split; [exact Hc|]. intro Hne. destruct Hlast as [E|E]; [contradiction | exact E].
  - cbn [app well_split] in H. apply IH, H.
Qed.

Lemma X2_statements_terminated_witness :
  _split_sql_statements two_statement_script = [] ++ "SELECT 1;" :: ["SELECT 2"] /\
  comment_like "SELECT 1;" = false /\
  endswith ";" "SELECT 1;" = true.
Proof.
  assert (Heq : _split_sql_statements two_statement_script
                = [] ++ "SELECT 1;" :: ["SELECT 2"]) by (vm_compute; reflexivity).
  split; [exact Heq|].
  destruct (X2_statements_terminated two_statement_script [] ["SELECT 2"]
              "SELECT 1;" Heq) as [Hc Hend].
  split; [exact Hc|]. apply Hend. discriminate.
Defined.

(** X3: the splitter returns no statement exactly when every line of the
    script is blank or a comment; the empty script is such a script. *)
Theorem X3_no_statement_iff_only_comments (script : string) :
  (_split_sql_statements script = [] <-> only_comments script) /\
  _split_sql_statements "" = [].
Proof.
  split; [|reflexivity].
  rewrite splitter_refines. unfold SplitterSpec.split_statements, only_comments.
  rewrite spec_lines_nil. tauto.
Qed.

(** ** The executor, continued *)

Section ConnectFacts.

Context {engine : Engine}.

(** Every way [connect] can go, one engine call after the other. *)
Ltac connect_cases :=
  unfold connect, try_except, bind, get_self, raise, print, ret, call,
    set_temp_db_file, set_db_connection;
  repeat match goal with
    | |- context [if is_sqlite ?e then _ else _] =>
        destruct (is_sqlite e) eqn:?
    | |- context [if truthy ?n then _ else _] => destruct (truthy n) eqn:?
    | |- context [NamedTemporaryFile ?w] =>
        destruct (NamedTemporaryFile w) as [? [?|?]] eqn:?
    | |- context [sqlite3_connect ?p ?w] =>
        destruct (sqlite3_connect p w) as [? [?|?]] eqn:?
    | |- context [connection_execute ?c ?q ?w] =>
        destruct (connection_execute c q w) as [? [?|?]] eqn:?
    | _ => progress cbn [self world trace stdout db_engine db_connection
                          temp_db_file]
    end.

Lemma connect_returns (db_name : option string) (s : Store) :
  exists s' b,
    connect db_name s = (s', Ok b) /\
    db_engine (self s') = db_engine (self s) /\
    if b then
      stdout s' = stdout s /\ exists c, db_connection (self s') = Some c
    else
      exists e,
        stdout s' = stdout s ++ ["Error connecting to database: " ^^ str e].
Proof.
  connect_cases; do 2 eexists; (split; [reflexivity|]);
    (split; [reflexivity|]); cbn [self stdout db_connection]; eauto.
Qed.

Lemma connect_success (db_name : option string) (s s' : Store) :
  connect db_name s = (s', Ok true) ->
  is_sqlite (db_engine (self s)) = true /\
  if truthy db_name then
    temp_db_file (self s') = temp_db_file (self s) /\
    trace s' = trace s ++ [EvConnect (dict_get db_name "");
                           EvConnectionExecute "PRAGMA foreign_keys = ON"]
  else
    exists f,
      temp_db_file (self s') = Some f /\
      trace s' = trace s ++ [EvNamedTemporaryFile;
                             EvConnect (temp_file_name f);
                             EvConnectionExecute "PRAGMA foreign_keys = ON"].
Proof.
  connect_cases; intro H; try discriminate H; injection H as <-;
    (split; [reflexivity|]); cbn [self trace temp_db_file].
  - split; [reflexivity|]. rewrite <- app_assoc. reflexivity.
  - eexists. split; [reflexivity|]. rewrite <- !app_assoc. reflexivity.
Qed.

(** [connect] when the connection is opened and the [PRAGMA] raises, with
    a name or on a temporary file. *)
Lemma connect_pragma_raises (db_name : option string) (s : Store)
  (w1 w2 : World) (file : option TempFile) (c : Connection)
  (e : exception) :
  is_sqlite (db_engine (self s)) = true ->
  (if truthy db_name then
     file = temp_db_file (self s) /\
     sqlite3_connect (dict_get db_name "") (world s) = (w1, Ok c)
   else
     exists w0 f,
       NamedTemporaryFile (world s) = (w0, Ok f) /\ file = Some f /\
       sqlite3_connect (temp_file_name f) w0 = (w1, Ok c)) ->
  connection_execute c "PRAGMA foreign_keys = ON" w1 = (w2, Raise e) ->
  exists s',
    connect db_name s = (s', Ok false) /\
    db_connection (self s') = Some c /\
    temp_db_file (self s') = file /\
    stdout s' = stdout s ++ ["Error connecting to database: " ^^ str e] /\
    connection_step s' = (s', Ok true).
Proof.
  intros Hsql Hopen Hpragma.
  unfold connect, try_except, bind, get_self, raise, print, ret, call,
    set_temp_db_file, set_db_connection.
  rewrite Hsql.
  destruct (truthy db_name).
  - destruct Hopen as [-> Hconn].
    rewrite Hconn. cbn [self world trace stdout]. rewrite Hpragma.
    eexists. split; [reflexivity|]. cbn [self db_connection stdout].
    repeat (split; [reflexivity|]).
    unfold connection_step, bind, get_self, ret. reflexivity.
  - destruct Hopen as (w0 & f & Hfile & -> & Hconn).
    rewrite Hfile. cbn [self world trace stdout].
    rewrite Hconn. cbn [self world trace stdout]. rewrite Hpragma.
    eexists. split; [reflexivity|]. cbn [self db_connection stdout].
    repeat (split; [reflexivity|]).
    unfold connection_step, bind, get_self, ret. reflexivity.
Qed.

(** What a [connect] that returns [True] has opened. *)
Lemma connect_opened (db_name : option string) (s s' : Store) :
  connect db_name s = (s', Ok true) ->
  exists name w0 w1 c u,
    sqlite3_connect name w0 = (w1, Ok c) /\
    connection_execute c "PRAGMA foreign_keys = ON" w1 = (world s', Ok u) /\
    db_connection (self s') = Some c.
Proof.
  connect_cases; intro H; try discriminate H; injection H as <-;
    cbn [self world db_connection]; do 5 eexists;
    (split; [eassumption|]); (split; [eassumption | reflexivity]).
Qed.

Lemma connection_step_returns (s : Store) :
  exists s0 b, connection_step s = (s0, Ok b).
Proof.
  unfold connection_step, bind, get_self.
  destruct (db_connection (self s)).
  - do 2 eexists. reflexivity.
  - destruct (connect_returns None s) as (s' & b & H & _).
    exists s', b. exact H.
Qed.

End ConnectFacts.


(** X5: when [connect] returns [True] the engine is ["sqlite"] and the
    calls made are, for a non-empty [db_name], [sqlite3.connect(db_name)]
    and the [PRAGMA], with [temp_db_file] untouched; for no or an empty
    [db_name], the creation of a temporary file, [sqlite3.connect] on its
    name and the [PRAGMA], with that file kept in [temp_db_file]. *)
Theorem X5_connect_success {engine : Engine}
  (db_name : option string) (s s' : Store) :
  connect db_name s = (s', Ok true) ->
  is_sqlite (db_engine (self s)) = true /\
  if truthy db_name then
    temp_db_file (self s') = temp_db_file (self s) /\
    trace s' = trace s ++ [EvConnect (dict_get db_name "");
                           EvConnectionExecute "PRAGMA foreign_keys = ON"]
  else
    exists f,
      temp_db_file (self s') = Some f /\
      trace s' = trace s ++ [EvNamedTemporaryFile;
                             EvConnect (temp_file_name f);
                             EvConnectionExecute "PRAGMA foreign_keys = ON"].
Proof. apply connect_success. Qed.

Lemma X5_connect_success_witness :
  @connect demo_engine (Some "") demo_store = (demo_connected, Ok true) /\
  exists f,
    temp_db_file (self demo_connected) = Some f /\
    trace demo_connected
    = trace demo_store ++ [EvNamedTemporaryFile;
                           EvConnect (@temp_file_name demo_engine f);
                           EvConnectionExecute "PRAGMA foreign_keys = ON"].
Proof.
  assert (H : @connect demo_engine (Some "") demo_store
              = (demo_connected, Ok true)) by reflexivity.
  split; [exact H|].
  exact (proj2 (@X5_connect_success demo_engine (Some "") demo_store
                  demo_connected H)).
Defined.

(** X6: when [sqlite3.connect] succeeds and the [PRAGMA] raises,
    [connect] returns [False] and prints the error, yet leaves the new
    connection in [db_connection] (and, when it connected to a temporary
    database, the file in [temp_db_file]), whether a name was given or
    not.  The [execute] whose implicit [connect] this was returns
    [Failed to connect to database]; a later [execute] finds the
    connection and does not connect again. *)
Theorem X6_failed_pragma_keeps_connection {engine : Engine}
  (db_name : option string) (s : Store) (w1 w2 : World)
  (file : option TempFile) (c : Connection) (e : exception) :
  is_sqlite (db_engine (self s)) = true ->
  (if truthy db_name then
     file = temp_db_file (self s) /\
     sqlite3_connect (dict_get db_name "") (world s) = (w1, Ok c)
   else
     exists w0 f,
       NamedTemporaryFile (world s) = (w0, Ok f) /\ file = Some f /\
       sqlite3_connect (temp_file_name f) w0 = (w1, Ok c)) ->
  connection_execute c "PRAGMA foreign_keys = ON" w1 = (w2, Raise e) ->
  exists s',
    connect db_name s = (s', Ok false) /\
    db_connection (self s') = Some c /\
    temp_db_file (self s') = file /\
    stdout s' = stdout s ++ ["Error connecting to database: " ^^ str e] /\
    connection_step s' = (s', Ok true) /\
    (db_name = None -> db_connection (self s) = None ->
     forall script, execute script s = (s', Ok failed_to_connect)).
Proof.
  intros Hsql Hopen Hpragma.
  destruct (connect_pragma_raises db_name s w1 w2 file c e
              Hsql Hopen Hpragma)
    as (s' & Hc & Hdb & Hfile & Hout & Hstep).
  exists s'. repeat (split; [assumption|]).
  intros -> Hnone script. apply execute_not_connected.
  unfold connection_step, bind, get_self. rewrite Hnone. exact Hc.
Qed.

Lemma X6_failed_pragma_keeps_connection_witness :
  @connect pragma_failing_engine None pragma_failing_store
  = (pragma_failing_connected, Ok false) /\
  @execute pragma_failing_engine "SELECT 1;" pragma_failing_store
  = (pragma_failing_connected, Ok failed_to_connect) /\
  @connection_step pragma_failing_engine pragma_failing_connected
  = (pragma_failing_connected, Ok true).
Proof.
  destruct (@X6_failed_pragma_keeps_connection pragma_failing_engine
              None pragma_failing_store demo_world demo_world
              (Some "/tmp/tmpq1w2e3.db") tt
              (OperationalError "database is locked")
              eq_refl
              (ex_intro _ demo_world
                 (ex_intro _ "/tmp/tmpq1w2e3.db"
                    (conj eq_refl (conj eq_refl eq_refl))))
              eq_refl)
    as (s' & Hc & _ & _ & _ & Hstep & Hexec).
  assert (E : s' = pragma_failing_connected).
  { assert (H : @connect pragma_failing_engine None pragma_failing_store
                = (pragma_failing_connected, Ok false)) by reflexivity.
    rewrite H in Hc. injection Hc as <-. reflexivity. }
  subst s'.
  split; [exact Hc|]. split; [exact (Hexec eq_refl eq_refl _) | exact Hstep].
Defined.

Section ExecuteOutcome.

Context {engine : Engine}.

Lemma statements_not_skipped (script : string) :
  Forall (fun stmt => guard_skips stmt = false)
    (_split_sql_statements script).
Proof.
  eapply Forall_impl; [|apply statements_clean].
  intros stmt Hc. apply clean_not_skipped, Hc.
Qed.

(** The ways [execute] can go. *)
Lemma execute_cases (script : string) (s : Store) :
  (exists s0,
      connection_step s = (s0, Ok false) /\
      execute script s = (s0, Ok failed_to_connect)) \/
  (exists s0 connection w0,
      connection_step s = (s0, Ok true) /\
      db_connection (self s0) = Some connection /\
      ((exists e,
           connection_cursor connection (world s0) = (w0, Raise e) /\
           execute script s = (with_world s0 w0, Raise e)) \/
       (exists cursor,
           connection_cursor connection (world s0) = (w0, Ok cursor) /\
           ((exists w1 RS LG EVS w2 r,
                all_succeed cursor (_split_sql_statements script) w0
                  w1 RS LG EVS /\
                connection_commit connection w1 = (w2, r) /\
                execute script s
                = (advance s0 w2 (EVS ++ [EvCommit]),
                   Ok match r with
                      | Ok _ =>
                          {| success := true;
                             message :=
                               "SQL execution completed successfully";
                             log := join LF LG; results := Some RS |}
                      | Raise e =>
                          {| success := false; message := str e;
                             log := join LF LG; results := None |}
                      end)) \/
            (exists before stmt after w1 RS LG EVS w2 e evs,
                _split_sql_statements script = before ++ stmt :: after /\
                all_succeed cursor before w0 w1 RS LG EVS /\
                statement_raises cursor stmt w1 w2 e evs /\
                execute script s
                = (advance s0 w2 (EVS ++ evs),
                   Ok {| success := false; message := str e;
                         log := join LF (LG ++ error_lines stmt e);
                         results := None |})))))).
Proof.
  destruct (connection_step_returns s) as (s0 & [|] & Hstep).
  - right.
    destruct (connection_step_connection s s0 Hstep)
      as (connection & Hconnection).
    destruct (connection_cursor connection (world s0))
      as [w0 [cursor|e]] eqn:Hcursor.
    + exists s0, connection, w0.
      split; [exact Hstep|]. split; [exact Hconnection|].
      right. exists cursor. split; [exact Hcursor|].
      pose proof (statements_not_skipped script) as Hguard.
      pose proof (execute_connected script s s0 connection w0 cursor
                    Hstep Hconnection Hcursor) as Hexec.
      destruct (statements_outcome cursor (_split_sql_statements script) w0)
        as [(w1 & RS & LG & EVS & Hall)
           | (before & stmt & after & w1 & RS & LG & EVS & w2 & e & evs
              & Heq & Hall & Hraise)].
      * left. destruct (connection_commit connection w1) as [w2 r] eqn:Hcommit.
        exists w1, RS, LG, EVS, w2, r.
        split; [exact Hall|]. split; [exact Hcommit|].
        rewrite Hexec.
        rewrite (loop_all_succeed cursor _ _ _ _ _ _ Hall Hguard
                   (with_world s0 w0) [] [] eq_refl).
        cbn [world advance app]. rewrite Hcommit, advance_advance.
        destruct r; reflexivity.
      * right. exists before, stmt, after, w1, RS, LG, EVS, w2, e, evs.
        split; [exact Heq|]. split; [exact Hall|]. split; [exact Hraise|].
        rewrite Hexec, Heq.
        assert (Hg : Forall (fun stmt => guard_skips stmt = false)
                       (before ++ [stmt])).
        { rewrite Heq in Hguard. apply Forall_app in Hguard.
          destruct Hguard as [Hb Hs]. apply Forall_app. split; [exact Hb|].
          inversion Hs; subst. constructor; [assumption | constructor]. }
        rewrite (loop_raises cursor before after stmt _ _ _ _ _ _ _ _
                   Hall Hraise Hg (with_world s0 w0) [] [] eq_refl).
        reflexivity.
    + exists s0, connection, w0.
      split; [exact Hstep|]. split; [exact Hconnection|].
      left. exists e. split; [exact Hcursor|].
      apply (execute_cursor_raises script s s0 connection w0 e
               Hstep Hconnection Hcursor).
  - left. exists s0. split; [exact Hstep|].
    apply execute_not_connected, Hstep.
Qed.

Lemma all_succeed_results (cursor : Cursor) (statements : list string)
  (w w1 : World) (RS : list ResultSet) (LG : list string)
  (EVS : list event) :
  all_succeed cursor statements w w1 RS LG EVS ->
  List.length RS = List.length (filter is_select statements) /\
  List.length LG
  = List.length statements + List.length (filter is_select statements).
Proof.
  induction 1 as [w | stmt rest w w1 w2 rs RS lg LG evs EVS Hstep Hrest IH].
  - split; reflexivity.
  - destruct IH as [IHr IHl]. cbn [filter].
    rewrite !length_app, IHr, IHl.
    inversion Hstep as [? Hex Hsel | ? ? ? ? Hex Hsel Hd Hf]; subst;
      rewrite Hsel; cbn [List.length]; split; lia.
Qed.

End ExecuteOutcome.


(** X8: when [execute] reports success, every statement of the script
    was given to the cursor, in order, [commit] was called exactly once,
    as the last call, and [results] holds exactly one entry per statement
    that is a [SELECT]. *)
Theorem X8_execute_success {engine : Engine}
  (script : string) (s s' : Store) (d : ExecutionResult) :
  execute script s = (s', Ok d) ->
  success d = true ->
  message d = "SQL execution completed successfully" /\
  exists s0 RS evs,
    connection_step s = (s0, Ok true) /\
    results d = Some RS /\
    List.length RS
    = List.length (filter is_select (_split_sql_statements script)) /\
    trace s' = trace s0 ++ evs ++ [EvCommit] /\
    executed_statements evs = _split_sql_statements script /\
    commit_count evs = 0.
Proof.
  intros Hexec Hsuccess.
  destruct (execute_cases script s)
    as [(s0 & Hstep & Hex)
       | (s0 & connection & w0 & Hstep & Hconnection &
          [(e & Hcursor & Hex)
          | (cursor & Hcursor &
             [(w1 & RS & LG & EVS & w2 & r & Hall & Hcommit & Hex)
             | (before & stmt & after & w1 & RS & LG & EVS & w2 & e & evs
                & Heq & Hall & Hraise & Hex)])])];
    rewrite Hex in Hexec; try discriminate Hexec;
    injection Hexec as <- <-; try discriminate Hsuccess.
  destruct r as [u|e]; [|discriminate Hsuccess].
  split; [reflexivity|]. exists s0, RS, EVS.
  destruct (all_succeed_trace _ _ _ _ _ _ _ Hall) as [He Hc].
  destruct (all_succeed_results _ _ _ _ _ _ _ Hall) as [Hr _].
  repeat split; assumption.
Qed.


Lemma X8_execute_success_witness :
  @execute demo_engine three_line_script demo_store
  = (@advance demo_engine demo_connected
       {| pending_violations := 0; last_was_select := true |}
       [EvExecute "SELECT 1;"; EvFetchall; EvExecute "SELECT 2;";
        EvFetchall; EvCommit],
     Ok two_selects_result) /\
  exists RS, @results demo_engine two_selects_result = Some RS /\
             List.length RS = 2.
Proof.
  assert (Hexec :
            @execute demo_engine three_line_script demo_store
            = (@advance demo_engine demo_connected
                 {| pending_violations := 0; last_was_select := true |}
                 [EvExecute "SELECT 1;"; EvFetchall; EvExecute "SELECT 2;";
                  EvFetchall; EvCommit],
               Ok two_selects_result)) by reflexivity.
  split; [exact Hexec|].
  destruct (@X8_execute_success demo_engine three_line_script demo_store
              _ two_selects_result Hexec eq_refl)
    as (_ & s0 & RS & evs & _ & Hr & Hlen & _).
  exists RS. split; [exact Hr|]. rewrite Hlen. reflexivity.
Defined.

(** X9: on a script whose lines are all blank or comments, a connected
    executor whose connection gives a cursor hands no statement to that
    cursor and still commits, once; when the commit returns, the result
    is a success with an empty log and an empty list of results, and when
    it raises, a failure with the message of the exception. *)
Theorem X9_execute_empty_script {engine : Engine}
  (script : string) (s s0 : Store) :
  connection_step s = (s0, Ok true) ->
  only_comments script ->
  exists connection,
    db_connection (self s0) = Some connection /\
    forall w0 cursor w2 r,
      connection_cursor connection (world s0) = (w0, Ok cursor) ->
      connection_commit connection w0 = (w2, r) ->
      execute script s
      = (advance s0 w2 [EvCommit],
         Ok match r with
            | Ok _ =>
                {| success := true;
                   message := "SQL execution completed successfully";
                   log := ""; results := Some [] |}
            | Raise e =>
                {| success := false; message := str e;
                   log := ""; results := None |}
            end).
Proof.
  intros Hstep Honly.
  destruct (connection_step_connection s s0 Hstep)
    as (connection & Hconnection).
  exists connection. split; [exact Hconnection|].
  intros w0 cursor w2 r Hcursor Hcommit.
  assert (Hnil : _split_sql_statements script = []).
  { rewrite splitter_refines. unfold SplitterSpec.split_statements.
    apply spec_lines_nil. split; [reflexivity | exact Honly]. }
  rewrite (execute_connected script s s0 connection w0 cursor
             Hstep Hconnection Hcursor), Hnil.
  cbn [execute_loop]. unfold ret at 1. cbn [world with_world].
  rewrite Hcommit. destruct r; reflexivity.
Qed.

Lemma X9_execute_empty_script_witness :
  @execute demo_engine ("-- nothing" ^^ LF ^^ "   " ^^ LF ^^ "# to do")
    demo_store
  = (@advance demo_engine demo_connected demo_world [EvCommit],
     Ok {| success := true;
           message := "SQL execution completed successfully";
           log := ""; results := Some [] |}).
Proof.
  assert (Hstep : @connection_step demo_engine demo_store
                  = (demo_connected, Ok true)) by reflexivity.
  assert (Honly : only_comments
                    ("-- nothing" ^^ LF ^^ "   " ^^ LF ^^ "# to do")).
  { repeat constructor. }
  destruct (@X9_execute_empty_script demo_engine _ demo_store demo_connected
              Hstep Honly) as (connection & _ & H).
  destruct connection.
  exact (H demo_world tt demo_world (Ok tt) eq_refl eq_refl).
Defined.

(** ** [disconnect] and the route *)

Section DisconnectFacts.

Context {engine : Engine} {cleanup : Cleanup engine}.

Ltac disconnect_cases :=
  unfold disconnect, bind, get_self, ret, effect, set_db_connection,
    set_temp_db_file;
  repeat match goal with
    | |- context [match db_connection ?x with _ => _ end] =>
        destruct (db_connection x) eqn:?
    | |- context [match temp_db_file ?x with _ => _ end] =>
        destruct (temp_db_file x) eqn:?
    | |- context [connection_close ?c ?w] =>
        destruct (connection_close c w) as [? [[]|?]] eqn:?
    | |- context [os_unlink ?p ?w] =>
        destruct (os_unlink p w) as [? [[]|?]] eqn:?
    | |- context [if os_path_exists ?p ?w then _ else _] =>
        destruct (os_path_exists p w) eqn:?
    | _ => progress cbn [self world trace stdout db_engine db_connection
                          temp_db_file]
    end.

Lemma disconnect_returned (s s' : Store) :
  disconnect s = (s', Ok tt) ->
  db_connection (self s') = None /\
  db_engine (self s') = db_engine (self s) /\
  (temp_db_file (self s') = None \/
   temp_db_file (self s') = temp_db_file (self s)) /\
  trace s' = trace s /\ stdout s' = stdout s.
Proof.
  disconnect_cases; intro H; try discriminate H; injection H as <-;
    cbn [self trace stdout db_engine db_connection temp_db_file];
    repeat split; auto.
Qed.

Lemma disconnect_nothing (s : Store) :
  db_connection (self s) = None -> temp_db_file (self s) = None ->
  disconnect s = (s, Ok tt).
Proof.
  intros Hc Hf.
  unfold disconnect, bind, get_self, ret. rewrite Hc. cbv beta iota.
  rewrite Hf. reflexivity.
Qed.

Lemma disconnect_close_raises (s : Store) (c : Connection) (w1 : World)
  (e : exception) :
  db_connection (self s) = Some c ->
  connection_close c (world s) = (w1, Raise e) ->
  disconnect s
  = ({| self := self s; world := w1; trace := trace s;
        stdout := stdout s |}, Raise e).
Proof.
  intros Hc Hclose.
  unfold disconnect, bind, get_self, ret, effect. rewrite Hc.
  cbv beta iota. rewrite Hclose. reflexivity.
Qed.

End DisconnectFacts.

(** X10: a [disconnect] that returns leaves no connection in the
    executor, changes neither the engine name nor the trace nor the
    output, and either clears [temp_db_file] or leaves it as it was; when
    it has cleared it, or when the executor never connected, calling
    [disconnect] again changes nothing and returns. *)
Theorem X10_disconnect_idempotent {engine : Engine} {cleanup : Cleanup engine}
  (s s' : Store) :
  disconnect s = (s', Ok tt) ->
  db_connection (self s') = None /\
  db_engine (self s') = db_engine (self s) /\
  (temp_db_file (self s') = None \/
   temp_db_file (self s') = temp_db_file (self s)) /\
  trace s' = trace s /\ stdout s' = stdout s /\
  (temp_db_file (self s') = None -> disconnect s' = (s', Ok tt)).
Proof.
  intro H. destruct (disconnect_returned s s' H) as (Hc & He & Hf & Ht & Ho).
  repeat split; try assumption.
  intro Hnone. apply disconnect_nothing; assumption.
Qed.

Lemma X10_disconnect_idempotent_witness :
  @connect fs_engine None fs_store = (fs_connected, Ok true) /\
  @disconnect fs_engine fs_cleanup fs_connected = (fs_disconnected, Ok tt) /\
  db_connection (self fs_disconnected) = None /\
  @disconnect fs_engine fs_cleanup fs_disconnected = (fs_disconnected, Ok tt).
Proof.
  assert (H : @disconnect fs_engine fs_cleanup fs_connected
              = (fs_disconnected, Ok tt)) by reflexivity.
  destruct (@X10_disconnect_idempotent fs_engine fs_cleanup fs_connected
              fs_disconnected H) as (Hc & _ & _ & _ & _ & Hagain).
  split; [reflexivity|]. split; [exact H|]. split; [exact Hc|].
  apply Hagain. reflexivity.
Defined.

(** X11: when [connection.close()] raises, [disconnect] raises that
    exception at once: the connection stays in [db_connection], the
    temporary file is neither checked nor unlinked, and [temp_db_file]
    is kept. *)
Theorem X11_disconnect_close_raises {engine : Engine}
  {cleanup : Cleanup engine} (s : Store) (c : Connection) (w1 : World)
  (e : exception) :
  db_connection (self s) = Some c ->
  connection_close c (world s) = (w1, Raise e) ->
  disconnect s
  = ({| self := self s; world := w1; trace := trace s;
        stdout := stdout s |}, Raise e).
Proof. apply disconnect_close_raises. Qed.

Lemma X11_disconnect_close_raises_witness :
  @disconnect fs_engine close_failing_cleanup fs_connected
  = (fs_connected, Raise (OperationalError "unable to close")) /\
  files (world fs_connected) = ["/tmp/tmpq1w2e3.db"].
Proof.
  split; [|reflexivity].
  exact (@X11_disconnect_close_raises fs_engine close_failing_cleanup
           fs_connected tt (world fs_connected)
           (OperationalError "unable to close") eq_refl eq_refl).
Defined.



(** ** The SQL synthesizers, continued *)

Section SynthesizerFacts.

Lemma join_empty_cons (x : string) (l : list string) :
  join "" (x :: l) = x ^^ join "" l.
Proof.
  destruct l as [|y l]; [symmetry; apply append_empty_r | reflexivity].
Qed.

Lemma accumulate_join (A : Type) (f : A -> string) (l : list A) :
  forall sql_code,
    fold_left (fun acc x => acc ^^ f x) l sql_code
    = sql_code ^^ join "" (map f l).
Proof.
  induction l as [|x l IH]; intro sql_code.
  - cbn. symmetry. apply append_empty_r.
  - cbn [fold_left map]. rewrite IH, join_empty_cons, append_assoc.
    reflexivity.
Qed.

Lemma join_empty_app (a b : list string) :
  join "" (a ++ b) = join "" a ^^ join "" b.
Proof.
  induction a as [|x a IH]; [reflexivity|].
  cbn [app]. rewrite !join_empty_cons, IH, append_assoc. reflexivity.
Qed.

Lemma er_relationship_cases (er : ERToSQLConverter.t) (r : Relationship) :
  type_of r <> "many_to_many" -> type_of r <> "many_to_one" ->
  type_of r <> "one_to_one" ->
  ERToSQLConverter._generate_relationship er r = "".
Proof.
  unfold type_of. intros H1 H2 H3.
  unfold ERToSQLConverter._generate_relationship.
  apply String.eqb_neq in H1, H2, H3. rewrite H1, H2, H3. reflexivity.
Qed.

Lemma nl_relationship_cases (nl : NLToSQLConverter.t) (r : Relationship) :
  type_of r <> "many_to_many" ->
  NLToSQLConverter._generate_relationship nl r = "".
Proof.
  unfold type_of. intros H1.
  unfold NLToSQLConverter._generate_relationship.
  apply String.eqb_neq in H1. rewrite H1.
  destruct (existsb _ _); reflexivity.
Qed.

Lemma same_many_to_many (nl : NLToSQLConverter.t) (er : ERToSQLConverter.t)
  (r : Relationship) :
  type_of r = "many_to_many" ->
  NLToSQLConverter._generate_relationship nl r
  = ERToSQLConverter._generate_relationship er r.
Proof.
  unfold type_of. intro H.
  unfold NLToSQLConverter._generate_relationship,
    ERToSQLConverter._generate_relationship.
  rewrite H. reflexivity.
Qed.

End SynthesizerFacts.

(** X13: for a many-to-one relationship the ER-diagram converter emits a
    comment line, [ALTER TABLE e1 ADD COLUMN e2_id INTEGER;] and
    [ALTER TABLE e1 ADD FOREIGN KEY (e2_id) REFERENCES e2 (id);], while
    the natural-language converter emits nothing. *)
Theorem X13_many_to_one
  (nl : NLToSQLConverter.t) (er : ERToSQLConverter.t) (r : Relationship)
  (e1 e2 : string) :
  rel_type r = Some "many_to_one" ->
  entity1 r = Some e1 -> entity2 r = Some e2 ->
  ERToSQLConverter._generate_relationship er r
  = many_to_one_comment e1 e2 ^^ add_column e1 e2
    ^^ add_foreign_key e1 e2 ^^ LF /\
  NLToSQLConverter._generate_relationship nl r = "".
Proof.
  intros Ht H1 H2. split.
  - unfold ERToSQLConverter._generate_relationship.
    rewrite Ht, H1, H2. cbn [dict_get].
    rewrite (eq_refl : ("many_to_one" =? "many_to_many") = false).
    rewrite String.eqb_refl. cbv zeta.
    unfold many_to_one_comment, add_column, add_foreign_key.
    flatten_append. reflexivity.
  - apply nl_relationship_cases. unfold type_of. rewrite Ht. discriminate.
Qed.

Lemma X13_many_to_one_witness :
  ERToSQLConverter._generate_relationship er_converter
    (sample_relationship "many_to_one")
  = many_to_one_comment "user" "profile" ^^ add_column "user" "profile"
    ^^ add_foreign_key "user" "profile" ^^ LF /\
  NLToSQLConverter._generate_relationship nl_converter
    (sample_relationship "many_to_one") = "".
Proof.
  exact (X13_many_to_one nl_converter er_converter
           (sample_relationship "many_to_one") "user" "profile"
           eq_refl eq_refl eq_refl).
Defined.

(** X14: a relationship whose type is missing or is none of the known
    ones emits nothing: the ER-diagram converter emits DDL for
    [many_to_many], [many_to_one] and [one_to_one] only, the
    natural-language converter for [many_to_many] only. *)
Theorem X14_unknown_type_emits_nothing
  (nl : NLToSQLConverter.t) (er : ERToSQLConverter.t) (r : Relationship) :
  (type_of r <> "many_to_many" ->
   NLToSQLConverter._generate_relationship nl r = "") /\
  (type_of r <> "many_to_many" -> type_of r <> "many_to_one" ->
   type_of r <> "one_to_one" ->
   ERToSQLConverter._generate_relationship er r = "") /\
  (rel_type r = None ->
   NLToSQLConverter._generate_relationship nl r = "" /\
   ERToSQLConverter._generate_relationship er r = "").
Proof.
  split; [apply nl_relationship_cases|].
  split; [apply er_relationship_cases|].
  intro Hnone. split.
  - apply nl_relationship_cases. unfold type_of. rewrite Hnone. discriminate.
  - apply er_relationship_cases; unfold type_of; rewrite Hnone; discriminate.
Qed.

Lemma X14_unknown_type_emits_nothing_witness :
  NLToSQLConverter._generate_relationship nl_converter
    (sample_relationship "one_to_few") = "" /\
  ERToSQLConverter._generate_relationship er_converter
    (sample_relationship "one_to_few") = "".
Proof.
  destruct (X14_unknown_type_emits_nothing nl_converter er_converter
              (sample_relationship "one_to_few")) as (Hnl & Her & _).
  split.
  - apply Hnl. discriminate.
  - apply Her; discriminate.
Defined.

(** X15: the synthesized script is the concatenation of the
    [CREATE TABLE] statements of the entities, in the order given,
    followed by the DDL of the relationships, in the order given; the
    ER-diagram converter puts its header comment first; a missing
    [entities] or [relationships] key counts as an empty list. *)
Theorem X15_script_order
  (nl : NLToSQLConverter.t) (er : ERToSQLConverter.t)
  (schema : SchemaDescription) :
  let ents := dict_get (entities schema) [] in
  let rels := dict_get (relationships schema) [] in
  NLToSQLConverter.generate_sql nl schema
  = join "" (map (NLToSQLConverter._generate_create_table nl) ents)
    ^^ join "" (map (NLToSQLConverter._generate_relationship nl) rels) /\
  ERToSQLConverter._generate_sql er schema
  = er_header
    ^^ join "" (map (ERToSQLConverter._generate_create_table er) ents)
    ^^ join "" (map (ERToSQLConverter._generate_relationship er) rels).
Proof.
  cbv zeta. split.
  - unfold NLToSQLConverter.generate_sql. cbv zeta.
    rewrite !accumulate_join. reflexivity.
  - unfold ERToSQLConverter._generate_sql. cbv zeta.
    rewrite !accumulate_join, !append_assoc. reflexivity.
Qed.

(** X16: on a schema none of whose relationships is [many_to_one] or
    [one_to_one], the script of the ER-diagram converter is its header
    comment followed by the script of the natural-language converter. *)
Theorem X16_converters_agree
  (nl : NLToSQLConverter.t) (er : ERToSQLConverter.t)
  (schema : SchemaDescription) :
  Forall (fun r => type_of r <> "many_to_one" /\ type_of r <> "one_to_one")
    (dict_get (relationships schema) []) ->
  ERToSQLConverter._generate_sql er schema
  = er_header ^^ NLToSQLConverter.generate_sql nl schema.
Proof.
  intro Hrels.
  unfold ERToSQLConverter._generate_sql, NLToSQLConverter.generate_sql.
  cbv zeta. rewrite !accumulate_join.
  change (map (ERToSQLConverter._generate_create_table er))
    with (map (NLToSQLConverter._generate_create_table nl)).
  assert (E : map (ERToSQLConverter._generate_relationship er)
                (dict_get (relationships schema) [])
              = map (NLToSQLConverter._generate_relationship nl)
                  (dict_get (relationships schema) [])).
  { induction Hrels as [|r rels [H1 H2] _ IH]; [reflexivity|].
    cbn [map]. rewrite IH. f_equal.
    destruct (String.eqb_spec (type_of r) "many_to_many") as [Hm|Hm].
    - symmetry. apply same_many_to_many, Hm.
    - rewrite er_relationship_cases, nl_relationship_cases by assumption.
      reflexivity. }
  rewrite E, !append_assoc. reflexivity.
Qed.

Lemma X16_converters_agree_witness :
  ERToSQLConverter._generate_sql er_converter sample_schema
  = er_header ^^ NLToSQLConverter.generate_sql nl_converter sample_schema.
Proof.
  apply (X16_converters_agree nl_converter er_converter sample_schema).
  repeat constructor; discriminate.
Defined.

(** ** The helpers *)

Section HelperFacts.

Lemma re_match_app (p q : list atom) (s : string) :
  re_match (p ++ q) s = true -> re_match p s = true.
Proof.
  revert s. induction p as [|a p IH]; intro s; [reflexivity|].
  cbn [app re_match]. destruct s as [|c s]; [discriminate|].
  intro H. apply andb_true_iff in H. destruct H as [Ha Hp].
  rewrite Ha, (IH s Hp). reflexivity.
Qed.

Lemma timestamp_is_date (s : string) :
  re_match timestamp_pattern s = true -> re_match date_pattern s = true.
Proof.
  change timestamp_pattern
    with (date_pattern
          ++ [Literal " "] ++ digits 2 ++ [Literal ":"] ++ digits 2
          ++ [Literal ":"] ++ digits 2).
  apply re_match_app.
Qed.

Lemma prefix_append_contains (a b s : string) :
  prefix (a ^^ b) s = true -> contains b s = true.
Proof.
  revert s. induction a as [|x a IH]; intro s.
  - cbn [append]. intro H. destruct s; cbn [contains]; rewrite H; reflexivity.
  - cbn [append]. destruct s as [|y s]; [discriminate|].
    cbn [prefix contains]. destruct (ascii_dec x y); [|discriminate].
    intro H. rewrite (IH s H). apply orb_true_r.
Qed.

Lemma contains_append (a b s : string) :
  contains (a ^^ b) s = true -> contains b s = true.
Proof.
  induction s as [|y s IH].
  - cbn [contains]. rewrite orb_false_r. apply prefix_append_contains.
  - cbn [contains]. intro H. apply orb_true_iff in H. destruct H as [H|H].
    + exact (prefix_append_contains a b (String y s) H).
    + rewrite (IH H). apply orb_true_r.
Qed.

Lemma foreign_key_loop (name : string) (fks : list ForeignKey) :
  forall edges,
    fold_left (foreign_key_loop_body name) fks edges
    = edges ++ fold_left (foreign_key_loop_body name) fks [].
Proof.
  induction fks as [|fk fks IH]; intro edges.
  - cbn. symmetry. apply app_nil_r.
  - cbn [fold_left]. rewrite IH. rewrite (IH (foreign_key_loop_body name [] fk)).
    rewrite app_assoc. f_equal.
    unfold foreign_key_loop_body. destruct (truthy (referenced_table fk));
      [reflexivity | symmetry; apply app_nil_r].
Qed.

Lemma table_loop (tables : list Table) :
  forall nodes edges,
    fold_left table_loop_body tables (nodes, edges)
    = (nodes ++ map node_of tables, edges ++ flat_map edges_of tables).
Proof.
  induction tables as [|t tables IH]; intros nodes edges.
  - cbn. rewrite !app_nil_r. reflexivity.
  - cbn [fold_left]. unfold table_loop_body at 2. cbv zeta.
    rewrite IH, foreign_key_loop. cbn [map flat_map].
    rewrite <- !app_assoc. reflexivity.
Qed.

Lemma edges_of_ends (name : string) (fks : list ForeignKey) :
  map (fun e => (source e, target e))
    (fold_left (foreign_key_loop_body name) fks [])
  = flat_map
      (fun fk =>
         if truthy (referenced_table fk)
         then [(name, dict_get (referenced_table fk) "")] else [])
      fks /\
  Forall (fun e => edge_id e = source e ^^ "_to_" ^^ target e /\
                   edge_type e = "foreign_key")
    (fold_left (foreign_key_loop_body name) fks []).
Proof.
  induction fks as [|fk fks [IHm IHf]]; [split; [reflexivity | constructor]|].
  cbn [fold_left flat_map]. rewrite foreign_key_loop, map_app, IHm.
  split.
  - f_equal. unfold foreign_key_loop_body.
    destruct (truthy (referenced_table fk)); reflexivity.
  - apply Forall_app. split; [|exact IHf].
    unfold foreign_key_loop_body.
    destruct (truthy (referenced_table fk)); repeat constructor.
Qed.

Lemma word_sub_fixed (s : string) :
  all_chars is_word s = true -> re_sub_non_word s = s.
Proof.
  induction s as [|c s IH]; [reflexivity|].
  cbn [all_chars re_sub_non_word]. intro H.
  apply andb_true_iff in H. destruct H as [Hc Hs].
  rewrite Hc, (IH Hs). reflexivity.
Qed.

Lemma sanitized_fixed (r : string) :
  sanitized r -> sanitize_table_name r = Ok r /\ sanitize_column_name r = Ok r.
Proof.
  intros (Hne & [Hlow _] & Hword & Hdigit).
  unfold sanitize_table_name, sanitize_column_name.
  rewrite (word_sub_fixed r Hword), Hlow.
  destruct r as [|c r]; [now elim Hne|].
  rewrite (Hdigit c eq_refl). split; reflexivity.
Qed.

Lemma sanitize_table_sanitized (name r : string) :
  sanitize_table_name name = Ok r -> sanitized r.
Proof.
  intro H. destruct name as [|c s]; [discriminate H|].
  apply (prefixed_sanitized "t" (String c s)); try reflexivity;
    [discriminate | exact H].
Qed.

Lemma sanitize_column_sanitized (name r : string) :
  sanitize_column_name name = Ok r -> sanitized r.
Proof.
  intro H. destruct name as [|c s]; [discriminate H|].
  apply (prefixed_sanitized "c" (String c s)); try reflexivity;
    [discriminate | exact H].
Qed.

End HelperFacts.

(** X17: [infer_sql_type] returns [INTEGER], [REAL], [DATE] or [TEXT]
    and never [BOOLEAN] or [TIMESTAMP]: a [bool] is an [int] and is typed
    [INTEGER], and a string that matches the timestamp pattern matches
    the date pattern first and is typed [DATE]. *)
Theorem X17_infer_sql_type_range :
  (forall value,
      In (infer_sql_type value) ["INTEGER"; "REAL"; "DATE"; "TEXT"]) /\
  (forall b, infer_sql_type (PyBool b) = "INTEGER") /\
  (forall s,
      re_match timestamp_pattern s = true ->
      infer_sql_type (PyStr s) = "DATE").
Proof.
  split; [|split].
  - intro value. unfold infer_sql_type.
    destruct value as [n m|b|f|s| |]; cbn [isinstance_int isinstance_float
                                           isinstance_bool In]; auto.
    destruct (re_match date_pattern s) eqn:Hd; auto.
    destruct (re_match timestamp_pattern s) eqn:Ht; auto.
    apply timestamp_is_date in Ht. congruence.
  - reflexivity.
  - intros s H. unfold infer_sql_type. cbn [isinstance_int isinstance_float
                                            isinstance_bool].
    rewrite (timestamp_is_date s H). reflexivity.
Qed.

Lemma X17_infer_sql_type_range_witness :
  re_match timestamp_pattern sample_timestamp = true /\
  infer_sql_type (PyStr sample_timestamp) = "DATE".
Proof.
  assert (H : re_match timestamp_pattern sample_timestamp = true)
    by reflexivity.
  split; [exact H|].
  exact (proj2 (proj2 X17_infer_sql_type_range) sample_timestamp H).
Defined.

(** X18: [parse_sql_error] returns the message unchanged; the type is
    [unknown_error] exactly when the message holds none of the four
    known patterns; a [constraint_violation] is reported only for a
    message that holds [constraint failed]; and a message that holds
    [UNIQUE constraint failed] is reported as a unique violation
    whatever else it holds. *)
Theorem X18_parse_sql_error (error_message : string) :
  parsed_message (parse_sql_error error_message) = error_message /\
  (error_type (parsed (parse_sql_error error_message)) = "unknown_error" <->
   Forall (fun entry => contains (fst entry) error_message = false)
     known_errors) /\
  (error_type (parsed (parse_sql_error error_message))
   = "constraint_violation" ->
   contains "constraint failed" error_message = true) /\
  (contains "UNIQUE constraint failed" error_message = true ->
   constraint (parsed (parse_sql_error error_message)) = Some "unique").
Proof.
  unfold parse_sql_error, known_errors. cbn [first_known].
  destruct (contains "UNIQUE constraint failed" error_message) eqn:H1;
    [|destruct (contains "FOREIGN KEY constraint failed" error_message)
        eqn:H2;
      [|destruct (contains "NOT NULL constraint failed" error_message)
          eqn:H3;
        [|destruct (contains "syntax error" error_message) eqn:H4]]];
    cbn [parsed_message parsed error_type constraint];
    (split; [reflexivity|]); (split; [split|split]);
    try discriminate; try reflexivity.
  all: try (intro H; inversion H; subst; cbn [fst] in *; congruence).
  all: try (intro H; repeat match goal with
                       | H : Forall _ (_ :: _) |- _ =>
                           inversion H; subst; clear H
                       end; cbn [fst] in *; congruence).
  - intros _. exact (contains_append "UNIQUE " "constraint failed" _ H1).
  - intros _. exact (contains_append "FOREIGN KEY " "constraint failed" _ H2).
  - intros _. exact (contains_append "NOT NULL " "constraint failed" _ H3).
  - intros _. repeat constructor; assumption.
Qed.

Lemma X18_parse_sql_error_witness :
  contains "UNIQUE constraint failed"
    "UNIQUE constraint failed: users.name (syntax error)" = true /\
  constraint (parsed (parse_sql_error
    "UNIQUE constraint failed: users.name (syntax error)")) = Some "unique".
Proof.
  assert (H : contains "UNIQUE constraint failed"
                "UNIQUE constraint failed: users.name (syntax error)" = true)
    by reflexivity.
  split; [exact H|].
  exact (proj2 (proj2 (proj2 (X18_parse_sql_error _))) H).
Defined.

(** X19: [sql_to_visualization_data] returns one node per table, in
    order, with the table's name as id and label and one entry per
    column ([primary] false and [nullable] true when the keys are
    missing), and one edge per foreign key that names a referenced
    table, in order, from the table to the referenced table; the id of
    an edge is [<source>_to_<target>], so two foreign keys between the
    same two tables give two edges with the same id. *)
Theorem X19_visualization_data (tables : list Table) :
  let data := sql_to_visualization_data tables in
  nodes data = map node_of tables /\
  map node_id (nodes data) = map table_name tables /\
  map (fun e => (source e, target e)) (edges data)
  = flat_map references_of tables /\
  Forall (fun e => edge_id e = source e ^^ "_to_" ^^ target e /\
                   edge_type e = "foreign_key") (edges data).
Proof.
  cbv zeta. unfold sql_to_visualization_data.
  rewrite table_loop. cbn [app nodes edges].
  split; [reflexivity|]. split; [rewrite map_map; reflexivity|].
  split.
  - induction tables as [|t tables IH]; [reflexivity|].
    cbn [flat_map]. rewrite map_app, IH. f_equal.
    apply (proj1 (edges_of_ends (table_name t)
                    (dict_get (table_foreign_keys t) []))).
  - induction tables as [|t tables IH]; [constructor|].
    cbn [flat_map]. apply Forall_app. split; [|exact IH].
    apply (proj2 (edges_of_ends (table_name t)
                    (dict_get (table_foreign_keys t) []))).
Qed.

(** X20: on names whose code points are below 256, a name returned by a
    sanitizer is left unchanged by both sanitizers: sanitizing is
    idempotent. *)
Theorem X20_sanitize_idempotent (name r : string) :
  sanitize_table_name name = Ok r \/ sanitize_column_name name = Ok r ->
  sanitize_table_name r = Ok r /\ sanitize_column_name r = Ok r.
Proof.
  intros [H|H]; apply sanitized_fixed.
  - exact (sanitize_table_sanitized name r H).
  - exact (sanitize_column_sanitized name r H).
Qed.

Lemma X20_sanitize_idempotent_witness :
  sanitize_table_name "2 Fast" = Ok "t_2_fast" /\
  sanitize_table_name "t_2_fast" = Ok "t_2_fast" /\
  sanitize_column_name "t_2_fast" = Ok "t_2_fast".
Proof.
  assert (H : sanitize_table_name "2 Fast" = Ok "t_2_fast") by reflexivity.
  split; [exact H|].
  exact (X20_sanitize_idempotent "2 Fast" "t_2_fast" (or_introl H)).
Defined.

(** X26: on the empty string both sanitizers raise [IndexError] (the
    index [name[0]] after the substitution); on every non-empty string
    whose code points are all below 256 (a [string] of this development,
    and what the sanitizers do on its code points) they return a
    non-empty lowercase string of word characters (underscore included)
    that does not start with a digit. *)
Theorem X26_sanitizers_below_256 :
  sanitize_table_name "" = Raise (IndexError "string index out of range") /\
  sanitize_column_name "" = Raise (IndexError "string index out of range") /\
  (forall name : string,
      Wide.sanitize_table_name (code_points name)
      = Some (result_code_points (sanitize_table_name name)) /\
      Wide.sanitize_column_name (code_points name)
      = Some (result_code_points (sanitize_column_name name))) /\
  forall name : string,
    name <> "" ->
    (exists r, sanitize_table_name name = Ok r /\ sanitized r) /\
    (exists r, sanitize_column_name name = Ok r /\ sanitized r).
Proof.
  split; [reflexivity|]. split; [reflexivity|].
  split; [intro name; split; [apply wide_table_name | apply wide_column_name]|].
  intros name Hne. split.
  - destruct (sanitize_table_name name) as [r|e] eqn:E.
    + exists r. split; [reflexivity|].
      apply (prefixed_sanitized "t" name Hne eq_refl eq_refl eq_refl r).
      exact E.
    + exfalso. unfold sanitize_table_name in E.
      destruct name as [|c s]; [now elim Hne|].
      destruct (sub_nonempty c s) as (d & t & Es). rewrite Es in E.
      destruct (isdigit d); discriminate E.
  - destruct (sanitize_column_name name) as [r|e] eqn:E.
    + exists r. split; [reflexivity|].
      apply (prefixed_sanitized "c" name Hne eq_refl eq_refl eq_refl r).
      exact E.
    + exfalso. unfold sanitize_column_name in E.
      destruct name as [|c s]; [now elim Hne|].
      destruct (sub_nonempty c s) as (d & t & Es). rewrite Es in E.
      destruct (isdigit d); discriminate E.
Qed.

Lemma X26_sanitizers_below_256_witness :
  "2 Fast" <> "" /\
  sanitize_table_name "2 Fast" = Ok "t_2_fast" /\
  sanitize_column_name "2 Fast" = Ok "c_2_fast" /\
  (exists r, sanitize_table_name "2 Fast" = Ok r /\ sanitized r) /\
  (exists r, sanitize_column_name "2 Fast" = Ok r /\ sanitized r).
Proof.
  assert (Hne : "2 Fast" <> "") by discriminate.
  split; [exact Hne|]. split; [reflexivity|]. split; [reflexivity|].
  exact (proj2 (proj2 (proj2 X26_sanitizers_below_256)) "2 Fast" Hne).
Defined.

(** ** [get_schema] *)

Section GetSchemaFacts.

Context {engine : Engine} {access : RowAccess engine}.

Ltac run_calls :=
  unfold bind, call, lift, ret;
  repeat match goal with
    | |- context [cursor_execute ?c ?q ?w] =>
        destruct (cursor_execute c q w) as [? [[]|?]] eqn:?
    | |- context [cursor_fetchall ?c ?w] =>
        destruct (cursor_fetchall c w) as [? [?|?]] eqn:?
    | |- context [comprehension ?f ?l] =>
        destruct (comprehension f l) as [?|?] eqn:?
    | _ => progress cbn [self world trace stdout]
    end.

Lemma describe_table_returned (cursor : Cursor) (name : cell)
  (s s' : Store) (table : TableInfo) :
  describe_table cursor name s = (s', Ok table) ->
  info_table_name table = name /\
  self s' = self s /\ stdout s' = stdout s /\
  exists evs,
    trace s' = trace s ++ evs /\
    executed_statements evs
    = [table_info_query name; foreign_key_list_query name] /\
    commit_count evs = 0.
Proof.
  unfold describe_table. run_calls; intro H; try discriminate H.
  injection H as <- <-. cbn [info_table_name self stdout trace].
  repeat split.
  eexists. split.
  - rewrite <- !app_assoc. reflexivity.
  - split; reflexivity.
Qed.

Lemma describe_tables_returned (cursor : Cursor) (names : list cell) :
  forall (s s' : Store) (acc tables : list TableInfo),
    describe_tables cursor names acc s = (s', Ok tables) ->
    self s' = self s /\ stdout s' = stdout s /\
    exists new evs,
      tables = acc ++ new /\
      map info_table_name new = names /\
      trace s' = trace s ++ evs /\
      executed_statements evs
      = flat_map (fun name => [table_info_query name;
                               foreign_key_list_query name]) names /\
      commit_count evs = 0.
Proof.
  induction names as [|name names IH]; intros s s' acc tables.
  - cbn [describe_tables]. unfold ret. intro H. injection H as <- <-.
    repeat split. exists [], []. rewrite !app_nil_r. repeat split.
  - cbn [describe_tables]. unfold bind at 1.
    destruct (describe_table cursor name s) as [s1 [table|e]] eqn:Hd;
      [|discriminate].
    intro H.
    destruct (describe_table_returned _ _ _ _ _ Hd)
      as (Hname & Hself & Hout & evs1 & Ht1 & He1 & Hc1).
    destruct (IH _ _ _ _ H)
      as (Hself2 & Hout2 & new & evs2 & Htab & Hnames & Ht2 & He2 & Hc2).
    split; [congruence|]. split; [congruence|].
    exists (table :: new), (evs1 ++ evs2).
    rewrite Htab, <- app_assoc. split; [reflexivity|].
    cbn [map flat_map]. rewrite Hname, Hnames. split; [reflexivity|].
    rewrite Ht2, Ht1, <- app_assoc. split; [reflexivity|].
    rewrite executed_statements_app, commit_count_app, He1, He2, Hc1, Hc2.
    split; reflexivity.
Qed.

Lemma describe_table_self (cursor : Cursor) (name : cell) (s : Store) :
  self (fst (describe_table cursor name s)) = self s.
Proof. unfold describe_table. run_calls; reflexivity. Qed.

Lemma describe_tables_self (cursor : Cursor) (names : list cell) :
  forall (s : Store) (acc : list TableInfo),
    self (fst (describe_tables cursor names acc s)) = self s.
Proof.
  induction names as [|name names IH]; intros s acc; [reflexivity|].
  cbn [describe_tables]. unfold bind at 1.
  pose proof (describe_table_self cursor name s) as Hd.
  destruct (describe_table cursor name s) as [s1 [table|e]];
    cbn [fst] in Hd |- *; [rewrite IH|]; exact Hd.
Qed.

Lemma read_schema_self (cursor : Cursor) (s : Store) :
  self (fst (read_schema cursor s)) = self s.
Proof.
  unfold read_schema. unfold bind at 1. unfold call at 1.
  destruct (cursor_execute cursor list_tables_query (world s))
    as [w1 [[]|e]]; [|reflexivity].
  unfold bind at 1. unfold call at 1. cbn [world].
  destruct (cursor_fetchall cursor w1) as [w2 [fetched|e]]; [|reflexivity].
  unfold bind at 1. unfold lift at 1.
  destruct (comprehension (fun row => item row 0) (map row_cells fetched))
    as [names|e]; [|reflexivity].
  unfold bind at 1.
  match goal with
  | |- context [describe_tables cursor names [] ?st] =>
      pose proof (describe_tables_self cursor names st []) as Hd;
      destruct (describe_tables cursor names [] st) as [s2 [tables|e]]
  end; exact Hd.
Qed.

Lemma read_schema_returned (cursor : Cursor) (s s' : Store)
  (d : SchemaResult) :
  read_schema cursor s = (s', Ok d) ->
  self s' = self s /\ stdout s' = stdout s /\
  exists tables evs,
    d = {| schema_success := true; schema_message := None;
           schema_tables := Some tables |} /\
    trace s' = trace s ++ evs /\
    executed_statements evs
    = schema_statements (map info_table_name tables) /\
    commit_count evs = 0.
Proof.
  unfold read_schema. unfold bind at 1. unfold call at 1.
  destruct (cursor_execute cursor list_tables_query (world s))
    as [w1 [[]|e]] eqn:Hex; [|discriminate].
  unfold bind at 1. unfold call at 1. cbn [world].
  destruct (cursor_fetchall cursor w1) as [w2 [fetched|e]] eqn:Hf;
    [|discriminate].
  unfold bind at 1. unfold lift at 1.
  destruct (comprehension (fun row => item row 0) (map row_cells fetched))
    as [names|e]; [|discriminate].
  unfold bind at 1.
  match goal with
  | |- context [describe_tables cursor names [] ?st] =>
      destruct (describe_tables cursor names [] st) as [s2 [tables|e]] eqn:Hd
  end; [|discriminate].
  unfold ret. intro H. injection H as <- <-.
  destruct (describe_tables_returned _ _ _ _ _ _ Hd)
    as (Hself & Hout & new & evs & Htab & Hnames & Ht & He & Hc).
  cbn [self stdout trace app] in Hself, Hout, Ht.
  split; [exact Hself|]. split; [exact Hout|].
  exists tables, ([EvExecute list_tables_query; EvFetchall] ++ evs).
  split; [reflexivity|]. split.
  - rewrite Ht, <- !app_assoc. reflexivity.
  - subst tables. change ([] ++ new) with new. rewrite Hnames.
    unfold schema_statements.
    rewrite executed_statements_app, commit_count_app, He, Hc.
    split; reflexivity.
Qed.

Lemma get_schema_not_connected (s : Store) :
  db_connection (self s) = None ->
  get_schema s
  = (s, Ok {| schema_success := false;
              schema_message := Some "Not connected to a database";
              schema_tables := None |}).
Proof.
  intro Hc. unfold get_schema, bind, get_self. rewrite Hc. reflexivity.
Qed.

(** [cursor()] is outside the [try]: its exception leaves [get_schema]. *)
Lemma get_schema_cursor_raises (s : Store) (connection : Connection)
  (w0 : World) (e : exception) :
  db_connection (self s) = Some connection ->
  connection_cursor connection (world s) = (w0, Raise e) ->
  get_schema s = (with_world s w0, Raise e).
Proof.
  intros Hc Hcur. unfold get_schema. unfold bind at 1. unfold get_self.
  cbv beta iota. rewrite Hc. unfold bind at 1.
  rewrite (effect_with_world _ _ _ _ Hcur). reflexivity.
Qed.

Lemma get_schema_connected (s : Store) (connection : Connection)
  (w0 : World) (cursor : Cursor) :
  db_connection (self s) = Some connection ->
  connection_cursor connection (world s) = (w0, Ok cursor) ->
  get_schema s
  = try_except (read_schema cursor)
      (fun e =>
         ret {| schema_success := false; schema_message := Some (str e);
                schema_tables := None |})
      (with_world s w0).
Proof.
  intros Hc Hcur. unfold get_schema. unfold bind at 1. unfold get_self.
  cbv beta iota. rewrite Hc. unfold bind at 1.
  rewrite (effect_with_world _ _ _ _ Hcur). reflexivity.
Qed.

End GetSchemaFacts.





Section RowFacts.

Lemma item_ok (row : list cell) (i : nat) :
  i < List.length row -> exists value, item row i = Ok value.
Proof.
  intro H. unfold item. destruct (nth_error row i) eqn:E; [eauto|].
  apply nth_error_None in E. lia.
Qed.

Lemma item_raises (row : list cell) (i : nat) :
  List.length row <= i ->
  item row i = Raise (IndexError "tuple index out of range").
Proof.
  intro H. unfold item. apply nth_error_None in H. rewrite H. reflexivity.
Qed.

End RowFacts.

(** X23: a row of [PRAGMA table_info] becomes a column entry exactly
    when it has at least six fields, and a row of [PRAGMA
    foreign_key_list] a foreign-key entry exactly when it has at least
    eight; a shorter row raises [IndexError: tuple index out of range]
    (which [get_schema] reports as its failure message). *)
Theorem X23_row_bounds (row : list cell) :
  (6 <= List.length row -> exists c, column_of_row row = Ok c) /\
  (List.length row < 6 ->
   column_of_row row = Raise (IndexError "tuple index out of range")) /\
  (8 <= List.length row -> exists fk, foreign_key_of_row row = Ok fk) /\
  (List.length row < 8 ->
   foreign_key_of_row row = Raise (IndexError "tuple index out of range")).
Proof.
  repeat split.
  - intro H. unfold column_of_row.
    destruct (item_ok row 1) as [v1 ->]; [lia|].
    destruct (item_ok row 2) as [v2 ->]; [lia|].
    destruct (item_ok row 3) as [v3 ->]; [lia|].
    destruct (item_ok row 4) as [v4 ->]; [lia|].
    destruct (item_ok row 5) as [v5 ->]; [lia|].
    cbn [result_bind]. eauto.
  - intro H. unfold column_of_row.
    destruct row as [|a [|b [|c [|d [|e [|f row]]]]]]; try reflexivity.
    cbn [List.length] in H. lia.
  - intro H. unfold foreign_key_of_row.
    destruct (item_ok row 0) as [v0 ->]; [lia|].
    destruct (item_ok row 1) as [v1 ->]; [lia|].
    destruct (item_ok row 2) as [v2 ->]; [lia|].
    destruct (item_ok row 3) as [v3 ->]; [lia|].
    destruct (item_ok row 4) as [v4 ->]; [lia|].
    destruct (item_ok row 5) as [v5 ->]; [lia|].
    destruct (item_ok row 6) as [v6 ->]; [lia|].
    destruct (item_ok row 7) as [v7 ->]; [lia|].
    cbn [result_bind]. eauto.
  - intro H. unfold foreign_key_of_row.
    destruct row as [|a [|b [|c [|d [|e [|f [|g [|h row]]]]]]]];
      try reflexivity.
    cbn [List.length] in H. lia.
Qed.

Lemma X23_row_bounds_witness :
  column_of_row [CInt false 0; CText "id"; CText "INTEGER"]
  = Raise (IndexError "tuple index out of range") /\
  exists c,
    column_of_row [CInt false 1; CText "name"; CText "TEXT"; CInt false 1;
                   CNull; CInt false 0] = Ok c.
Proof.
  split.
  - apply (proj1 (proj2 (X23_row_bounds _))). cbn. lia.
  - apply (proj1 (X23_row_bounds _)). cbn. lia.
Defined.

(** ** From the synthesizer to the executor *)

Section Pipeline.

Lemma unlines_cons (line : string) (lines : list string) :
  unlines (line :: lines) = line ^^ LF ^^ unlines lines.
Proof.
  unfold unlines. cbn [map]. rewrite join_empty_cons, append_assoc.
  reflexivity.
Qed.

Lemma unlines_app (a b : list string) :
  unlines (a ++ b) = unlines a ^^ unlines b.
Proof.
  unfold unlines. rewrite map_app. apply join_empty_app.
Qed.

Lemma split_unlines (lines : list string) (rest : string) :
  Forall (fun l => ~ occurs newline l) lines ->
  split newline (unlines lines ^^ rest) = lines ++ split newline rest.
Proof.
  induction 1 as [|l lines Hl _ IH]; [reflexivity|].
  rewrite unlines_cons, !append_assoc.
  change (LF ^^ unlines lines ^^ rest)
    with (String newline (unlines lines ^^ rest)).
  rewrite split_line_append by exact Hl. rewrite IH. reflexivity.
Qed.

Lemma join_comma_lines (clauses : list string) :
  join ("," ^^ LF) clauses ^^ LF = unlines (comma_lines clauses).
Proof.
  induction clauses as [|c [|d clauses] IH].
  - reflexivity.
  - cbn [comma_lines]. rewrite unlines_cons. cbn [join String.concat].
    unfold unlines. cbn. reflexivity.
  - rewrite join_cons2.
    change (comma_lines (c :: d :: clauses))
      with ((c ^^ ",") :: comma_lines (d :: clauses)).
    rewrite unlines_cons, <- IH, !append_assoc. reflexivity.
Qed.

Lemma create_table_unlines (table_name : string) (clauses : list string) :
  create_table_statement table_name clauses
  = unlines (create_table_lines table_name clauses ++ [");"; ""]).
Proof.
  unfold create_table_statement, create_table_lines.
  change (("CREATE TABLE " ^^ table_name ^^ " (") :: comma_lines clauses)
    with ([("CREATE TABLE " ^^ table_name ^^ " (")] ++ comma_lines clauses).
  rewrite <- app_assoc, !unlines_app, <- join_comma_lines.
  unfold unlines. cbn [map join String.concat].
  rewrite !append_assoc. cbn [append]. rewrite ?append_assoc. reflexivity.
Qed.

Lemma endswith_occurs (c : ascii) (s : string) :
  endswith (String c "") s = true -> occurs c s.
Proof. intro H. apply last_char_occurs, endswith_last, H. Qed.

Lemma no_semicolon_pending (line : string) :
  ~ occurs ";" line -> endswith ";" (strip line) = false.
Proof.
  intro H. destruct (endswith ";" (strip line)) eqn:E; [|reflexivity].
  exfalso. apply H, occurs_strip, endswith_occurs, E.
Qed.

(** Lines without a semicolon only fill the buffer. *)
Lemma pending_lines (lines : list string) :
  forall (buffer rest : list string),
    Forall (fun l => ~ occurs ";" l) lines ->
    SplitterSpec.split_lines buffer (lines ++ rest)
    = SplitterSpec.split_lines (buffer ++ kept_lines lines) rest.
Proof.
  induction lines as [|l lines IH]; intros buffer rest H.
  - cbn [app kept_lines map filter]. rewrite app_nil_r. reflexivity.
  - inversion H as [|? ? Hl Hrest]; subst.
    cbn [app SplitterSpec.split_lines].
    unfold kept_lines. cbn [map filter]. fold (kept_lines lines).
    destruct (SplitterSpec.skipped (strip l)); cbn [negb].
    + apply IH, Hrest.
    + rewrite (no_semicolon_pending l Hl), (IH _ _ Hrest), <- app_assoc.
      reflexivity.
Qed.

(** The closing line and the empty line after it flush the buffer. *)
Lemma closing_lines (buffer rest : list string) :
  SplitterSpec.split_lines buffer (");" :: "" :: rest)
  = join " " (buffer ++ [");"]) :: SplitterSpec.split_lines [] rest.
Proof. reflexivity. Qed.

Lemma create_table_block (table_name : string) (clauses rest : list string) :
  Forall (fun l => ~ occurs ";" l) (create_table_lines table_name clauses) ->
  SplitterSpec.split_lines []
    ((create_table_lines table_name clauses ++ [");"; ""]) ++ rest)
  = split_create_table table_name clauses
    :: SplitterSpec.split_lines [] rest.
Proof.
  intro H. rewrite <- app_assoc. rewrite (pending_lines _ _ _ H).
  cbn [app]. apply closing_lines.
Qed.

Lemma occurs_join (c : ascii) (sep : string) (l : list string) :
  occurs c (join sep l) -> occurs c sep \/ Exists (occurs c) l.
Proof.
  induction l as [|x [|y l] IH].
  - intros [].
  - intro H. right. constructor. exact H.
  - rewrite join_cons2. intro H.
    apply occurs_append in H. destruct H as [H|H].
    + right. constructor. exact H.
    + apply occurs_append in H. destruct H as [H|H]; [left; exact H|].
      destruct (IH H) as [Hs|He]; [left; exact Hs|].
      right. apply Exists_cons_tl, He.
Qed.

Lemma comma_lines_free (c : ascii) (clauses : list string) :
  c <> ","%char ->
  Forall (fun l => ~ occurs c l) clauses ->
  Forall (fun l => ~ occurs c l) (comma_lines clauses).
Proof.
  intros Hc H. induction H as [|x l Hx Hl IH].
  - constructor; [intros [] | constructor].
  - destruct l as [|y l].
    + constructor; [exact Hx | constructor].
    + change (comma_lines (x :: y :: l))
        with ((x ^^ ",") :: comma_lines (y :: l)).
      constructor; [|exact IH].
      intro H. apply occurs_append in H. destruct H as [H|H]; [tauto|].
      cbn in H. destruct H as [H|[]]. congruence.
Qed.

(** No character of [c] in the fixed text of the clauses. *)
Ltac no_occurrence :=
  repeat match goal with
    | H : occurs _ (_ ^^ _) |- _ =>
        apply occurs_append in H; destruct H as [H|H]
    | H : occurs _ (String _ _) |- _ => cbn [occurs] in H
    | H : occurs _ EmptyString |- _ => destruct H
    | H : _ \/ _ |- _ => destruct H as [H|H]
    | H : _ = _ :> ascii |- _ => try discriminate H
    | H : False |- _ => destruct H
    end.

Lemma column_clause_free (c : ascii) (attr : Attribute) :
  In c [newline; ";"%char] ->
  ~ occurs c (attr_name attr) -> ~ occurs c (attr_type attr) ->
  ~ occurs c (column_clause attr).
Proof.
  intros Hc Hn Ht H. unfold column_clause in H.
  destruct (not_nullable attr);
    destruct Hc as [<-|[<-|[]]]; no_occurrence; tauto.
Qed.

Lemma primary_key_clause_free (c : ascii) (names : list string) :
  In c [newline; ";"%char] ->
  Forall (fun n => ~ occurs c n) names ->
  ~ occurs c (primary_key_clause names).
Proof.
  intros Hc Hn H. unfold primary_key_clause in H.
  apply occurs_append in H. destruct H as [H|H].
  - destruct Hc as [<-|[<-|[]]]; no_occurrence.
  - apply occurs_append in H. destruct H as [H|H].
    + apply occurs_join in H. destruct H as [H|H].
      * destruct Hc as [<-|[<-|[]]]; no_occurrence.
      * apply Exists_exists in H. destruct H as (n & Hin & Ho).
        rewrite Forall_forall in Hn. exact (Hn n Hin Ho).
    + destruct Hc as [<-|[<-|[]]]; no_occurrence.
Qed.

Lemma expected_clauses_free (c : ascii) (attrs : list Attribute) :
  In c [newline; ";"%char] ->
  Forall (fun a => ~ occurs c (attr_name a) /\ ~ occurs c (attr_type a))
    attrs ->
  Forall (fun l => ~ occurs c l) (expected_clauses attrs).
Proof.
  intros Hc H. unfold expected_clauses. apply Forall_app. split.
  - apply Forall_map. eapply Forall_impl; [|exact H].
    intros a [Hn Ht]. apply column_clause_free; assumption.
  - destruct (existsb marked_primary_key attrs); [|constructor].
    constructor; [|constructor].
    apply primary_key_clause_free; [exact Hc|].
    unfold primary_key_names. apply Forall_map.
    apply Forall_forall. intros a Hin. apply filter_In in Hin.
    rewrite Forall_forall in H. apply (H a), Hin.
Qed.

Lemma create_table_lines_free (c : ascii) (name : string)
  (clauses : list string) :
  In c [newline; ";"%char] ->
  ~ occurs c name ->
  Forall (fun l => ~ occurs c l) clauses ->
  Forall (fun l => ~ occurs c l) (create_table_lines name clauses).
Proof.
  intros Hc Hn H. unfold create_table_lines. constructor.
  - intro Ho. destruct Hc as [<-|[<-|[]]]; no_occurrence; tauto.
  - apply comma_lines_free; [|exact H].
    destruct Hc as [<-|[<-|[]]]; discriminate.
Qed.

Lemma junction_clauses_free (c : ascii) (e1 e2 : string) :
  In c [newline; ";"%char] ->
  ~ occurs c e1 -> ~ occurs c e2 ->
  Forall (fun l => ~ occurs c l) (junction_clauses e1 e2).
Proof.
  intros Hc H1 H2. unfold junction_clauses, junction_column,
    junction_primary_key, junction_foreign_key.
  repeat constructor; intro Ho;
    destruct Hc as [<-|[<-|[]]]; no_occurrence; tauto.
Qed.

End Pipeline.

Section PipelineBlocks.

Lemma append_nonempty_r (a b : string) : b <> "" -> a ^^ b <> "".
Proof.
  intro Hb. destruct a; [exact Hb | discriminate].
Qed.

Lemma header_kept (name : string) (clauses : list string) :
  kept_lines (create_table_lines name clauses)
  = ("CREATE TABLE " ^^ name ^^ " (") :: kept_lines (comma_lines clauses).
Proof.
  unfold create_table_lines, kept_lines. cbn [map filter].
  assert (Ht : trimmed ("CREATE TABLE " ^^ name ^^ " (")).
  { split.
    - cbn. intros c H. injection H as <-. reflexivity.
    - intros c H.
      rewrite last_char_append in H by (apply append_nonempty_r; discriminate).
      rewrite last_char_append in H by discriminate.
      cbn in H. injection H as <-. reflexivity. }
  rewrite (strip_fixed _ Ht). reflexivity.
Qed.

Lemma block_statement (block : string * list string) :
  create_table_statement (fst block) (snd block)
  = unlines (create_table_lines (fst block) (snd block) ++ [");"; ""]).
Proof. apply create_table_unlines. Qed.

Lemma blocks_unlines (blocks : list (string * list string)) :
  join "" (map (fun b => create_table_statement (fst b) (snd b)) blocks)
  = unlines
      (flat_map (fun b => create_table_lines (fst b) (snd b) ++ [");"; ""])
         blocks).
Proof.
  induction blocks as [|b blocks IH]; [reflexivity|].
  cbn [map flat_map]. rewrite join_empty_cons, IH, unlines_app.
  rewrite block_statement. reflexivity.
Qed.

Lemma blocks_split (blocks : list (string * list string)) (rest : list string) :
  Forall plain_block blocks ->
  SplitterSpec.split_lines []
    (flat_map (fun b => create_table_lines (fst b) (snd b) ++ [");"; ""])
       blocks ++ rest)
  = map (fun b => split_create_table (fst b) (snd b)) blocks
    ++ SplitterSpec.split_lines [] rest.
Proof.
  induction 1 as [|b blocks Hb _ IH]; [reflexivity|].
  cbn [flat_map map app]. rewrite <- app_assoc.
  rewrite create_table_block, IH; [reflexivity|].
  eapply Forall_impl; [|exact Hb]. intros l [_ H]. exact H.
Qed.

Lemma blocks_lines_free (blocks : list (string * list string)) :
  Forall plain_block blocks ->
  Forall (fun l => ~ occurs newline l)
    (flat_map (fun b => create_table_lines (fst b) (snd b) ++ [");"; ""])
       blocks).
Proof.
  induction 1 as [|b blocks Hb _ IH]; [constructor|].
  cbn [flat_map]. apply Forall_app. split; [|exact IH].
  apply Forall_app. split.
  - eapply Forall_impl; [|exact Hb]. intros l [H _]. exact H.
  - constructor; [intros [H|[H|[]]]; discriminate H|].
    constructor; [intros [] | constructor].
Qed.

End PipelineBlocks.

Section PipelineScript.

Lemma blocks_script_split (blocks : list (string * list string)) :
  Forall plain_block blocks ->
  _split_sql_statements
    (join "" (map (fun b => create_table_statement (fst b) (snd b)) blocks))
  = map (fun b => split_create_table (fst b) (snd b)) blocks.
Proof.
  intro H. rewrite splitter_refines. unfold SplitterSpec.split_statements.
  rewrite blocks_unlines.
  rewrite <- (append_empty_r (unlines _)).
  rewrite split_unlines by (apply blocks_lines_free, H).
  change (split newline "") with [""].
  rewrite (blocks_split blocks [""] H).
  change (SplitterSpec.split_lines [] [""]) with (@nil string).
  apply app_nil_r.
Qed.

Lemma plain_lines (name : string) (clauses : list string) :
  plain name ->
  Forall (fun l => ~ occurs newline l) clauses ->
  Forall (fun l => ~ occurs ";" l) clauses ->
  plain_block (name, clauses).
Proof.
  intros [Hn Hs] Hcn Hcs. unfold plain_block. cbn [fst snd].
  apply Forall_and.
  - apply create_table_lines_free; [left; reflexivity | exact Hn | exact Hcn].
  - apply create_table_lines_free;
      [right; left; reflexivity | exact Hs | exact Hcs].
Qed.

Lemma plain_entity_block (entity : Entity) :
  plain_entity entity -> plain_block (entity_block entity).
Proof.
  intros [Hname Hattrs]. apply plain_lines; [exact Hname | |].
  - apply expected_clauses_free; [left; reflexivity|].
    eapply Forall_impl; [|exact Hattrs]. intros a [[H1 _] [H2 _]]. tauto.
  - apply expected_clauses_free; [right; left; reflexivity|].
    eapply Forall_impl; [|exact Hattrs]. intros a [[_ H1] [_ H2]]. tauto.
Qed.

Lemma plain_junction_block (r : Relationship) :
  plain_relationship r -> plain_block (junction_block r).
Proof.
  intros [[H1n H1s] [H2n H2s]]. apply plain_lines.
  - split; intro H; apply occurs_append in H; destruct H as [H|H];
      try tauto; apply occurs_append in H; destruct H as [H|H]; try tauto;
      cbn in H; destruct H as [H|[]]; discriminate H.
  - apply junction_clauses_free; [left; reflexivity | assumption..].
  - apply junction_clauses_free; [right; left; reflexivity | assumption..].
Qed.

Lemma nl_create_table_block (nl : NLToSQLConverter.t) (entity : Entity) :
  NLToSQLConverter._generate_create_table nl entity
  = create_table_statement (fst (entity_block entity))
      (snd (entity_block entity)).
Proof.
  unfold NLToSQLConverter._generate_create_table.
  rewrite create_table_assoc, nl_columns. reflexivity.
Qed.

Lemma er_create_table_block (er : ERToSQLConverter.t) (entity : Entity) :
  ERToSQLConverter._generate_create_table er entity
  = create_table_statement (fst (entity_block entity))
      (snd (entity_block entity)).
Proof.
  unfold ERToSQLConverter._generate_create_table.
  rewrite create_table_assoc, er_columns. reflexivity.
Qed.

Lemma nl_junction_block (nl : NLToSQLConverter.t) (r : Relationship) :
  type_of r = "many_to_many" ->
  NLToSQLConverter._generate_relationship nl r
  = create_table_statement (fst (junction_block r)) (snd (junction_block r)).
Proof.
  intro Ht.
  destruct r as [t e1 e2 a]. unfold type_of in Ht. cbn [rel_type] in Ht.
  destruct t as [t|]; [|discriminate Ht]. cbn [dict_get] in Ht. subst t.
  unfold junction_block. cbn [entity1 entity2 fst snd].
  destruct e1 as [e1|], e2 as [e2|]; cbn [dict_get].
  - apply nl_many_to_many; reflexivity.
  - unfold NLToSQLConverter._generate_relationship. cbn [rel_type entity1
      entity2 dict_get]. rewrite String.eqb_refl. cbv zeta.
    unfold junction_clauses, create_table_statement, junction_column,
      junction_primary_key, junction_foreign_key, join.
    cbn [String.concat]. flatten_append. reflexivity.
  - unfold NLToSQLConverter._generate_relationship. cbn [rel_type entity1
      entity2 dict_get]. rewrite String.eqb_refl. cbv zeta.
    unfold junction_clauses, create_table_statement, junction_column,
      junction_primary_key, junction_foreign_key, join.
    cbn [String.concat]. flatten_append. reflexivity.
  - reflexivity.
Qed.

Lemma nl_relationships_blocks (nl : NLToSQLConverter.t)
  (rels : list Relationship) :
  join "" (map (NLToSQLConverter._generate_relationship nl) rels)
  = join ""
      (map (fun b => create_table_statement (fst b) (snd b))
         (map junction_block (many_to_many_of rels))).
Proof.
  induction rels as [|r rels IH]; [reflexivity|].
  cbn [map]. unfold many_to_many_of. cbn [filter].
  fold (many_to_many_of rels). rewrite join_empty_cons, IH.
  destruct (String.eqb_spec (type_of r) "many_to_many") as [Ht|Ht].
  - cbn [map]. rewrite join_empty_cons, (nl_junction_block nl r Ht).
    reflexivity.
  - rewrite (nl_relationship_cases nl r Ht). reflexivity.
Qed.

Lemma nl_script_blocks (nl : NLToSQLConverter.t)
  (schema : SchemaDescription) :
  NLToSQLConverter.generate_sql nl schema
  = join ""
      (map (fun b => create_table_statement (fst b) (snd b))
         (script_blocks schema)).
Proof.
  unfold NLToSQLConverter.generate_sql, script_blocks. cbv zeta.
  rewrite !accumulate_join, map_app, join_empty_app.
  rewrite nl_relationships_blocks. cbn [append]. f_equal.
  rewrite map_map. f_equal. apply map_ext.
  intro e. apply nl_create_table_block.
Qed.

End PipelineScript.

(** X24: the [CREATE TABLE] text that either converter synthesizes for
    an entity whose name, attribute names and types hold neither a
    newline nor a semicolon is split by the executor into exactly one
    statement: the kept lines joined by single spaces, from
    [CREATE TABLE <name> (] to the closing [);]. *)
Theorem X24_create_table_one_statement
  (nl : NLToSQLConverter.t) (er : ERToSQLConverter.t) (entity : Entity) :
  plain_entity entity ->
  let statement :=
    join " "
      (("CREATE TABLE " ^^ entity_name entity ^^ " (")
       :: kept_lines (comma_lines (expected_clauses (attributes entity)))
       ++ [");"]) in
  _split_sql_statements (NLToSQLConverter._generate_create_table nl entity)
  = [statement] /\
  _split_sql_statements (ERToSQLConverter._generate_create_table er entity)
  = [statement].
Proof.
  intros Hplain statement.
  assert (Hb : Forall plain_block [entity_block entity]).
  { constructor; [apply plain_entity_block, Hplain | constructor]. }
  pose proof (blocks_script_split [entity_block entity] Hb) as H.
  cbn [map] in H. unfold split_create_table in H.
  rewrite header_kept in H. cbn [fst snd entity_block app] in H.
  change (join "" [create_table_statement (entity_name entity)
                     (expected_clauses (attributes entity))])
    with (create_table_statement (entity_name entity)
            (expected_clauses (attributes entity))) in H.
  split.
  - rewrite nl_create_table_block. exact H.
  - rewrite er_create_table_block. exact H.
Qed.

Lemma X24_create_table_one_statement_witness :
  plain_entity users_entity /\
  _split_sql_statements
    (NLToSQLConverter._generate_create_table nl_converter users_entity)
  = ["CREATE TABLE users ( id INTEGER NOT NULL, username TEXT NOT NULL, bio TEXT, PRIMARY KEY (id) );"].
Proof.
  assert (Hplain : plain_entity users_entity).
  { split; [split; cbn; intuition discriminate|].
    repeat constructor; cbn; intuition discriminate. }
  split; [exact Hplain|].
  exact (proj1 (X24_create_table_one_statement nl_converter er_converter
                  users_entity Hplain)).
Defined.

(** X25: on a schema whose entity names, attribute names and types and
    many-to-many entity names hold neither a newline nor a semicolon,
    the executor splits the script of the natural-language converter
    into exactly one statement per entity, in order, followed by one
    statement per many-to-many relationship, in order. *)
Theorem X25_script_statements
  (nl : NLToSQLConverter.t) (schema : SchemaDescription) :
  plain_schema schema ->
  _split_sql_statements (NLToSQLConverter.generate_sql nl schema)
  = map (fun b => split_create_table (fst b) (snd b)) (script_blocks schema)
  /\
  List.length
    (_split_sql_statements (NLToSQLConverter.generate_sql nl schema))
  = List.length (dict_get (entities schema) [])
    + List.length (many_to_many_of (dict_get (relationships schema) [])).
Proof.
  intros [Hents Hrels].
  assert (Hb : Forall plain_block (script_blocks schema)).
  { unfold script_blocks. apply Forall_app. split; apply Forall_map.
    - eapply Forall_impl; [|exact Hents]. apply plain_entity_block.
    - eapply Forall_impl; [|exact Hrels]. apply plain_junction_block. }
  rewrite nl_script_blocks, (blocks_script_split _ Hb).
  split; [reflexivity|].
  unfold script_blocks. rewrite length_map, length_app, !length_map.
  reflexivity.
Qed.

Lemma X25_script_statements_witness :
  plain_schema two_table_schema /\
  _split_sql_statements
    (NLToSQLConverter.generate_sql nl_converter two_table_schema)
  = ["CREATE TABLE users ( id INTEGER NOT NULL, username TEXT NOT NULL, bio TEXT, PRIMARY KEY (id) );";
     "CREATE TABLE profiles ( id INTEGER NOT NULL, PRIMARY KEY (id) );";
     "CREATE TABLE users_profiles ( users_id INTEGER NOT NULL, profiles_id INTEGER NOT NULL, PRIMARY KEY (users_id, profiles_id), FOREIGN KEY (users_id) REFERENCES users (id), FOREIGN KEY (profiles_id) REFERENCES profiles (id) );"].
Proof.
  assert (Hplain : plain_schema two_table_schema).
  { split.
    - repeat constructor; cbn; intuition discriminate.
    - repeat constructor; cbn; intuition discriminate. }
  split; [exact Hplain|].
  exact (proj1 (X25_script_statements nl_converter two_table_schema Hplain)).
Defined.
